(** * turbo-chart: the timeline rendering engine of [src/turbo-chart.mts]

    A shallow embedding of the [TimelineRenderer] class, of
    [formatDuration], and of [getLatestRunFile] and [main] over a file
    system that is a parameter, followed by the properties of the
    engine and of its caller.

    Numbers.  A JavaScript [number] is an IEEE-754 binary64.  The program
    uses numbers in two ways, and the embedding keeps them apart:

    - [number]: the values that are integers or one of the three special
      values [NaN], [Infinity], [-Infinity]: epoch-millisecond timestamps,
      character columns, loop counters, string lengths.  Integers are kept
      in [Z]; binary64 adds, subtracts and compares integers below 2^53
      exactly, so that is the range in which this part of the embedding is
      the program.  The special values follow IEEE-754.
    - [float]: binary64 itself ([spec_float] at precision 53), for the
      values that are fractions: [msToChars] and every product with it,
      and the quotient [ms / 10] of [formatDuration].
      Division, multiplication and their rounding are those of
      [SpecFloat]; [Math_floor] leads from [float] back to [number].

    Text.  A JavaScript string is a sequence of UTF-16 code units and its
    [length] counts them.  The program writes two characters outside
    ASCII, the box-drawing separator U+2502 and the no-break space U+00A0,
    one code unit each; [jschar] names them, so that the length of a
    [text] is the width the program computes with. *)

From Stdlib Require Import ZArith Lia Bool Ascii String SpecFloat Reals Lra.
From stdpp Require Import base list strings pretty gmap sorting.

Local Open Scope Z_scope.

(** ** Numbers *)

Inductive number :=
  | NaN
  | Infinity (negative : bool)
  | Int (z : Z).

Module Num.

Definition neg (a : number) : number :=
  match a with
  | NaN => NaN
  | Infinity s => Infinity (negb s)
  | Int z => Int (- z)
  end.

(** [a + b] *)
Definition add (a b : number) : number :=
  match a, b with
  | NaN, _ | _, NaN => NaN
  | Infinity s, Infinity s' => if Bool.eqb s s' then Infinity s else NaN
  | Infinity s, Int _ | Int _, Infinity s => Infinity s
  | Int x, Int y => Int (x + y)
  end.

(** [a - b] *)
Definition sub (a b : number) : number := add a (neg b).

(** [a < b] *)
Definition ltb (a b : number) : bool :=
  match a, b with
  | NaN, _ | _, NaN => false
  | Infinity s, Infinity s' => s && negb s'
  | Infinity s, Int _ => s
  | Int _, Infinity s => negb s
  | Int x, Int y => x <? y
  end.

(** [a <= b] *)
Definition leb (a b : number) : bool :=
  match a, b with
  | NaN, _ | _, NaN => false
  | Infinity s, Infinity s' => s || negb s'
  | Infinity s, Int _ => s
  | Int _, Infinity s => negb s
  | Int x, Int y => x <=? y
  end.

(** [a === b] *)
Definition eqb (a b : number) : bool :=
  match a, b with
  | Infinity s, Infinity s' => Bool.eqb s s'
  | Int x, Int y => x =? y
  | _, _ => false
  end.

(** SameValueZero, the comparison of [Array.prototype.includes]:
    it differs from [===] in that NaN is found. *)
Definition sameValueZero (a b : number) : bool :=
  match a, b with
  | NaN, NaN => true
  | _, _ => eqb a b
  end.

Definition includes (l : list number) (a : number) : bool :=
  existsb (sameValueZero a) l.

Definition min2 (a b : number) : number :=
  match a, b with
  | NaN, _ | _, NaN => NaN
  | _, _ => if ltb b a then b else a
  end.

Definition max2 (a b : number) : number :=
  match a, b with
  | NaN, _ | _, NaN => NaN
  | _, _ => if ltb a b then b else a
  end.

(** [Math.min(...l)] and [Math.max(...l)]: NaN if an argument is, the
    identity of the operation on no argument at all. *)
Definition Math_min (l : list number) : number :=
  foldr min2 (Infinity false) l.

Definition Math_max (l : list number) : number :=
  foldr max2 (Infinity true) l.

End Num.

(** ** binary64 *)

Abbreviation float := spec_float.

Module F64.

Definition prec : Z := 53.
Definition emax : Z := 1024.

Definition of_Z (z : Z) : float := binary_normalize prec emax z 0 false.

Definition of_number (a : number) : float :=
  match a with
  | NaN => S754_nan
  | Infinity s => S754_infinity s
  | Int z => of_Z z
  end.

Definition mul : float -> float -> float := SFmul prec emax.
Definition div : float -> float -> float := SFdiv prec emax.

(** [Math.floor]: the largest integer not above [±m * 2^e].  A shift by
    a negative amount is the floored division by the power of two. *)
Definition Math_floor (x : float) : number :=
  match x with
  | S754_nan => NaN
  | S754_infinity s => Infinity s
  | S754_zero _ => Int 0
  | S754_finite s m e => Int (Z.shiftl (cond_Zopp s (Zpos m)) e)
  end.

End F64.

(** ** Text *)

Inductive jschar :=
  | Sep                  (* U+2502, the vertical separator *)
  | Nbsp                 (* U+00A0 *)
  | Chr (a : ascii).

Abbreviation text := (list jschar).

Definition text_of_string (s : string) : text :=
  Chr <$> list_ascii_of_string s.

Definition spaces (n : nat) : text := replicate n (Chr " "%char).

(** [String.prototype.padEnd]: the target length goes through ToLength,
    which sends NaN and everything below zero to zero. *)
Definition padEnd (t : text) (target : number) : text :=
  match target with
  | Int n => t ++ spaces (Z.to_nat n - length t)
  | _ => t
  end.

(** Template-literal conversion of an integer or special number. *)
Definition Number_toString (a : number) : string :=
  match a with
  | NaN => "NaN"
  | Infinity false => "Infinity"
  | Infinity true => "-Infinity"
  | Int z => pretty z
  end.

(** ** formatDuration *)

(** [hundredths / 100] and its conversion to a string, for an integer
    count of hundredths of at most fifteen digits: the quotient has at
    most two decimals, and the shortest decimal that reads back as that
    binary64 is the quotient written without trailing zeros. *)
Definition seconds_toString (hundredths : Z) : string :=
  let whole := pretty (hundredths `div` 100) in
  let frac := hundredths `mod` 100 in
  if frac =? 0 then whole
  else if frac `mod` 10 =? 0 then whole +:+ "." +:+ pretty (frac `div` 10)
  else whole +:+ "." +:+ pretty (frac `div` 10) +:+ pretty (frac `mod` 10).

(** [Math.floor(ms / 10)] is computed in binary64; a floor that is not
    a number (of NaN or an infinity) stays what it is when divided by
    100. *)
Definition formatDuration (ms : number) : string :=
  if Num.ltb ms (Int 1000) then Number_toString ms +:+ "ms"
  else
    match F64.Math_floor (F64.div (F64.of_number ms) (F64.of_Z 10)) with
    | Int hundredths => seconds_toString hundredths +:+ "s"
    | seconds => Number_toString seconds +:+ "s"
    end.


(** ** The input: [SummaryTask]

    The renderer reads four fields of a task: [taskId], [package],
    [execution.startTime] and [execution.endTime]; the record keeps those.
    The timestamps are epoch milliseconds, integers. *)

Record SummaryTask := {
  taskId : string;
  package : string;
  startTime : Z;
  endTime : Z;
}.

Module CONFIG.
Definition TIMELINE_WIDTH : Z := 100.
Definition MAX_LABEL_WIDTH : Z := 45.
Definition MIN_BAR_WIDTH : Z := 3.
Definition NUM_TIME_MARKERS : Z := 8.
End CONFIG.

(** ** Styled output

    [styleText] and the ANSI escapes are capabilities of the terminal;
    a line keeps, piece by piece, which of them the program applied to
    which text. *)

Inductive style := gray | dim_style.

(** The escape [\x1b[48;5;<code>m]: a background of the 256-colour
    palette. *)
Inductive color := Bg256 (code : Z).

Inductive span :=
  | Raw (t : text)                      (* text appended as it is *)
  | Styled (st : style) (t : text)      (* styleText(st, t) *)
  | Painted (bg : color) (c : jschar).  (* `${bg}c\x1b[0m` *)

Abbreviation line := (list span).

(** The characters of a line that take a column. *)
Definition span_text (s : span) : text :=
  match s with
  | Raw t | Styled _ t => t
  | Painted _ c => [c]
  end.

Definition visible (l : line) : text := l ≫= span_text.

(** What a call can do besides returning. *)
Inductive error := RangeError.

Inductive outcome (A : Type) :=
  | Returns (a : A)
  | Throws (e : error)
  | Diverges.
Arguments Returns {A} a.
Arguments Throws {A} e.
Arguments Diverges {A}.

(** [String.prototype.repeat]: a negative or infinite count throws
    RangeError; NaN counts as zero. *)
Definition repeat_space (count : number) : outcome text :=
  match count with
  | NaN => Returns []
  | Infinity _ => Throws RangeError
  | Int n => if n <? 0 then Throws RangeError else Returns (spaces (Z.to_nat n))
  end.

(** ** TimelineRenderer *)

Record TimelineRenderer := {
  msToChars : float;
  r_startTime : number;
  r_endTime : number;
  totalDuration : number;
  labelWidth : number;
  packageColors : gmap string color;
}.

(** [[...new Set(l)]]: the elements of [l] in the order of their first
    occurrence. *)
Fixpoint Set_values (seen l : list string) : list string :=
  match l with
  | [] => []
  | x :: l' =>
      if bool_decide (x ∈ seen) then Set_values seen l'
      else x :: Set_values (x :: seen) l'
  end.

Definition colorCodes : list Z := [29; 31; 64; 97; 136; 166; 168].

Definition uniquePackages (tasks : list SummaryTask) : list string :=
  Set_values [] (package <$> tasks).

Definition assignPackageColors (tasks : list SummaryTask) : gmap string color :=
  foldl (fun packageColorMap '(index, pkg) =>
           let colorCode := colorCodes !!! (index mod length colorCodes)%nat in
           <[pkg := Bg256 colorCode]> packageColorMap)
        ∅ (imap pair (uniquePackages tasks)).

Definition new_TimelineRenderer
    (tasks : list SummaryTask) (timelineWidth : Z) : TimelineRenderer :=
  let startTime := Num.Math_min ((fun t => Int (startTime t)) <$> tasks) in
  let endTime := Num.Math_max ((fun t => Int (endTime t)) <$> tasks) in
  let totalDuration := Num.sub endTime startTime in
  let maxLabelLength :=
    Num.Math_max ((fun t => Int (Z.of_nat (String.length (taskId t)))) <$> tasks) in
  {| msToChars := F64.div (F64.of_Z timelineWidth) (F64.of_number totalDuration);
     r_startTime := startTime;
     r_endTime := endTime;
     totalDuration := totalDuration;
     labelWidth :=
       Num.Math_min [Num.add maxLabelLength (Int 2); Int CONFIG.MAX_LABEL_WIDTH];
     packageColors := assignPackageColors tasks |}.

(** A [Map] from package to its tasks, in insertion order. *)
Abbreviation groups := (list (string * list SummaryTask)).

Section Renderer.

(** The module-level variable [dim]: ["dim"], or ["gray"] under CI. *)
Variable dim : style.

Variable this : TimelineRenderer.

Definition getTaskColor (task : SummaryTask) : color :=
  default (Bg256 51) (packageColors this !! package task).

Definition timeToChars (ms : float) : number :=
  F64.Math_floor (F64.mul ms (msToChars this)).

(** [i / CONFIG.NUM_TIME_MARKERS] *)
Definition fraction (i : Z) : float :=
  F64.div (F64.of_Z i) (F64.of_Z CONFIG.NUM_TIME_MARKERS).

(** The values of the loop variable of [for (i = 0; i <= 8; i++)]. *)
Definition marker_indices : list Z :=
  Z.of_nat <$> seq 0 (Z.to_nat CONFIG.NUM_TIME_MARKERS + 1).

Definition getMarkerPositions : list number :=
  let width := timeToChars (F64.of_number (totalDuration this)) in
  let positions :=
    (fun i => F64.Math_floor (F64.mul (fraction i) (F64.of_number width)))
      <$> marker_indices in
  if negb (Num.includes positions width) then positions ++ [width]
  else positions.

Record timestamp := { pos : number; label : string }.

Definition getTimestamps : list timestamp :=
  (fun i =>
     let elapsed := F64.mul (fraction i) (F64.of_number (totalDuration this)) in
     let time := F64.Math_floor elapsed in
     {| pos := Num.add (labelWidth this) (timeToChars elapsed);
        label := formatDuration time |})
    <$> marker_indices.

Record bounds := { b_start : number; b_end : number }.

Definition barWidth (task : SummaryTask) : number :=
  let taskDuration := Num.sub (Int (endTime task)) (Int (startTime task)) in
  Num.Math_max [Int CONFIG.MIN_BAR_WIDTH;
                timeToChars (F64.of_number taskDuration)].

Definition getTaskBarBounds (task : SummaryTask) : bounds :=
  let taskStart := Num.sub (Int (startTime task)) (r_startTime this) in
  let barStart := timeToChars (F64.of_number taskStart) in
  {| b_start := barStart; b_end := Num.add barStart (barWidth task) |}.

(** *** renderTaskRow *)

Record rowState := { row_line : line; pendingLabel : option string }.

(** A string in a condition: true unless null or empty. *)
Definition truthy (p : option string) : bool :=
  match p with
  | Some s => negb (String.eqb s "")
  | None => false
  end.

Section Row.

Variables (bg : color) (durationLabel : string).
Variables (barStart barEnd width : number).
Variable markerPositions : list number.

(** The label to commit at column [i], if the body of the loop
    commits one there. *)
Definition placement (i : Z) (st : rowState) : option string :=
  let isMarker := Num.includes markerPositions (Int i) in
  match pendingLabel st with
  | Some pending =>
      if truthy (Some pending) && negb isMarker then
        let labelEnd := i + Z.of_nat (String.length pending) in
        let hasConflict :=
          existsb (fun pos => Num.ltb (Int i) pos && Num.ltb pos (Int labelEnd))
                  markerPositions in
        if negb hasConflict then Some pending else None
      else None
  | None => None
  end.

(** One pass through the body of the loop at column [i]: the value
    of [i] when the body ends, before [i++], and the new state. *)
Definition rowStep (i : Z) (st : rowState) : Z * rowState :=
  let isMarker := Num.includes markerPositions (Int i) in
  let isInBar := Num.leb barStart (Int i) && Num.ltb (Int i) barEnd in
  match placement i st with
  | Some pending =>
      (i + (Z.of_nat (String.length pending) - 1),
       {| row_line := row_line st ++ [Styled dim (text_of_string pending)];
          pendingLabel := None |})
  | None =>
      let cell :=
        if isInBar then Painted bg (if isMarker then Sep else Nbsp)
        else if isMarker then Styled dim [Sep] else Raw [Nbsp] in
      (i,
       {| row_line := row_line st ++ [cell];
          pendingLabel :=
            match pendingLabel st with
            | None => if Num.eqb (Int i) barEnd then Some durationLabel else None
            | Some pending => Some pending
            end |})
  end.

(** [for (let i = ...; i <= width; i++)]: every pass moves [i] up by
    one at least, so [width + 1 - i] passes are all there can be. *)
Fixpoint rowLoop (fuel : nat) (i : Z) (st : rowState) : rowState :=
  match fuel with
  | O => st
  | S fuel' =>
      if Num.leb (Int i) width then
        let '(i', st') := rowStep i st in
        rowLoop fuel' (i' + 1) st'
      else st
  end.

Definition flush (st : rowState) : line :=
  match pendingLabel st with
  | Some pending =>
      if truthy (Some pending)
      then row_line st ++ [Styled dim (text_of_string pending)]
      else row_line st
  | None => row_line st
  end.

End Row.

Definition renderTaskRow
    (task : SummaryTask) (markerPositions : list number) : outcome line :=
  let bg := getTaskColor task in
  let gutter := padEnd (text_of_string (taskId task)) (labelWidth this) in
  let duration := Num.sub (Int (endTime task)) (Int (startTime task)) in
  let durationLabel := formatDuration duration in
  let b := getTaskBarBounds task in
  let width := timeToChars (F64.of_number (totalDuration this)) in
  let start := {| row_line := [Styled gray gutter]; pendingLabel := None |} in
  let loop fuel :=
    rowLoop bg durationLabel (b_start b) (b_end b) width markerPositions fuel 0 start in
  match width with
  | Infinity false => Diverges      (* [i <= Infinity] never fails *)
  | Int w => Returns (flush (loop (Z.to_nat (w + 1))))
  | _ => Returns (flush (loop O))   (* [0 <= width] fails at once *)
  end.

(** *** renderTimeAxis *)

Record axisState := {
  markerLine : text;
  labelLine : text;
  currentPos : Z;
  tsIndex : nat;
}.

Section Axis.

Variable timestamps : list timestamp.
Variable limit : Z.             (* this.labelWidth + width *)

(** The branch taken at a timestamp's own column. *)
Definition axisMark (ts : timestamp) (st : axisState) : axisState :=
  let currentPos := currentPos st + 1 in
  let nextTs := timestamps !! (tsIndex st + 1)%nat in
  let isLastTimestamp := Nat.eqb (tsIndex st) (length timestamps - 1) in
  let spaceAvailable :=
    match nextTs with
    | Some next => Num.sub (pos next) (Int currentPos)
    | None => Infinity false
    end in
  let len := String.length (label ts) in
  if isLastTimestamp || Num.leb (Int (Z.of_nat len + 1)) spaceAvailable then
    {| markerLine := (markerLine st ++ [Sep]) ++ spaces len;
       labelLine := (labelLine st ++ [Sep]) ++ text_of_string (label ts);
       currentPos := currentPos + Z.of_nat len;
       tsIndex := S (tsIndex st) |}
  else
    {| markerLine := markerLine st ++ [Sep];
       labelLine := labelLine st ++ [Sep];
       currentPos := currentPos;
       tsIndex := S (tsIndex st) |}.

(** The first [while].  A pass in which [currentPos] is neither below
    nor at the timestamp's column changes nothing, and the loop never
    ends; every other pass moves [currentPos] up. *)
Fixpoint axisLoop (fuel : nat) (st : axisState) : outcome axisState :=
  match fuel with
  | O => Returns st
  | S fuel' =>
      if (currentPos st <=? limit) && (tsIndex st <? length timestamps)%nat then
        match timestamps !! tsIndex st with
        | Some ts =>
            if Num.ltb (Int (currentPos st)) (pos ts) then
              axisLoop fuel'
                {| markerLine := markerLine st ++ [Chr " "];
                   labelLine := labelLine st ++ [Chr " "];
                   currentPos := currentPos st + 1;
                   tsIndex := tsIndex st |}
            else if Num.eqb (Int (currentPos st)) (pos ts) then
              axisLoop fuel' (axisMark ts st)
            else Diverges
        | None => Returns st
        end
      else Returns st
  end.

(** The second [while]: blanks up to the last column, a separator on
    it. *)
Fixpoint axisTail (fuel : nat) (st : axisState) : axisState :=
  match fuel with
  | O => st
  | S fuel' =>
      if currentPos st <=? limit then
        let c := if currentPos st =? limit then Sep else Chr " " in
        axisTail fuel'
          {| markerLine := markerLine st ++ [c];
             labelLine := labelLine st ++ [c];
             currentPos := currentPos st + 1;
             tsIndex := tsIndex st |}
      else st
  end.

End Axis.

Definition axisString (markerLine labelLine : text) : line :=
  [Styled dim markerLine; Raw [Chr "010"]; Styled dim labelLine].

Definition renderTimeAxis : outcome line :=
  let timestamps := getTimestamps in
  let width := timeToChars (F64.of_number (totalDuration this)) in
  match repeat_space (labelWidth this) with
  | Throws e => Throws e
  | Diverges => Diverges
  | Returns padding =>
      match labelWidth this, Num.add (labelWidth this) width with
      | Int first, Int limit =>
          let fuel := Z.to_nat (limit + 1 - first) in
          let start :=
            {| markerLine := padding; labelLine := padding;
               currentPos := first; tsIndex := O |} in
          match axisLoop timestamps limit fuel start with
          | Returns st =>
              let st' := axisTail limit fuel st in
              Returns (axisString (markerLine st') (labelLine st'))
          | Throws e => Throws e
          | Diverges => Diverges
          end
      | Int _, Infinity false => Diverges   (* [currentPos <= Infinity] *)
      | _, _ => Returns (axisString padding padding)
      end
  end.

(** *** groupAndSortTasks *)

(** [Array.prototype.sort(compare)], which is stable: an element moves
    behind those it compares greater than, and behind nothing else. *)
Section Sort.
Context {A : Type} (compare : A -> A -> number).

Fixpoint sort_insert (x : A) (l : list A) : list A :=
  match l with
  | [] => [x]
  | y :: l' =>
      if Num.ltb (Int 0) (compare x y) then y :: sort_insert x l'
      else x :: y :: l'
  end.

Definition Array_sort (l : list A) : list A := foldr sort_insert [] l.
End Sort.

(** [if (!has(p)) set(p, []); get(p).push(task)] *)
Fixpoint group_push (m : groups) (task : SummaryTask) : groups :=
  match m with
  | [] => [(package task, [task])]
  | (p, g) :: m' =>
      if String.eqb p (package task) then (p, g ++ [task]) :: m'
      else (p, g) :: group_push m' task
  end.

Definition byStartTime (a b : SummaryTask) : number :=
  Num.sub (Int (startTime a)) (Int (startTime b)).

Definition minStart (g : list SummaryTask) : number :=
  Num.Math_min ((fun t => Int (startTime t)) <$> g).

Definition byMinStart (a b : string * list SummaryTask) : number :=
  Num.sub (minStart a.2) (minStart b.2).

Definition groupAndSortTasks (tasks : list SummaryTask) : list SummaryTask :=
  let packageGroups := foldl group_push [] tasks in
  let packageGroups := (fun '(p, g) => (p, Array_sort byStartTime g)) <$> packageGroups in
  let sortedGroups := Array_sort byMinStart packageGroups in
  sortedGroups ≫= snd.

(** *** render *)

(** The console: the lines logged so far, and how the call ended. *)
Fixpoint logRows (rows : list SummaryTask) (markerPositions : list number)
    (console : list line) : list line * outcome unit :=
  match rows with
  | [] => (console, Returns tt)
  | task :: rows' =>
      match renderTaskRow task markerPositions with
      | Returns l => logRows rows' markerPositions (console ++ [l])
      | Throws e => (console, Throws e)
      | Diverges => (console, Diverges)
      end
  end.

Definition render (tasks : list SummaryTask) (console : list line)
    : list line * outcome unit :=
  let groupedTasks := groupAndSortTasks tasks in
  let markerPositions := getMarkerPositions in
  match logRows groupedTasks markerPositions console with
  | (console', Returns _) =>
      match renderTimeAxis with
      | Returns l => (console' ++ [l], Returns tt)
      | Throws e => (console', Throws e)
      | Diverges => (console', Diverges)
      end
  | stopped => stopped
  end.

End Renderer.

(** [new TimelineRenderer(data.tasks).render(data.tasks)], as [main] runs
    it: the timeline width is the default one. *)
Definition timeline (dim : style) (tasks : list SummaryTask) : list line * outcome unit :=
  render dim (new_TimelineRenderer tasks CONFIG.TIMELINE_WIDTH) tasks [].

(** ** Reading a rendered line *)

Global Instance number_eq_dec : EqDecision number.
Proof. solve_decision. Defined.

Global Instance jschar_eq_dec : EqDecision jschar.
Proof. solve_decision. Defined.

(** Whether [needle] occurs in [t] as a run of consecutive characters. *)
Fixpoint occurs (needle t : text) : bool :=
  match t with
  | [] => bool_decide (needle = [])
  | _ :: t' => bool_decide (needle = take (length needle) t) || occurs needle t'
  end.

(** The column of the last separator of a text. *)
Fixpoint lastSep (t : text) : option nat :=
  match t with
  | [] => None
  | c :: t' =>
      match lastSep t' with
      | Some k => Some (S k)
      | None => if decide (c = Sep) then Some O else None
      end
  end.

(** [s] stands in [t] from column [c] on. *)
Definition stands_at (t : text) (c : Z) (s : text) : Prop :=
  take (length s) (drop (Z.to_nat c) t) = s.

(** The gutter of a row: [task.taskId.padEnd(this.labelWidth)]. *)
Definition gutterOf (this : TimelineRenderer) (task : SummaryTask) : text :=
  padEnd (text_of_string (taskId task)) (labelWidth this).

(** [markerPositions.includes(c)] *)
Definition marker_col (markers : list number) (c : Z) : bool :=
  Num.includes markers (Int c).

(** ** Task lists used as examples *)

Definition instant : SummaryTask :=
  {| taskId := "a#build"; package := "a"; startTime := 5; endTime := 5 |}.

Definition long_task : SummaryTask :=
  {| taskId := "a#build"; package := "a"; startTime := 0; endTime := 1000 |}.

Definition late_task : SummaryTask :=
  {| taskId := "b#test"; package := "b"; startTime := 990; endTime := 1000 |}.

Definition late_chart : TimelineRenderer :=
  new_TimelineRenderer [long_task; late_task] CONFIG.TIMELINE_WIDTH.

Definition wide_task : SummaryTask :=
  {| taskId := "@acme/design-system-components#build:production";
     package := "@acme/design-system-components";
     startTime := 200; endTime := 700 |}.

Definition wide_chart : TimelineRenderer :=
  new_TimelineRenderer [long_task; wide_task] CONFIG.TIMELINE_WIDTH.

Definition brief_task : SummaryTask :=
  {| taskId := "a#lint"; package := "a"; startTime := 0; endTime := 97 |}.

Definition brief_chart : TimelineRenderer :=
  new_TimelineRenderer [brief_task] CONFIG.TIMELINE_WIDTH.

(** ** The display sequence, package by package *)

(** The tasks of package [p], in input order. *)
Definition tasksOf (p : string) (tasks : list SummaryTask) : list SummaryTask :=
  filter (fun t => package t = p) tasks.

Definition sortedGroup (tasks : list SummaryTask) (p : string) : list SummaryTask :=
  Array_sort byStartTime (tasksOf p tasks).


(** The key of a group under [byMinStart]. *)
Definition minStartZ (a : string * list SummaryTask) : Z :=
  match minStart (a.2) with
  | Int z => z
  | _ => 0
  end.

(** The groups as [groupAndSortTasks] flattens them. *)
Definition sortedGroups (tasks : list SummaryTask) : groups :=
  Array_sort byMinStart ((fun p => (p, sortedGroup tasks p)) <$> uniquePackages tasks).

(** ** binary64 values as real numbers *)

(** The weight of the exponent [e]. *)
Definition pow2 (e : Z) : R := powerRZ 2 e.

(** The real value of a finite binary64. *)
Definition val (x : spec_float) : R :=
  match x with
  | S754_finite s m e => (IZR (cond_Zopp s (Zpos m)) * pow2 e)%R
  | _ => 0%R
  end.

(** Two positive reals within a thousandth of each other. *)
Definition close (v t : R) : Prop :=
  (0 < v /\ 0 < t /\ 1000 * v <= 1001 * t /\ 1000 * t <= 1001 * v)%R.

(** A positive binary64 with a full mantissa and an exponent within
    [E] of zero. *)
Definition nice (x : spec_float) (E : Z) : Prop :=
  exists m e, x = S754_finite false m e
              /\ 2 ^ 52 <= Zpos m < 2 ^ 53 /\ - E <= e <= E.

(** The binary64 of 1, the fraction 8/8. *)
Definition one : float := S754_finite false 4503599627370496 (-52).

(** [msToChars] for a duration of [d] milliseconds. *)
Definition scale (d : Z) : float := F64.div (F64.of_Z CONFIG.TIMELINE_WIDTH) (F64.of_Z d).

(** ** The renderer of a list of tasks with positive duration *)

(** Timestamps are epoch milliseconds below 2^53, the integers that
    binary64 holds exactly. *)
Definition epoch (t : SummaryTask) : Prop :=
  0 <= startTime t < 2 ^ 53 /\ 0 <= endTime t < 2 ^ 53.

(** What the constructor computes for such a list. *)
Record scaled (tasks : list SummaryTask) (this : TimelineRenderer)
    (first duration gutter width : Z) : Prop := {
  scaled_start : r_startTime this = Int first;
  scaled_first : forall t, t ∈ tasks -> first <= startTime t;
  scaled_first_range : 0 <= first;
  scaled_duration : totalDuration this = Int duration;
  scaled_range : 1 <= duration < 2 ^ 53;
  scaled_scale : msToChars this = scale duration;
  scaled_gutter : labelWidth this = Int gutter;
  scaled_gutter_range : 2 <= gutter <= CONFIG.MAX_LABEL_WIDTH;
  scaled_gutter_fits :
    forall t, t ∈ tasks ->
      Z.of_nat (String.length (taskId t)) <= CONFIG.MAX_LABEL_WIDTH ->
      Z.of_nat (String.length (taskId t)) <= gutter;
  scaled_width :
    timeToChars this (F64.of_number (totalDuration this)) = Int width;
  scaled_width_range : 99 <= width <= 100;
}.

(** ** The row loop *)

(** The row so far: the gutter and [i] columns, where a column shows a
    separator exactly if it is a marker position. *)
Definition row_inv (markers : list number) (gutter : text) (i : Z) (st : rowState) : Prop :=
  exists body,
    visible (row_line st) = gutter ++ body
    /\ Z.of_nat (length body) = i
    /\ forall c, (c < length body)%nat ->
         body !! c = Some Sep <-> marker_col markers (Z.of_nat c) = true.

(** A label is pending at column [i] only behind the end of the bar. *)
Definition pending_after (barEnd : number) (i : Z) (st : rowState) : Prop :=
  forall pending, pendingLabel st = Some pending -> Num.ltb barEnd (Int i) = true.

(** ** The two lines of the axis *)

(** A timestamp by column and label. *)
Definition viewed (ts : timestamp) (cl : Z * string) : Prop :=
  pos ts = Int cl.1 /\ label ts = cl.2.

(** [n] passes through the first branch of the first loop. *)
Definition blank_step (n : nat) (st : axisState) : axisState :=
  {| markerLine := markerLine st ++ spaces n;
     labelLine := labelLine st ++ spaces n;
     currentPos := currentPos st + Z.of_nat n;
     tsIndex := tsIndex st |}.

(** Columns that ascend strictly and stay within the limit. *)
Fixpoint ascending (limit : Z) (rest : list (Z * string)) : Prop :=
  match rest with
  | [] => True
  | (c, _) :: rest' =>
      c <= limit
      /\ match rest' with
         | [] => True
         | (c', _) :: _ => c < c'
         end
      /\ ascending limit rest'
  end.

(** What the loops of [renderTimeAxis] add to the two lines, for
    timestamps given by column and label: from the column of a
    timestamp to the next, a separator and then either the label and
    blanks, if the label and one blank fit in front of the next
    separator, or blanks alone; after the last separator the last
    label. *)
Fixpoint axis_segments (view : list (Z * string)) : text * text :=
  match view with
  | [] => ([], [])
  | (c, l) :: rest =>
      match rest with
      | [] => (Sep :: spaces (String.length l), Sep :: text_of_string l)
      | (c', _) :: _ =>
          let gap := Z.to_nat (c' - (c + 1)) in
          let fits := Z.of_nat (String.length l) + 1 <=? c' - (c + 1) in
          (Sep :: spaces gap ++ (axis_segments rest).1,
           Sep :: (if fits
                   then text_of_string l ++ spaces (gap - String.length l)
                   else spaces gap) ++ (axis_segments rest).2)
      end
  end.

(** The column behind the last label. *)
Definition axis_end (view : list (Z * string)) : Z :=
  match last view with
  | Some (c, l) => c + 1 + Z.of_nat (String.length l)
  | None => 0
  end.

(** Whether the label of the [k]-th timestamp is written: the last one
    always, another one if it and one blank fit in front of the next
    separator. *)
Definition label_placed (view : list (Z * string)) (k : nat) : Prop :=
  match view !! k, view !! S k with
  | Some (c, l), Some (c', _) => Z.of_nat (String.length l) + 1 <= c' - (c + 1)
  | Some _, None => True
  | None, _ => False
  end.

(** ** The cells of a row *)

(** The cell that the loop of [renderTaskRow] draws at column [i] when
    it commits no label there. *)
Definition cellAt (dim : style) (bg : color) (barStart barEnd : number)
    (markers : list number) (i : Z) : span :=
  let isMarker := Num.includes markers (Int i) in
  let isInBar := Num.leb barStart (Int i) && Num.ltb (Int i) barEnd in
  if isInBar then Painted bg (if isMarker then Sep else Nbsp)
  else if isMarker then Styled dim [Sep] else Raw [Nbsp].

(** The cells of [len] columns from column [from] on. *)
Definition cells (dim : style) (bg : color) (barStart barEnd : number)
    (markers : list number) (from len : Z) : line :=
  cellAt dim bg barStart barEnd markers <$> seqZ from len.

(** The conditions [!isMarker] and [!hasConflict] for a pending label
    at column [i]. *)
Definition labelFits (markers : list number) (pending : string) (i : Z) : bool :=
  negb (Num.includes markers (Int i))
  && negb (existsb (fun pos => Num.ltb (Int i) pos
                               && Num.ltb pos (Int (i + Z.of_nat (String.length pending))))
                   markers).

(** The state of the loop at column [i]: before the end of the bar
    the row is cells; behind it the label is pending where it has not
    fitted yet, or it is written at the first column [k] where it
    fits, with cells behind it. *)
Definition spans_inv (dim : style) (bg : color) (durationLabel : string)
    (barStart : number) (e w : Z) (markers : list number) (head : line)
    (i : Z) (st : rowState) : Prop :=
  let cells := cells dim bg barStart (Int e) markers in
  let len := Z.of_nat (String.length durationLabel) in
  (i <= e /\ i <= w + 1 /\ pendingLabel st = None
   /\ row_line st = head ++ cells 0 i)
  \/ (e < i /\ i <= w + 1 /\ pendingLabel st = Some durationLabel
      /\ row_line st = head ++ cells 0 i
      /\ forall c, e < c < i -> labelFits markers durationLabel c = false)
  \/ (pendingLabel st = None
      /\ exists k, e < k <= w /\ k + len <= i /\ (i <= w + 1 \/ i = k + len)
           /\ labelFits markers durationLabel k = true
           /\ (forall c, e < c < k -> labelFits markers durationLabel c = false)
           /\ row_line st
              = head ++ cells 0 k ++ [Styled dim (text_of_string durationLabel)]
                     ++ cells (k + len) (i - (k + len))).

(** The row that the loop and the flush leave. *)
Definition spans_final (dim : style) (bg : color) (durationLabel : string)
    (barStart : number) (e w : Z) (markers : list number) (head : line)
    (row : line) : Prop :=
  let cells := cells dim bg barStart (Int e) markers in
  let len := Z.of_nat (String.length durationLabel) in
  (w < e /\ row = head ++ cells 0 (w + 1))
  \/ (e <= w
      /\ exists k, e < k <= w + 1
           /\ (forall c, e < c < k -> labelFits markers durationLabel c = false)
           /\ (k <= w -> labelFits markers durationLabel k = true)
           /\ row = head ++ cells 0 k ++ [Styled dim (text_of_string durationLabel)]
                         ++ cells (k + len) (w + 1 - (k + len))).

(** ** The run file and [main]

    [getLatestRunFile] and [main] reach the file system, the JSON
    parser and the process.  What the platform answers is a parameter
    of the embedding; what the program does with the answers is
    embedded.  The cast [as any] takes whatever [JSON.parse] returns
    for a [SummaryFile]: the embedding reads files that hold one, or
    that fail to parse. *)

(** [String.prototype.endsWith] *)
Definition endsWith (s searchString : string) : bool :=
  let searchLength := String.length searchString in
  (searchLength <=? String.length s)%nat
  && String.eqb (substring (String.length s - searchLength) searchLength s) searchString.

(** What [main] reads of the summary: [execution.command],
    [execution.startTime], [execution.endTime] and [tasks]. *)
Record SummaryFile := {
  command : string;
  run_startTime : Z;
  run_endTime : Z;
  run_tasks : list SummaryTask;
}.

(** What is thrown. *)
Inductive exception :=
  | Error (message : string)    (* [throw new Error(message)] *)
  | EngineError (e : error)     (* thrown by the renderer *)
  | SystemError.                (* thrown by [fs] or by [JSON.parse] *)

Inductive result (A : Type) :=
  | Done (a : A)
  | Raise (x : exception).
Arguments Done {A} a.
Arguments Raise {A} x.

(** An entry of [files]. *)
Record runFile := { name : string; path : string; mtime : Z }.

(** A line of the standard output. *)
Inductive logged :=
  | Blank                                   (* console.log() *)
  | Header (command duration : string)      (* the styled header line *)
  | Chart (l : line).                       (* a line of the renderer *)

Inductive ending :=
  | Completed                  (* [main] returned *)
  | Exited (code : Z)          (* process.exit(code) *)
  | Hangs.

Record process := { stdout : list logged; stderr : list exception; ended : ending }.

Section Main.

Variable dim : style.

(** [path.join(process.cwd(), ".turbo", "runs")] and [path.join] on it. *)
Variable turboDir : string.
Variable path_join : string -> string -> string.

(** The file system: [None] stands for a call that throws. *)
Variable existsSync : string -> bool.
Variable readdirSync : string -> option (list string).
Variable statSync_mtime : string -> option Z.   (* [.mtime.getTime()] *)
Variable readFileSync : string -> option string.
Variable JSON_parse : string -> option SummaryFile.

Definition stat_entry (f : string) : option runFile :=
  match statSync_mtime (path_join turboDir f) with
  | Some t => Some {| name := f; path := path_join turboDir f; mtime := t |}
  | None => None
  end.

Definition byNewest (a b : runFile) : number :=
  Num.sub (Int (mtime b)) (Int (mtime a)).

Definition getLatestRunFile : result string :=
  if negb (existsSync turboDir) then Raise (Error ".turbo/runs directory not found")
  else
    match readdirSync turboDir with
    | None => Raise SystemError
    | Some entries =>
        match mapM stat_entry (filter (fun f => endsWith f ".json" = true) entries) with
        | None => Raise SystemError
        | Some files =>
            match Array_sort byNewest files with
            | [] => Raise (Error "No run files found in .turbo/runs")
            | latest :: _ => Done (path latest)
            end
        end
    end.

(** The [catch] of [main]. *)
Definition report (out : list logged) (x : exception) : process :=
  {| stdout := out; stderr := [x]; ended := Exited 1 |}.

Definition main : process :=
  match getLatestRunFile with
  | Raise x => report [] x
  | Done filePath =>
      match readFileSync filePath with
      | None => report [] SystemError
      | Some contents =>
          match JSON_parse contents with
          | None => report [] SystemError
          | Some data =>
              let totalDuration :=
                Num.sub (Int (run_endTime data)) (Int (run_startTime data)) in
              let out := [Blank; Header (command data) (formatDuration totalDuration); Blank] in
              let renderer := new_TimelineRenderer (run_tasks data) CONFIG.TIMELINE_WIDTH in
              match render dim renderer (run_tasks data) [] with
              | (lines, Returns _) =>
                  {| stdout := out ++ (Chart <$> lines); stderr := []; ended := Completed |}
              | (lines, Throws e) => report (out ++ (Chart <$> lines)) (EngineError e)
              | (lines, Diverges) =>
                  {| stdout := out ++ (Chart <$> lines); stderr := []; ended := Hangs |}
              end
          end
      end
  end.

End Main.

(** ** Labels and columns, read back *)

(** What [seconds_toString] writes behind the whole seconds. *)
Definition decimals (frac : Z) : string :=
  if frac =? 0 then ""
  else if frac `mod` 10 =? 0 then "." +:+ pretty (frac `div` 10)
  else "." +:+ pretty (frac `div` 10) +:+ pretty (frac `mod` 10).

(** The decimals of the hundred fractions, checked one by one: they
    are empty or begin with the point, hold no letter, and differ from
    one another. *)
Definition decimals_checked : bool :=
  forallb (fun f =>
             match list_ascii_of_string (decimals f) with
             | [] => true
             | c :: rest =>
                 bool_decide (c = "."%char) && bool_decide ("m"%char ∉ rest)
             end
             && forallb (fun g => implb (String.eqb (decimals f) (decimals g)) (f =? g))
                        (seqZ 0 100))
          (seqZ 0 100).

(** The column of [z] milliseconds on a timeline of [d]: the hundredfold
    of [z / d], rounded down, up to two thousandths. *)
Definition proportional (d z c : Z) : Prop :=
  1000000 * (d * c) <= 100200100 * z /\ 100000000 * z < 1002001 * (d * (c + 1)).

(** * Properties *)

(** ** formatDuration *)

Lemma string_app_assoc (a b c : string) : (a +:+ b) +:+ c = a +:+ (b +:+ c).
Proof.
  induction a as [|x a IH]; [reflexivity|].
  change (String x ((a +:+ b) +:+ c) = String x (a +:+ (b +:+ c))).
  rewrite IH. reflexivity.
Qed.

Lemma seconds_toString_whole q :
  q `mod` 100 = 0 -> seconds_toString q = pretty (q `div` 100).
Proof.
  intros H. unfold seconds_toString. rewrite H. reflexivity.
Qed.

Lemma seconds_toString_tenths q :
  q `mod` 100 <> 0 -> q `mod` 10 = 0 ->
  seconds_toString q
  = pretty (q `div` 100) +:+ "." +:+ pretty ((q `div` 10) `mod` 10).
Proof.
  intros H100 H10. unfold seconds_toString.
  destruct (Z.eqb_spec (q `mod` 100) 0) as [|_]; [contradiction|].
  replace ((q `mod` 100) `mod` 10) with 0 by (rewrite <- H10; Z.div_mod_to_equations; lia).
  simpl. do 3 f_equal. Z.div_mod_to_equations; lia.
Qed.

Lemma seconds_toString_hundredths q :
  q `mod` 10 <> 0 ->
  seconds_toString q
  = pretty (q `div` 100) +:+ "." +:+ pretty ((q `div` 10) `mod` 10)
      +:+ pretty (q `mod` 10).
Proof.
  intros H10. unfold seconds_toString.
  destruct (Z.eqb_spec (q `mod` 100) 0) as [E|_].
  { exfalso. apply H10. Z.div_mod_to_equations; lia. }
  destruct (Z.eqb_spec ((q `mod` 100) `mod` 10) 0) as [E|_].
  { exfalso. apply H10. Z.div_mod_to_equations; lia. }
  f_equal. f_equal. f_equal; f_equal; Z.div_mod_to_equations; lia.
Qed.

(** C2, as the specification states it, fails: one second is printed
    as "1s". *)
Lemma formatDuration_1000_not_two_decimals :
  ~ (formatDuration (Int 1000) = "1.00s"
     /\ formatDuration (Int 1005) = "1.00s"
     /\ formatDuration (Int 1999) = "1.99s").
Proof.
  intros [H _]. vm_compute in H. discriminate H.
Qed.

(** ** The empty task list *)

(** C9.  On the empty list the constructor computes a label width of
    [-Infinity]; [render] has no row to log and [renderTimeAxis] throws
    RangeError at [" ".repeat(-Infinity)], before anything is logged:
    the console is as it was, no row and no axis line were emitted. *)
Theorem render_empty_list_throws (dim : style) (timelineWidth : Z) (console : list line) :
  labelWidth (new_TimelineRenderer [] timelineWidth) = Infinity true
  /\ render dim (new_TimelineRenderer [] timelineWidth) [] console
     = (console, Throws RangeError).
Proof.
  split; reflexivity.
Qed.

(** ** A timeline of duration zero *)

(** C1 fails on the program.  The division by [totalDuration] is not
    guarded: for one task that starts and ends at the same millisecond
    [msToChars] is [Infinity], the bar bounds and the bar width are NaN
    (not the minimum width), and the row that [render] logs is the gutter
    alone, without a bar. *)
Theorem zero_duration_no_bar (dim : style) :
  let this := new_TimelineRenderer [instant] CONFIG.TIMELINE_WIDTH in
  totalDuration this = Int 0
  /\ msToChars this = S754_infinity false
  /\ getTaskBarBounds this instant = {| b_start := NaN; b_end := NaN |}
  /\ barWidth this instant = NaN
  /\ timeline dim [instant]
     = ([ [Styled gray (text_of_string "a#build  ")];
          axisString dim (spaces 9) (spaces 9) ],
        Returns tt).
Proof.
  repeat split; vm_compute; reflexivity.
Qed.

(** ** A short task at the end of the timeline *)

(** C3 fails on the program.  The task of 10 ms that ends with the
    timeline has a bar from column 99 to column 102, beyond the last
    column 100 of the row: the loop never reaches [i === barEnd], the
    label never becomes pending, and the row ends without "10ms". *)
Theorem late_short_task_has_no_label (dim : style) :
  let this := new_TimelineRenderer [long_task; late_task] CONFIG.TIMELINE_WIDTH in
  totalDuration this = Int 1000
  /\ timeToChars this (F64.of_number (totalDuration this)) = Int 100
  /\ getTaskBarBounds this late_task = {| b_start := Int 99; b_end := Int 102 |}
  /\ formatDuration (Int (endTime late_task - startTime late_task)) = "10ms"
  /\ exists row,
       renderTaskRow dim this late_task (getMarkerPositions this) = Returns row
       /\ occurs (text_of_string "10ms") (visible row) = false
       /\ Forall (fun s => exists c, s = Painted (Bg256 31) c \/ s = Raw [c]
                                  \/ s = Styled dim [c] \/ s = Styled gray (text_of_string "b#test   "))
                 row.
Proof.
  repeat split; try (vm_compute; reflexivity).
  eexists. split; [vm_compute; reflexivity|].
  split; [vm_compute; reflexivity|].
  repeat (apply Forall_cons; split;
          [first [by exists Sep; auto | by exists Nbsp; auto | by exists (Chr " "); auto ]|]).
  apply Forall_nil. trivial.
Qed.

(** ** Array_sort with a comparator that subtracts integer keys *)

Section SortFacts.

Context {A : Type} (compare : A -> A -> number) (key : A -> Z).

(** The elements on which the comparator is the difference of keys. *)
Variable keyed : A -> Prop.
Hypothesis compare_keyed :
  forall x y, keyed x -> keyed y -> compare x y = Int (key x - key y).

Lemma sort_insert_perm x l : sort_insert compare x l ≡ₚ x :: l.
Proof.
  induction l as [|y l IH]; cbn [sort_insert]; [reflexivity|].
  destruct (Num.ltb (Int 0) (compare x y)); [|reflexivity].
  rewrite IH. apply Permutation_swap.
Qed.

Lemma Array_sort_perm l : Array_sort compare l ≡ₚ l.
Proof.
  induction l as [|x l IH]; simpl; [reflexivity|].
  rewrite sort_insert_perm, IH. reflexivity.
Qed.

Lemma Array_sort_keyed l : Forall keyed l -> Forall keyed (Array_sort compare l).
Proof. intros H. rewrite Array_sort_perm. exact H. Qed.

Lemma sort_insert_sorted x l :
  keyed x -> Forall keyed l ->
  StronglySorted (fun a b => key a <= key b) l ->
  StronglySorted (fun a b => key a <= key b) (sort_insert compare x l).
Proof.
  intros Hx Hl Hs. induction Hs as [|y l Hs IH Hy]; cbn [sort_insert].
  - repeat constructor.
  - apply Forall_cons in Hl as [Hky Hl].
    rewrite (compare_keyed x y Hx Hky). cbn [Num.ltb].
    destruct (Z.ltb_spec 0 (key x - key y)) as [Hgt|Hle].
    + constructor; [apply IH; exact Hl|].
      rewrite sort_insert_perm. constructor; [lia | exact Hy].
    + constructor; [constructor; assumption|].
      constructor; [lia|].
      eapply Forall_impl; [exact Hy|]. simpl. intros z Hz. lia.
Qed.

Lemma Array_sort_sorted l :
  Forall keyed l ->
  StronglySorted (fun a b => key a <= key b) (Array_sort compare l).
Proof.
  induction l as [|x l IH]; intros Hl; simpl; [constructor|].
  apply Forall_cons in Hl as [Hx Hl].
  apply sort_insert_sorted; auto using Array_sort_keyed.
Qed.

(** Stability: the elements of one key keep their order. *)
Lemma sort_insert_stable k x l :
  keyed x -> Forall keyed l ->
  filter (fun a => key a = k) (sort_insert compare x l)
  = filter (fun a => key a = k) (x :: l).
Proof.
  intros Hx Hl. induction l as [|y l IH]; cbn [sort_insert]; [reflexivity|].
  apply Forall_cons in Hl as [Hy Hl].
  rewrite (compare_keyed x y Hx Hy). cbn [Num.ltb].
  destruct (Z.ltb_spec 0 (key x - key y)) as [Hgt|Hle]; [|reflexivity].
  rewrite filter_cons, (IH Hl), !filter_cons.
  repeat case_decide; try reflexivity; lia.
Qed.

Lemma Array_sort_stable k l :
  Forall keyed l ->
  filter (fun a => key a = k) (Array_sort compare l)
  = filter (fun a => key a = k) l.
Proof.
  induction l as [|x l IH]; intros Hl; simpl; [reflexivity|].
  apply Forall_cons in Hl as [Hx Hl].
  rewrite sort_insert_stable by auto using Array_sort_keyed.
  rewrite !filter_cons, IH by exact Hl. reflexivity.
Qed.

End SortFacts.

(** ** Packages in the order of their first task *)

Lemma elem_of_Set_values p seen l :
  p ∈ Set_values seen l <-> p ∈ l /\ p ∉ seen.
Proof.
  revert seen. induction l as [|x l IH]; intros seen; simpl.
  - rewrite elem_of_nil. tauto.
  - case_bool_decide as Hx.
    + rewrite IH, elem_of_cons. split; [tauto|].
      intros [[->|H] Hs]; [contradiction | tauto].
    + rewrite !elem_of_cons, IH, !elem_of_cons.
      destruct (decide (p = x)) as [->|Hne]; tauto.
Qed.

Lemma NoDup_Set_values seen l : NoDup (Set_values seen l).
Proof.
  revert seen. induction l as [|x l IH]; intros seen; simpl; [constructor|].
  case_bool_decide; [apply IH|].
  constructor; [|apply IH].
  rewrite elem_of_Set_values, not_elem_of_cons. tauto.
Qed.

Lemma Set_values_snoc seen l x :
  Set_values seen (l ++ [x])
  = Set_values seen l
      ++ (if bool_decide (x ∈ seen \/ x ∈ l) then [] else [x]).
Proof.
  revert seen. induction l as [|y l IH]; intros seen; simpl; [|rewrite !IH];
    repeat case_bool_decide; simpl; rewrite ?app_nil_r;
    try reflexivity; exfalso;
    repeat match goal with
           | H : context [_ ∈ _ :: _] |- _ => rewrite elem_of_cons in H
           | H : context [_ ∈ []] |- _ => rewrite elem_of_nil in H
           end; intuition congruence.
Qed.

Lemma elem_of_uniquePackages p tasks :
  p ∈ uniquePackages tasks <-> exists t, t ∈ tasks /\ package t = p.
Proof.
  unfold uniquePackages. rewrite elem_of_Set_values, list_elem_of_fmap.
  split.
  - intros [(t & -> & Ht) _]. eauto.
  - intros (t & Ht & <-). split; [eauto | apply not_elem_of_nil].
Qed.

(** ** The groups of groupAndSortTasks *)

Lemma tasksOf_absent p tasks :
  (forall t, t ∈ tasks -> package t <> p) -> tasksOf p tasks = [].
Proof.
  unfold tasksOf. induction tasks as [|t tasks IH]; intros H; [reflexivity|].
  rewrite filter_cons_False by (apply H; left).
  apply IH. intros t' Ht'. apply H. right. exact Ht'.
Qed.

Lemma group_push_keyed (F : string -> list SummaryTask) U t :
  NoDup U ->
  (package t ∉ U -> F (package t) = []) ->
  group_push ((fun p => (p, F p)) <$> U) t
  = (fun p => (p, if decide (p = package t) then F p ++ [t] else F p))
      <$> (U ++ if bool_decide (package t ∈ U) then [] else [package t]).
Proof.
  intros Hnd Hfresh. induction Hnd as [|q U Hq Hnd IH].
  - simpl. rewrite decide_True by reflexivity.
    rewrite Hfresh by apply not_elem_of_nil. reflexivity.
  - rewrite fmap_cons. cbn [group_push].
    destruct (String.eqb_spec q (package t)) as [->|Hne].
    + rewrite bool_decide_eq_true_2 by (left; reflexivity).
      rewrite app_nil_r, fmap_cons, decide_True by reflexivity.
      f_equal. apply list_fmap_ext. intros i p Hp. simpl.
      rewrite decide_False; [reflexivity|].
      intros ->. apply Hq. eapply list_elem_of_lookup_2. exact Hp.
    + assert (Hiff : package t ∈ q :: U <-> package t ∈ U).
      { rewrite elem_of_cons. split; [|tauto]. intros [H|H]; [congruence | exact H]. }
      rewrite (bool_decide_ext _ _ Hiff), IH.
      * rewrite <- app_comm_cons, fmap_cons, decide_False by exact Hne.
        reflexivity.
      * intros H. apply Hfresh. rewrite Hiff. exact H.
Qed.

Lemma packageGroups_spec tasks :
  foldl group_push [] tasks
  = (fun p => (p, tasksOf p tasks)) <$> uniquePackages tasks.
Proof.
  induction tasks as [|t tasks IH] using rev_ind; [reflexivity|].
  rewrite foldl_snoc, IH.
  rewrite group_push_keyed.
  - unfold uniquePackages.
    replace (package <$> tasks ++ [t]) with ((package <$> tasks) ++ [package t])
      by (rewrite fmap_app; reflexivity).
    rewrite Set_values_snoc.
    assert (Hiff : package t ∈ Set_values [] (package <$> tasks)
                   <-> (package t ∈ [] \/ package t ∈ package <$> tasks)).
    { rewrite elem_of_Set_values, elem_of_nil. tauto. }
    rewrite (bool_decide_ext _ _ Hiff).
    apply list_fmap_ext. intros i p _. simpl. f_equal.
    unfold tasksOf. rewrite filter_app, filter_cons, filter_nil.
    repeat case_decide; try reflexivity; try congruence.
    rewrite app_nil_r. reflexivity.
  - apply NoDup_Set_values.
  - intros Hp. apply tasksOf_absent. intros t' Ht' Heq.
    apply Hp, elem_of_uniquePackages. eauto.
Qed.

Lemma group_push_tasks m t : group_push m t ≫= snd ≡ₚ (m ≫= snd) ++ [t].
Proof.
  induction m as [|[p g] m IH]; cbn [group_push]; [reflexivity|].
  destruct (String.eqb p (package t)).
  - rewrite !bind_cons. simpl. rewrite <- !app_assoc.
    apply Permutation_app_head, Permutation_app_comm.
  - rewrite !bind_cons, IH, app_assoc. reflexivity.
Qed.

Lemma packageGroups_tasks tasks : foldl group_push [] tasks ≫= snd ≡ₚ tasks.
Proof.
  induction tasks as [|t tasks IH] using rev_ind; [reflexivity|].
  rewrite foldl_snoc, group_push_tasks, IH. reflexivity.
Qed.

Lemma sorted_groups_tasks (m : groups) :
  ((fun '(p, g) => (p, Array_sort byStartTime g)) <$> m) ≫= snd ≡ₚ m ≫= snd.
Proof.
  induction m as [|[p g] m IH]; [reflexivity|].
  rewrite fmap_cons, !bind_cons, IH. simpl.
  rewrite Array_sort_perm. reflexivity.
Qed.

Lemma bind_snd_perm (m m' : groups) : m ≡ₚ m' -> m ≫= snd ≡ₚ m' ≫= snd.
Proof.
  induction 1 as [|x m m' _ IH|x y m|m m' m'' _ IH1 _ IH2].
  - reflexivity.
  - rewrite !bind_cons, IH. reflexivity.
  - rewrite !bind_cons, !app_assoc.
    apply Permutation_app_tail, Permutation_app_comm.
  - rewrite IH1. exact IH2.
Qed.

Lemma groupAndSortTasks_perm tasks : groupAndSortTasks tasks ≡ₚ tasks.
Proof.
  unfold groupAndSortTasks.
  rewrite (bind_snd_perm _ _ (Array_sort_perm byMinStart _)).
  rewrite sorted_groups_tasks. apply packageGroups_tasks.
Qed.

(** ** render logs one row for each task *)

Lemma logRows_returns dim this rows markers console console' :
  logRows dim this rows markers console = (console', Returns tt) ->
  exists lines,
    console' = console ++ lines
    /\ Forall2 (fun task l => renderTaskRow dim this task markers = Returns l)
               rows lines.
Proof.
  revert console. induction rows as [|task rows IH]; intros console; simpl.
  - intros [= <-]. exists []. rewrite app_nil_r. split; [reflexivity | constructor].
  - destruct (renderTaskRow dim this task markers) as [l| |] eqn:Hrow;
      [|discriminate..].
    intros H. apply IH in H as (lines & -> & Hall).
    exists (l :: lines). rewrite <- app_assoc. split; [reflexivity|].
    constructor; assumption.
Qed.

(** ** The order of the display sequence *)

Lemma minStart_cons t g :
  minStart (t :: g) = Num.min2 (Int (startTime t)) (minStart g).
Proof. reflexivity. Qed.

Lemma minStart_spec g :
  g <> [] ->
  exists z, minStart g = Int z
    /\ (exists t, t ∈ g /\ startTime t = z)
    /\ forall t, t ∈ g -> z <= startTime t.
Proof.
  induction g as [|t g IH]; [congruence|]. intros _.
  destruct g as [|t' g].
  - exists (startTime t). split; [reflexivity|]. split.
    + exists t. split; [left | reflexivity].
    + intros u Hu. apply list_elem_of_singleton in Hu as ->. lia.
  - destruct IH as (z & Hz & (u & Hu & Hzu) & Hmin); [congruence|].
    rewrite minStart_cons, Hz. cbn [Num.min2 Num.ltb].
    destruct (Z.ltb_spec z (startTime t)) as [Hlt|Hge].
    + exists z. split; [reflexivity|]. split.
      * exists u. split; [right; exact Hu | exact Hzu].
      * intros v Hv. apply elem_of_cons in Hv as [->|Hv]; [lia | auto].
    + exists (startTime t). split; [reflexivity|]. split.
      * exists t. split; [left | reflexivity].
      * intros v Hv. apply elem_of_cons in Hv as [->|Hv]; [lia|].
        specialize (Hmin v Hv). lia.
Qed.


Lemma groupAndSortTasks_blocks tasks :
  groupAndSortTasks tasks
  = Array_sort byMinStart
      ((fun p => (p, sortedGroup tasks p)) <$> uniquePackages tasks) ≫= snd.
Proof.
  unfold groupAndSortTasks. rewrite packageGroups_spec, <- list_fmap_compose.
  reflexivity.
Qed.

Lemma tasksOf_nonempty tasks p : p ∈ uniquePackages tasks -> tasksOf p tasks <> [].
Proof.
  intros (t & Ht & Hp)%elem_of_uniquePackages Hnil.
  assert (H : t ∈ tasksOf p tasks) by (apply list_elem_of_filter; auto).
  rewrite Hnil in H. apply elem_of_nil in H. exact H.
Qed.






Lemma filter_ext_elem {A} (P Q : A -> Prop)
    `{!forall x, Decision (P x), !forall x, Decision (Q x)} (l : list A) :
  (forall x, x ∈ l -> P x <-> Q x) -> filter P l = filter Q l.
Proof.
  induction l as [|x l IH]; intros HPQ; [reflexivity|].
  rewrite !filter_cons, IH by (intros y Hy; apply HPQ; right; exact Hy).
  destruct (HPQ x ltac:(left)). repeat case_decide; tauto || reflexivity.
Qed.

Lemma filter_bind_blocks (P : SummaryTask -> Prop) `{!forall x, Decision (P x)}
    (gs : groups) :
  filter P (gs ≫= snd) = gs ≫= (fun a => filter P a.2).
Proof.
  induction gs as [|a gs IH]; [reflexivity|].
  rewrite !bind_cons, filter_app, IH. reflexivity.
Qed.

Lemma bind_all_nil {A B} (f : A -> list B) (l : list A) :
  (forall a, a ∈ l -> f a = []) -> l ≫= f = [].
Proof.
  induction l as [|a l IH]; intros Hnil; [reflexivity|].
  rewrite bind_cons, Hnil, IH by (try left; intros; apply Hnil; right; assumption).
  reflexivity.
Qed.

Lemma elem_of_sortedGroup tasks p t :
  t ∈ sortedGroup tasks p <-> package t = p /\ t ∈ tasks.
Proof.
  unfold sortedGroup, tasksOf.
  rewrite (Array_sort_perm byStartTime), list_elem_of_filter. reflexivity.
Qed.

Lemma byStartTime_keyed x y :
  True -> True -> byStartTime x y = Int (startTime x - startTime y).
Proof. intros _ _. reflexivity. Qed.

Lemma sortedGroup_sorted tasks p :
  StronglySorted (fun a b => startTime a <= startTime b) (sortedGroup tasks p).
Proof.
  apply (Array_sort_sorted byStartTime startTime (fun _ => True) byStartTime_keyed).
  apply Forall_forall. trivial.
Qed.


Lemma byMinStart_keyed a b :
  a.2 <> [] -> b.2 <> [] -> byMinStart a b = Int (minStartZ a - minStartZ b).
Proof.
  intros Ha Hb. unfold byMinStart, minStartZ.
  destruct (minStart_spec _ Ha) as (za & -> & _).
  destruct (minStart_spec _ Hb) as (zb & -> & _).
  reflexivity.
Qed.

Lemma sortedGroups_perm tasks :
  sortedGroups tasks ≡ₚ (fun p => (p, sortedGroup tasks p)) <$> uniquePackages tasks.
Proof. apply Array_sort_perm. Qed.

Lemma sortedGroups_keys tasks : (sortedGroups tasks).*1 ≡ₚ uniquePackages tasks.
Proof.
  rewrite sortedGroups_perm, <- list_fmap_compose.
  erewrite list_fmap_ext; [rewrite list_fmap_id; reflexivity|].
  reflexivity.
Qed.

Lemma sortedGroups_elem tasks a :
  a ∈ sortedGroups tasks ->
  a.1 ∈ uniquePackages tasks /\ a.2 = sortedGroup tasks a.1 /\ a.2 <> [].
Proof.
  rewrite sortedGroups_perm. intros (p & -> & Hp)%list_elem_of_fmap. simpl.
  repeat split; [exact Hp|].
  intros Hnil. apply (tasksOf_nonempty tasks p Hp).
  apply Permutation_nil_r. rewrite <- Hnil. symmetry. apply Array_sort_perm.
Qed.

Lemma sortedGroups_NoDup tasks : NoDup (sortedGroups tasks).*1.
Proof. rewrite sortedGroups_keys. apply NoDup_Set_values. Qed.


Lemma sortedGroups_sorted tasks :
  StronglySorted (fun a b => minStartZ a <= minStartZ b) (sortedGroups tasks).
Proof.
  apply (Array_sort_sorted byMinStart minStartZ (fun a => a.2 <> []) byMinStart_keyed).
  apply Forall_forall. intros a Ha.
  assert (H : a ∈ sortedGroups tasks) by (rewrite sortedGroups_perm; exact Ha).
  apply sortedGroups_elem in H. tauto.
Qed.

Lemma Set_values_skip seen l1 l2 :
  Forall (fun x => x ∈ seen) l1 -> Set_values seen (l1 ++ l2) = Set_values seen l2.
Proof.
  induction 1 as [|x l1 Hx _ IH]; [reflexivity|].
  simpl. rewrite bool_decide_eq_true_2 by exact Hx. exact IH.
Qed.

Lemma Set_values_blocks (gs : groups) seen :
  NoDup gs.*1 ->
  (forall a, a ∈ gs ->
     (a.1 ∉ seen) /\ a.2 <> [] /\ forall t, t ∈ a.2 -> package t = (a.1)) ->
  Set_values seen (package <$> gs ≫= snd) = gs.*1.
Proof.
  revert seen. induction gs as [|[p g] gs IH]; intros seen Hnd Hgs; [reflexivity|].
  rewrite fmap_cons in Hnd. apply NoDup_cons in Hnd as [Hp Hnd].
  destruct (Hgs (p, g) ltac:(left)) as (Hseen & Hne & Hpkg). cbn [fst snd] in *.
  destruct g as [|t g]; [congruence|].
  rewrite bind_cons, fmap_app. cbn [snd]. rewrite fmap_cons.
  rewrite (Hpkg t) by left. simpl.
  rewrite bool_decide_eq_false_2 by exact Hseen.
  f_equal. rewrite Set_values_skip.
  - apply IH; [exact Hnd|]. intros a Ha.
    destruct (Hgs a ltac:(right; exact Ha)) as (Hs & Hn & Hk).
    repeat split; try assumption.
    rewrite not_elem_of_cons. split; [|exact Hs].
    intros Heq. apply Hp. rewrite <- Heq. apply list_elem_of_fmap. eauto.
  - apply Forall_forall. intros q (u & -> & Hu)%list_elem_of_fmap.
    rewrite (Hpkg u) by (right; exact Hu). left.
Qed.

Lemma uniquePackages_groupAndSortTasks tasks :
  uniquePackages (groupAndSortTasks tasks) = (sortedGroups tasks).*1.
Proof.
  rewrite groupAndSortTasks_blocks. apply Set_values_blocks.
  - apply sortedGroups_NoDup.
  - intros a (Hp & Ha & Hne)%sortedGroups_elem.
    split; [apply not_elem_of_nil|]. split; [exact Hne|].
    intros t Ht. rewrite Ha in Ht. apply elem_of_sortedGroup in Ht. tauto.
Qed.


Lemma filter_none {A} (P : A -> Prop) `{!forall x, Decision (P x)} (l : list A) :
  (forall x, x ∈ l -> ~ P x) -> filter P l = [].
Proof.
  induction l as [|x l IH]; intros HP; [reflexivity|].
  rewrite filter_cons_False by (apply HP; left).
  apply IH. intros y Hy. apply HP. right. exact Hy.
Qed.

Lemma bind_ext_elem {A B} (f g : A -> list B) (l : list A) :
  (forall a, a ∈ l -> f a = g a) -> l ≫= f = l ≫= g.
Proof.
  induction l as [|a l IH]; intros Hfg; [reflexivity|].
  rewrite !bind_cons, Hfg, IH by (try left; intros; apply Hfg; right; assumption).
  reflexivity.
Qed.

Lemma bind_select (gs : groups) p (R : list SummaryTask) :
  NoDup gs.*1 ->
  gs ≫= (fun a => if decide (a.1 = p) then R else [])
  = if decide (p ∈ gs.*1) then R else [].
Proof.
  induction gs as [|a gs IH]; intros Hnd.
  - rewrite decide_False by apply not_elem_of_nil. reflexivity.
  - rewrite fmap_cons in Hnd. apply NoDup_cons in Hnd as [Ha Hnd].
    rewrite bind_cons, (IH Hnd), fmap_cons.
    destruct (decide (a.1 = p)) as [<-|Hne].
    + rewrite (decide_False (P := a.1 ∈ gs.*1)) by exact Ha.
      rewrite decide_True by left. apply app_nil_r.
    + simpl. apply decide_ext. rewrite elem_of_cons. split; [tauto|].
      intros [H|H]; [congruence | exact H].
Qed.



(** ** Colours and determinism *)

Lemma assign_lookup (f : nat -> color) (l : list string) (m : gmap string color) n i p :
  NoDup l -> l !! i = Some p ->
  foldl (fun acc '(index, pkg) => <[pkg := f index]> acc) m
        (imap (fun k => pair (n + k)%nat) l) !! p
  = Some (f (n + i)%nat).
Proof.
  revert i. induction l as [|q l IH] using rev_ind; intros i Hnd Hi.
  { rewrite lookup_nil in Hi. discriminate. }
  apply NoDup_app in Hnd as (Hnd & Hq & _).
  rewrite imap_app, foldl_app. simpl. rewrite Nat.add_0_r.
  destruct (decide (i < length l)%nat) as [Hlt|Hge].
  - rewrite lookup_app_l in Hi by exact Hlt.
    rewrite lookup_insert_ne.
    + apply IH; assumption.
    + intros ->. apply (Hq p); [|left].
      eapply list_elem_of_lookup_2. exact Hi.
  - rewrite lookup_app_r in Hi by lia.
    destruct (i - length l)%nat as [|k] eqn:Hk; [|rewrite lookup_cons, lookup_nil in Hi; discriminate].
    injection Hi as ->. rewrite lookup_insert_eq. do 2 f_equal. lia.
Qed.

Lemma assignPackageColors_lookup tasks i p :
  uniquePackages tasks !! i = Some p ->
  assignPackageColors tasks !! p
  = Some (Bg256 (colorCodes !!! (i mod length colorCodes)%nat)).
Proof.
  intros Hi. unfold assignPackageColors.
  apply (assign_lookup (fun k => Bg256 (colorCodes !!! (k mod length colorCodes)%nat))
           _ _ 0%nat i p); [apply NoDup_Set_values | exact Hi].
Qed.

Lemma logRows_console dim this rows markers console :
  logRows dim this rows markers console
  = (console ++ (logRows dim this rows markers []).1,
     (logRows dim this rows markers []).2).
Proof.
  revert console. induction rows as [|task rows IH]; intros console; simpl.
  - rewrite app_nil_r. reflexivity.
  - destruct (renderTaskRow dim this task markers) as [l| |]; simpl;
      rewrite ?app_nil_r; try reflexivity.
    rewrite (IH (console ++ [l])), (IH [l]). simpl.
    rewrite <- app_assoc. reflexivity.
Qed.

Lemma render_console dim this tasks console :
  render dim this tasks console
  = (console ++ (render dim this tasks []).1, (render dim this tasks []).2).
Proof.
  unfold render. rewrite (logRows_console _ _ _ _ console).
  destruct (logRows dim this (groupAndSortTasks tasks) (getMarkerPositions this) [])
    as [rows [[]| |]]; simpl; try reflexivity.
  destruct (renderTimeAxis dim this); simpl; rewrite ?app_assoc; reflexivity.
Qed.

(** C8.  What [render] logs is a function of the task list: it does not
    depend on what the console holds, so a second call on the same list
    logs the same lines again.  The colour of a package is the palette
    entry at the rank of the package among the distinct packages, in the
    order of their first task, modulo the palette's length; two task
    lists with the same such order get the same colours. *)
Theorem render_deterministic (dim : style) (tasks : list SummaryTask) :
  (forall timelineWidth console,
     let this := new_TimelineRenderer tasks timelineWidth in
     let out := (render dim this tasks []).1 in
     let result := (render dim this tasks []).2 in
     render dim this tasks console = (console ++ out, result)
     /\ render dim (new_TimelineRenderer tasks timelineWidth) tasks (console ++ out)
        = (console ++ out ++ out, result))
  /\ (forall timelineWidth i p,
        uniquePackages tasks !! i = Some p ->
        packageColors (new_TimelineRenderer tasks timelineWidth) !! p
        = Some (Bg256 (colorCodes !!! (i mod length colorCodes)%nat)))
  /\ (forall tasks' timelineWidth timelineWidth',
        uniquePackages tasks' = uniquePackages tasks ->
        packageColors (new_TimelineRenderer tasks' timelineWidth')
        = packageColors (new_TimelineRenderer tasks timelineWidth)).
Proof.
  repeat split.
  - apply render_console.
  - rewrite render_console, <- app_assoc. reflexivity.
  - intros w i p Hi. apply assignPackageColors_lookup. exact Hi.
  - intros tasks' w w' H. simpl. unfold assignPackageColors. rewrite H. reflexivity.
Qed.

(** ** binary64 rounding, from the definitions of SpecFloat *)

Lemma digits2_pos_size p : digits2_pos p = Pos.size p.
Proof. induction p; simpl; congruence. Qed.

Lemma digits2_pos_bounds p :
  2 ^ (Zpos (digits2_pos p) - 1) <= Zpos p < 2 ^ Zpos (digits2_pos p).
Proof.
  rewrite digits2_pos_size. split.
  - pose proof (Pos.size_le p) as H.
    assert (H' : 2 ^ Zpos (Pos.size p) <= 2 * Zpos p).
    { rewrite <- Pos2Z.inj_pow. change (2 * Zpos p) with (Zpos p~0). apply Pos2Z.pos_le_pos, Pos.size_le. }
    replace (Zpos (Pos.size p)) with (Z.succ (Zpos (Pos.size p) - 1)) in H' by lia.
    rewrite Z.pow_succ_r in H' by lia. lia.
  - rewrite <- Pos2Z.inj_pow. apply Pos2Z.pos_lt_pos, Pos.size_gt.
Qed.

(** A positive integer between two consecutive powers of two has that
    many digits. *)
Lemma digits2_pos_unique p d :
  2 ^ (d - 1) <= Zpos p < 2 ^ d -> Zpos (digits2_pos p) = d.
Proof.
  intros [Hlo Hhi]. pose proof (digits2_pos_bounds p) as [Hlo' Hhi'].
  assert (Hd : 0 < d).
  { destruct (Z.ltb_spec 0 d); [assumption|].
    destruct (Z.eq_dec d 0) as [->|Hne]; [simpl in Hhi; lia|].
    rewrite Z.pow_neg_r in Hhi by lia. lia. }
  destruct (Z.lt_trichotomy (Zpos (digits2_pos p)) d) as [H|[H|H]]; [|exact H|].
  - assert (2 ^ Zpos (digits2_pos p) <= 2 ^ (d - 1)) by (apply Z.pow_le_mono_r; lia). lia.
  - assert (2 ^ d <= 2 ^ (Zpos (digits2_pos p) - 1)) by (apply Z.pow_le_mono_r; lia). lia.
Qed.

Lemma iter_pos_nat {A} (f : A -> A) p x : SpecFloat.iter_pos f p x = Nat.iter (Pos.to_nat p) f x.
Proof.
  revert x. induction p as [p IH|p IH|]; intros x; cbn [SpecFloat.iter_pos].
  - rewrite !IH, Pos2Nat.inj_xI, Nat.iter_succ_r.
    replace (2 * Pos.to_nat p)%nat with (Pos.to_nat p + Pos.to_nat p)%nat by lia.
    rewrite Nat.iter_add. reflexivity.
  - rewrite !IH, Pos2Nat.inj_xO.
    replace (2 * Pos.to_nat p)%nat with (Pos.to_nat p + Pos.to_nat p)%nat by lia.
    rewrite Nat.iter_add. reflexivity.
  - reflexivity.
Qed.

Lemma shr_nat mrs e n :
  0 <= n -> shr mrs e n = (Nat.iter (Z.to_nat n) shr_1 mrs, e + n).
Proof.
  intros Hn. destruct n as [|p|p]; [| |lia].
  - simpl. rewrite Z.add_0_r. reflexivity.
  - unfold shr. rewrite iter_pos_nat. reflexivity.
Qed.

Lemma shr_1_m mrs : 0 <= shr_m mrs -> shr_m (shr_1 mrs) = shr_m mrs / 2.
Proof.
  destruct mrs as [m r s]. simpl. intros Hm.
  destruct m as [|[p|p|]|p]; simpl; try lia; try reflexivity.
  - rewrite Pos2Z.inj_xI. apply (Z.div_unique _ _ _ 1); lia.
  - rewrite Pos2Z.inj_xO. apply (Z.div_unique _ _ _ 0); lia.
Qed.

Lemma shr_iter_m n mrs :
  0 <= shr_m mrs -> shr_m (Nat.iter n shr_1 mrs) = shr_m mrs / 2 ^ Z.of_nat n.
Proof.
  intros Hm. induction n as [|n IH].
  - simpl. rewrite Z.div_1_r. reflexivity.
  - rewrite Nat.iter_succ, shr_1_m, IH.
    + rewrite Z.div_div by lia. f_equal. rewrite Nat2Z.inj_succ, Z.pow_succ_r; lia.
    + rewrite IH. apply Z.div_pos; lia.
Qed.

(** Shifting out zeros is exact. *)
Lemma shr_iter_exact n q :
  0 <= q ->
  Nat.iter n shr_1 {| shr_m := q * 2 ^ Z.of_nat n; shr_r := false; shr_s := false |}
  = {| shr_m := q; shr_r := false; shr_s := false |}.
Proof.
  intros Hq. revert q Hq. induction n as [|n IH]; intros q Hq.
  - simpl. rewrite Z.mul_1_r. reflexivity.
  - rewrite Nat.iter_succ_r.
    replace (q * 2 ^ Z.of_nat (S n)) with (2 * (q * 2 ^ Z.of_nat n))
      by (rewrite Nat2Z.inj_succ, Z.pow_succ_r; lia).
    assert (Hk : 0 <= q * 2 ^ Z.of_nat n) by lia.
    destruct (q * 2 ^ Z.of_nat n) as [|k|k] eqn:E; [| |lia].
    + change (2 * 0) with 0. cbn [shr_1 orb]. rewrite <- E. apply IH. exact Hq.
    + change (2 * Z.pos k) with (Z.pos k~0). cbn [shr_1 orb]. rewrite <- E. apply IH. exact Hq.
Qed.

Lemma round_nearest_even_step m l :
  round_nearest_even m l = m \/ round_nearest_even m l = m + 1.
Proof.
  destruct l as [|[| |]]; simpl; auto. destruct (Z.even m); auto.
Qed.

Lemma fexp_normal x : -1021 <= x -> fexp 53 1024 x = x - 53.
Proof. intros H. unfold fexp, emin. lia. Qed.

Lemma Zdigits2_unique m d : 2 ^ (d - 1) <= m < 2 ^ d -> 0 < m -> Zdigits2 m = d.
Proof.
  intros H Hm. destruct m as [|p|p]; try lia. simpl. apply digits2_pos_unique. exact H.
Qed.

Lemma shr_m_of_loc m l : shr_m (shr_record_of_loc m l) = m.
Proof. destruct l as [|[| |]]; reflexivity. Qed.

Lemma binary_round_aux_normal sx m e l d :
  53 <= d ->
  2 ^ (d - 1) <= m < 2 ^ d ->
  -1021 <= d + e -> d + e <= 1023 ->
  let n := d - 53 in
  let m0 := m / 2 ^ n in
  2 ^ 52 <= m0 < 2 ^ 53
  /\ exists m2 e2,
       binary_round_aux 53 1024 sx m e l = S754_finite sx m2 e2
       /\ 2 ^ 52 <= Zpos m2 < 2 ^ 53
       /\ ((Zpos m2 = m0 /\ e2 = e + n)
           \/ (Zpos m2 = m0 + 1 /\ e2 = e + n)
           \/ (m0 + 1 = 2 ^ 53 /\ Zpos m2 = 2 ^ 52 /\ e2 = e + n + 1)).
Proof.
  intros Hd Hm Hlo Hhi n m0.
  assert (Hn : 0 <= n) by (unfold n; lia).
  assert (Hpn : 0 < 2 ^ n) by (apply Z.pow_pos_nonneg; lia).
  assert (Hmpos : 0 < m).
  { assert (0 < 2 ^ (d - 1)) by (apply Z.pow_pos_nonneg; lia). lia. }
  assert (Hm0 : 2 ^ 52 <= m0 < 2 ^ 53).
  { unfold m0. split.
    - apply Z.div_le_lower_bound; [exact Hpn|].
      rewrite <- Z.pow_add_r by lia. replace (n + 52) with (d - 1) by (unfold n; lia). lia.
    - apply Z.div_lt_upper_bound; [exact Hpn|].
      rewrite <- Z.pow_add_r by lia. replace (n + 53) with d by (unfold n; lia). lia. }
  split; [exact Hm0|].
  unfold binary_round_aux, shr_fexp.
  rewrite (Zdigits2_unique m d Hm Hmpos), fexp_normal by lia.
  replace (d + e - 53 - e) with n by (unfold n; lia).
  rewrite shr_nat by exact Hn.
  set (mrs' := Nat.iter (Z.to_nat n) shr_1 (shr_record_of_loc m l)).
  assert (Hmrs : shr_m mrs' = m0).
  { unfold mrs'. rewrite shr_iter_m, shr_m_of_loc, Z2Nat.id by (rewrite ?shr_m_of_loc; lia).
    reflexivity. }
  rewrite Hmrs.
  set (m1 := round_nearest_even m0 (loc_of_shr_record mrs')).
  assert (Hm1 : m1 = m0 \/ m1 = m0 + 1) by apply round_nearest_even_step.
  destruct (Z.ltb_spec m1 (2 ^ 53)) as [Hlt|Hge].
  - (* the rounded mantissa still has 53 digits *)
    assert (Hdig : Zdigits2 m1 = 53) by (apply Zdigits2_unique; lia).
    rewrite Hdig, fexp_normal by (unfold n; lia).
    replace (53 + (e + n) - 53 - (e + n)) with 0 by lia.
    cbn [shr shr_record_of_loc shr_m].
    destruct m1 as [|p|p] eqn:E; [lia| |lia].
    assert (Hle : (e + n <=? 1024 - 53) = true) by (apply Z.leb_le; unfold n; lia).
    rewrite Hle. exists p, (e + n). split; [reflexivity|]. split; [lia|].
    destruct Hm1 as [H|H]; [left | right; left]; split; lia || reflexivity.
  - (* rounding carried into a 54th digit *)
    assert (Hm1' : m1 = 2 ^ 53) by lia.
    rewrite Hm1'.
    assert (Hdig : Zdigits2 (2 ^ 53) = 54) by reflexivity.
    rewrite Hdig, fexp_normal by (unfold n; lia).
    replace (54 + (e + n) - 53 - (e + n)) with 1 by lia.
    change (shr (shr_record_of_loc (2 ^ 53) loc_Exact) (e + n) 1)
      with ({| shr_m := Z.pos 4503599627370496; shr_r := false; shr_s := false |},
            e + n + 1).
    cbn [shr_m].
    assert (Hle : (e + n + 1 <=? 1024 - 53) = true) by (apply Z.leb_le; unfold n; lia).
    rewrite Hle. eexists _, (e + n + 1). split; [reflexivity|]. split; [lia|].
    right; right. split; [lia|]. split; reflexivity.
Qed.

(** Rounding a mantissa whose discarded digits are zeros is exact. *)
Lemma binary_round_aux_exact sx q e n :
  2 ^ 52 <= q < 2 ^ 53 -> 0 <= n ->
  -1021 <= 53 + n + e -> 53 + n + e <= 1023 ->
  binary_round_aux 53 1024 sx (q * 2 ^ n) e loc_Exact
  = S754_finite sx (Z.to_pos q) (e + n).
Proof.
  intros Hq Hn Hlo Hhi.
  assert (Hpn : 0 < 2 ^ n) by (apply Z.pow_pos_nonneg; lia).
  assert (Hm : 2 ^ (53 + n - 1) <= q * 2 ^ n < 2 ^ (53 + n)).
  { replace (53 + n - 1) with (52 + n) by lia. rewrite !Z.pow_add_r by lia. nia. }
  unfold binary_round_aux, shr_fexp.
  rewrite (Zdigits2_unique (q * 2 ^ n) (53 + n)), fexp_normal by (try exact Hm; nia).
  replace (53 + n + e - 53 - e) with n by lia.
  rewrite shr_nat by exact Hn. cbn [shr_record_of_loc].
  replace (q * 2 ^ n) with (q * 2 ^ Z.of_nat (Z.to_nat n))
    by (rewrite Z2Nat.id by exact Hn; reflexivity).
  rewrite shr_iter_exact by lia.
  cbn [shr_m loc_of_shr_record round_nearest_even shr_record_of_loc].
  rewrite (Zdigits2_unique q 53), fexp_normal by lia.
  replace (53 + (e + n) - 53 - (e + n)) with 0 by lia.
  cbn [shr shr_m].
  destruct q as [|p|p]; [lia| |lia].
  replace (e + n <=? 1024 - 53) with true by (symmetry; apply Z.leb_le; lia).
  reflexivity.
Qed.

Lemma Pos_iter_xO p k : Zpos (Pos.iter xO p k) = Zpos p * 2 ^ Zpos k.
Proof.
  induction k as [|k IH] using Pos.peano_ind.
  - simpl. lia.
  - rewrite Pos.iter_succ, Pos2Z.inj_xO, IH, Pos2Z.inj_succ, Z.pow_succ_r by lia. lia.
Qed.

(** The binary64 of a non-zero integer of at most 53 digits: the
    integer itself, its mantissa shifted to 53 digits. *)
Lemma binary_round_integer sx p :
  Zpos p < 2 ^ 53 ->
  let d := Zpos (digits2_pos p) in
  binary_round 53 1024 sx p 0
  = S754_finite sx (Z.to_pos (Zpos p * 2 ^ (53 - d))) (d - 53)
    /\ 2 ^ 52 <= Zpos p * 2 ^ (53 - d) < 2 ^ 53
    /\ 1 <= d <= 53.
Proof.
  intros Hp d.
  pose proof (digits2_pos_bounds p) as [Hlo Hhi]. fold d in Hlo, Hhi.
  assert (Hd : 1 <= d <= 53).
  { split; [unfold d; lia|].
    destruct (Z.leb_spec d 53); [assumption|].
    assert (2 ^ 53 <= 2 ^ (d - 1)) by (apply Z.pow_le_mono_r; lia). lia. }
  assert (Hq : 2 ^ 52 <= Zpos p * 2 ^ (53 - d) < 2 ^ 53).
  { assert (0 < 2 ^ (53 - d)) by (apply Z.pow_pos_nonneg; lia).
    replace (2 ^ 52) with (2 ^ (d - 1) * 2 ^ (53 - d))
      by (rewrite <- Z.pow_add_r by lia; f_equal; lia).
    replace (2 ^ 53) with (2 ^ d * 2 ^ (53 - d))
      by (rewrite <- Z.pow_add_r by lia; f_equal; lia).
    nia. }
  split; [|split; assumption].
  unfold binary_round. fold d. rewrite Z.add_0_r, fexp_normal by lia.
  unfold shl_align. rewrite Z.sub_0_r.
  destruct (d - 53) as [|k|k] eqn:Hk; [| lia |].
  - assert (Hd53 : d = 53) by lia. rewrite Hd53 in *. simpl (2 ^ (53 - 53)) in *.
    rewrite Z.mul_1_r in *.
    pose proof (binary_round_aux_exact sx (Zpos p) 0 0 Hq) as H.
    rewrite Z.mul_1_r, Z.add_0_r in H. apply H; lia.
  - assert (Hk' : 53 - d = Zpos k) by lia.
    rewrite Pos_iter_xO, Hk'.
    pose proof (binary_round_aux_exact sx (Zpos p * 2 ^ Zpos k) (Zneg k) 0) as H.
    rewrite Z.mul_1_r, Z.add_0_r in H. rewrite <- Hk' in *. apply H; lia.
Qed.

(** ** The real value of a binary64 *)

Lemma pow2_pos e : (0 < pow2 e)%R.
Proof. apply powerRZ_lt. lra. Qed.

Lemma pow2_add a b : pow2 (a + b) = (pow2 a * pow2 b)%R.
Proof. apply powerRZ_add. lra. Qed.

Lemma pow2_IZR n : 0 <= n -> pow2 n = IZR (2 ^ n).
Proof.
  intros Hn. unfold pow2. rewrite <- (Z2Nat.id n) by exact Hn.
  rewrite <- pow_powerRZ, <- pow_IZR. reflexivity.
Qed.

Lemma big_mantissa m0 : 2 ^ 52 <= m0 -> (1000 * (IZR m0 + 1) <= 1001 * IZR m0)%R.
Proof.
  intros H. apply IZR_le in H.
  assert (IZR (2 ^ 52) = 4503599627370496%R) by reflexivity. lra.
Qed.

(** What [binary_round_aux] returns is close to every real that lies
    between the mantissa it is given and the next one. *)
Lemma binary_round_aux_close m e l d t :
  53 <= d ->
  2 ^ (d - 1) <= m < 2 ^ d ->
  -1021 <= d + e -> d + e <= 1023 ->
  (IZR m * pow2 e <= t <= (IZR m + 1) * pow2 e)%R ->
  exists m2 e2,
    binary_round_aux 53 1024 false m e l = S754_finite false m2 e2
    /\ 2 ^ 52 <= Zpos m2 < 2 ^ 53
    /\ e + (d - 53) <= e2 <= e + (d - 53) + 1
    /\ close (IZR (Zpos m2) * pow2 e2) t.
Proof.
  intros Hd Hm Hlo Hhi Ht.
  destruct (binary_round_aux_normal false m e l d Hd Hm Hlo Hhi)
    as (Hm0 & m2 & e2 & Heq & Hm2 & Hcase).
  set (n := d - 53) in *. set (m0 := m / 2 ^ n) in *.
  assert (Hn : 0 <= n) by (unfold n; lia).
  assert (Hpn : 0 < 2 ^ n) by (apply Z.pow_pos_nonneg; lia).
  exists m2, e2. split; [exact Heq|]. split; [exact Hm2|].
  split; [destruct Hcase as [[_ ->]|[[_ ->]|(_ & _ & ->)]]; lia|].
  (* the bracket [lo, hi] that holds both the result and [t] *)
  set (lo := (IZR m0 * pow2 (e + n))%R).
  set (hi := ((IZR m0 + 1) * pow2 (e + n))%R).
  pose proof (pow2_pos (e + n)) as Hp.
  pose proof (pow2_pos e) as Hpe.
  assert (Hm0pos : (0 < IZR m0)%R) by (apply IZR_lt; lia).
  assert (Hlopos : (0 < lo)%R) by (apply Rmult_lt_0_compat; assumption).
  assert (Hhilo : (1000 * hi <= 1001 * lo)%R).
  { unfold hi, lo. pose proof (big_mantissa m0 (proj1 Hm0)). nra. }
  assert (Hlohi : (lo <= hi)%R) by (unfold lo, hi; nra).
  assert (Hdiv : m0 * 2 ^ n <= m /\ m + 1 <= (m0 + 1) * 2 ^ n).
  { unfold m0. pose proof (Z.mul_div_le m (2 ^ n) Hpn).
    pose proof (Z.mod_pos_bound m (2 ^ n) Hpn).
    pose proof (Z.div_mod m (2 ^ n)). nia. }
  assert (Ht' : (lo <= t <= hi)%R).
  { unfold lo, hi. rewrite pow2_add, (pow2_IZR n Hn).
    destruct Hdiv as [H1 H2]. apply IZR_le in H1, H2.
    rewrite mult_IZR in H1. rewrite plus_IZR, mult_IZR, plus_IZR in H2.
    set (P := IZR (2 ^ n)) in *. set (M0 := IZR m0) in *. set (M := IZR m) in *.
    set (E := pow2 e) in *. simpl in H2.
    split.
    - apply Rle_trans with (M * E)%R; [|tauto]. nra.
    - apply Rle_trans with ((M + 1) * E)%R; [tauto|]. nra. }
  assert (Hv : (IZR (Zpos m2) * pow2 e2 = lo \/ IZR (Zpos m2) * pow2 e2 = hi)%R).
  { destruct Hcase as [[-> ->]|[[-> ->]|(H53 & -> & ->)]].
    - left. reflexivity.
    - right. unfold hi. rewrite plus_IZR. reflexivity.
    - right. unfold hi. rewrite pow2_add.
      replace (IZR m0 + 1)%R with (IZR (2 ^ 53)) by (rewrite <- H53, plus_IZR; reflexivity).
      replace (pow2 1) with 2%R by (unfold pow2; simpl; lra).
      replace (IZR (2 ^ 53)) with (IZR (2 ^ 52) * 2)%R by (rewrite <- mult_IZR; reflexivity).
      ring. }
  unfold close. destruct Hv as [-> | ->]; repeat split; lra.
Qed.

Lemma nice_pos x E : nice x E -> (0 < val x)%R.
Proof.
  intros (m & e & -> & Hm & _). simpl.
  apply Rmult_lt_0_compat; [apply IZR_lt; lia | apply pow2_pos].
Qed.

Lemma nice_weaken x E E' : nice x E -> E <= E' -> nice x E'.
Proof. intros (m & e & -> & Hm & He) H. exists m, e. repeat split; lia. Qed.

Lemma mul_close x y E1 E2 :
  nice x E1 -> nice y E2 -> E1 + E2 <= 900 ->
  nice (F64.mul x y) (E1 + E2 + 54)
  /\ close (val (F64.mul x y)) (val x * val y).
Proof.
  intros (mx & ex & -> & Hmx & Hex) (my & ey & -> & Hmy & Hey) HE.
  unfold F64.mul, F64.prec, F64.emax. cbn [SFmul xorb].
  set (m := Zpos (mx * my)).
  assert (Hm : 2 ^ 104 <= m < 2 ^ 106).
  { unfold m. rewrite Pos2Z.inj_mul.
    change (2 ^ 104) with (2 ^ 52 * 2 ^ 52). change (2 ^ 106) with (2 ^ 53 * 2 ^ 53). nia. }
  assert (Ht : (IZR m * pow2 (ex + ey) <= val (S754_finite false mx ex) * val (S754_finite false my ey)
                <= (IZR m + 1) * pow2 (ex + ey))%R).
  { cbn [val cond_Zopp]. unfold m. rewrite Pos2Z.inj_mul, mult_IZR, pow2_add.
    pose proof (pow2_pos ex). pose proof (pow2_pos ey).
    assert (0 < IZR (Zpos mx))%R by (apply IZR_lt; lia).
    assert (0 < IZR (Zpos my))%R by (apply IZR_lt; lia).
    split; nra. }
  destruct (Z.ltb_spec m (2 ^ 105)) as [Hlt|Hge].
  - destruct (binary_round_aux_close m (ex + ey) loc_Exact 105 _ ltac:(lia) ltac:(lia)
                ltac:(lia) ltac:(lia) Ht) as (m2 & e2 & -> & Hm2 & He2 & Hc).
    split; [|exact Hc]. exists m2, e2. repeat split; lia.
  - destruct (binary_round_aux_close m (ex + ey) loc_Exact 106 _ ltac:(lia) ltac:(lia)
                ltac:(lia) ltac:(lia) Ht) as (m2 & e2 & -> & Hm2 & He2 & Hc).
    split; [|exact Hc]. exists m2, e2. repeat split; lia.
Qed.

Lemma div_close x y E1 E2 :
  nice x E1 -> nice y E2 -> E1 + E2 <= 900 ->
  nice (F64.div x y) (E1 + E2 + 54)
  /\ close (val (F64.div x y)) (val x / val y).
Proof.
  intros (mx & ex & -> & Hmx & Hex) (my & ey & -> & Hmy & Hey) HE.
  unfold F64.div, F64.prec, F64.emax. cbn [SFdiv xorb].
  unfold SFdiv_core_binary.
  rewrite (Zdigits2_unique (Zpos mx) 53), (Zdigits2_unique (Zpos my) 53) by lia.
  replace (53 + ex - (53 + ey)) with (ex - ey) by lia.
  rewrite fexp_normal by lia.
  replace (Z.min (ex - ey - 53) (ex - ey)) with (ex - ey - 53) by lia.
  replace (ex - ey - (ex - ey - 53)) with 53 by lia.
  cbv iota. rewrite Z.shiftl_mul_pow2 by lia.
  pose proof (Z_div_mod (Zpos mx * 2 ^ 53) (Zpos my) ltac:(lia)) as Hdm.
  destruct (Z.div_eucl (Zpos mx * 2 ^ 53) (Zpos my)) as [q r].
  destruct Hdm as [Hdm Hr].
  assert (Hq : 2 ^ 52 <= q < 2 ^ 54).
  { change (2 ^ 54) with (2 * 2 ^ 53). nia. }
  assert (Ht : (IZR q * pow2 (ex - ey - 53)
                <= val (S754_finite false mx ex) / val (S754_finite false my ey)
                <= (IZR q + 1) * pow2 (ex - ey - 53))%R).
  { cbn [val cond_Zopp].
    pose proof (pow2_pos ex) as HA. pose proof (pow2_pos ey) as HB.
    pose proof (pow2_pos (ex - ey - 53)) as HC.
    assert (HABC : (pow2 ex = pow2 (ex - ey - 53) * IZR (2 ^ 53) * pow2 ey)%R).
    { rewrite <- pow2_IZR, <- !pow2_add by lia. f_equal. lia. }
    assert (HX : (0 < IZR (Zpos mx))%R) by (apply IZR_lt; lia).
    assert (HY : (0 < IZR (Zpos my))%R) by (apply IZR_lt; lia).
    assert (Hdm' : (IZR (Zpos mx) * IZR (2 ^ 53) = IZR (Zpos my) * IZR q + IZR r)%R).
    { rewrite <- !mult_IZR, <- plus_IZR. f_equal. exact Hdm. }
    assert (Hr0 : (0 <= IZR r)%R) by (apply IZR_le; lia).
    assert (Hr1 : (IZR r + 1 <= IZR (Zpos my))%R).
    { rewrite <- plus_IZR. apply IZR_le. lia. }
    set (X := IZR (Zpos mx)) in *. set (Y := IZR (Zpos my)) in *.
    set (A := pow2 ex) in *. set (B := pow2 ey) in *. set (C := pow2 (ex - ey - 53)) in *.
    set (P := IZR (2 ^ 53)) in *. set (Q := IZR q) in *. set (Rr := IZR r) in *.
    assert (Hyb : (0 < Y * B)%R) by nra.
    replace (X * A / (Y * B))%R with (X * P * C / Y)%R
      by (rewrite HABC; field; split; lra).
    split.
    - apply Rmult_le_reg_r with Y; [exact HY|].
      replace (X * P * C / Y * Y)%R with (X * P * C)%R by (field; lra).
      rewrite Hdm'. nra.
    - apply Rmult_le_reg_r with Y; [exact HY|].
      replace (X * P * C / Y * Y)%R with (X * P * C)%R by (field; lra).
      rewrite Hdm'. nra. }
  destruct (Z.ltb_spec q (2 ^ 53)) as [Hlt|Hge].
  - destruct (binary_round_aux_close q (ex - ey - 53) (new_location (Zpos my) r) 53 _
                ltac:(lia) ltac:(lia) ltac:(lia) ltac:(lia) Ht)
      as (m2 & e2 & -> & Hm2 & He2 & Hc).
    split; [|exact Hc]. exists m2, e2. repeat split; lia.
  - destruct (binary_round_aux_close q (ex - ey - 53) (new_location (Zpos my) r) 54 _
                ltac:(lia) ltac:(lia) ltac:(lia) ltac:(lia) Ht)
      as (m2 & e2 & -> & Hm2 & He2 & Hc).
    split; [|exact Hc]. exists m2, e2. repeat split; lia.
Qed.

Lemma of_Z_pos z :
  0 < z < 2 ^ 53 -> nice (F64.of_Z z) 53 /\ val (F64.of_Z z) = IZR z.
Proof.
  intros Hz. destruct z as [|p|p]; try lia.
  unfold F64.of_Z, F64.prec, F64.emax. cbn [binary_normalize].
  destruct (binary_round_integer false p ltac:(lia)) as (-> & Hq & Hd).
  set (d := Zpos (digits2_pos p)) in *.
  split.
  - eexists _, _. split; [reflexivity|]. rewrite Z2Pos.id by lia. split; [exact Hq | lia].
  - cbn [val cond_Zopp]. rewrite Z2Pos.id by lia.
    rewrite mult_IZR, <- pow2_IZR by lia. rewrite Rmult_assoc, <- pow2_add.
    replace (53 - d + (d - 53)) with 0 by lia. unfold pow2. simpl. lra.
Qed.

(** The binary64 of an integer of at most 53 digits is zero or finite,
    with the sign of the integer. *)
Lemma of_Z_finite z :
  - 2 ^ 53 < z < 2 ^ 53 ->
  (z = 0 /\ F64.of_Z z = S754_zero false)
  \/ exists m e, F64.of_Z z = S754_finite (z <? 0) m e
                 /\ 2 ^ 52 <= Zpos m < 2 ^ 53 /\ -53 <= e <= 0.
Proof.
  intros Hz. destruct z as [|p|p].
  - left. split; reflexivity.
  - right. unfold F64.of_Z, F64.prec, F64.emax. cbn [binary_normalize].
    destruct (binary_round_integer false p ltac:(lia)) as (-> & Hq & Hd).
    eexists _, _. split; [reflexivity|]. rewrite Z2Pos.id by lia. lia.
  - right. unfold F64.of_Z, F64.prec, F64.emax. cbn [binary_normalize].
    destruct (binary_round_integer true p ltac:(lia)) as (-> & Hq & Hd).
    eexists _, _. split; [reflexivity|]. rewrite Z2Pos.id by lia. lia.
Qed.

Lemma mul_one x E : nice x E -> E <= 900 -> F64.mul one x = x.
Proof.
  intros (m & e & -> & Hm & He) HE.
  unfold F64.mul, F64.prec, F64.emax, one. cbn [SFmul xorb].
  rewrite Pos2Z.inj_mul, Z.mul_comm.
  change (Zpos 4503599627370496) with (2 ^ 52).
  rewrite (binary_round_aux_exact false (Zpos m) (-52 + e) 52) by lia.
  f_equal. lia.
Qed.

(** [Math.floor] of a finite binary64: the integer below its value. *)
Lemma Math_floor_finite s m e :
  exists z, F64.Math_floor (S754_finite s m e) = Int z
            /\ (IZR z <= val (S754_finite s m e) < IZR z + 1)%R.
Proof.
  eexists. split; [reflexivity|]. cbn [val].
  set (M := cond_Zopp s (Zpos m)).
  destruct (Z.leb_spec 0 e) as [He|He].
  - rewrite Z.shiftl_mul_pow2 by exact He.
    rewrite mult_IZR, <- pow2_IZR by exact He. lra.
  - rewrite Z.shiftl_div_pow2 by lia.
    assert (Hp : 0 < 2 ^ (- e)) by (apply Z.pow_pos_nonneg; lia).
    pose proof (Z.div_mod M (2 ^ (- e)) ltac:(lia)) as Hdm.
    pose proof (Z.mod_pos_bound M (2 ^ (- e)) Hp) as Hr.
    set (q := M / 2 ^ (- e)) in *. set (r := M mod 2 ^ (- e)) in *.
    assert (HP : (pow2 e * IZR (2 ^ (- e)) = 1)%R).
    { rewrite <- pow2_IZR, <- pow2_add by lia. replace (e + - e) with 0 by lia. reflexivity. }
    pose proof (pow2_pos e) as HE.
    assert (HM : (IZR M = IZR (2 ^ (- e)) * IZR q + IZR r)%R).
    { rewrite <- mult_IZR, <- plus_IZR. f_equal. exact Hdm. }
    assert (Hr0 : (0 <= IZR r)%R) by (apply IZR_le; lia).
    assert (Hr1 : (IZR r + 1 <= IZR (2 ^ (- e)))%R).
    { rewrite <- plus_IZR. apply IZR_le. lia. }
    assert (HPpos : (0 < IZR (2 ^ (- e)))%R) by (apply IZR_lt; exact Hp).
    rewrite HM.
    set (P := IZR (2 ^ (- e))) in *. set (Q := IZR q) in *. set (Rr := IZR r) in *.
    set (Ee := pow2 e) in *.
    replace ((P * Q + Rr) * Ee)%R with (Q * (Ee * P) + Rr * Ee)%R by ring.
    rewrite HP.
    assert (0 <= Rr * Ee)%R by nra.
    assert (Rr * Ee < Ee * P)%R by nra.
    lra.
Qed.

Lemma Math_floor_between x E lo hi :
  nice x E -> (IZR lo <= val x < IZR hi + 1)%R ->
  exists z, F64.Math_floor x = Int z /\ lo <= z <= hi.
Proof.
  intros (m & e & -> & _) Hv.
  destruct (Math_floor_finite false m e) as (z & Hz & Hzv).
  exists z. split; [exact Hz|].
  split.
  - apply Z.lt_succ_r, lt_IZR. rewrite succ_IZR. lra.
  - apply Z.lt_succ_r, lt_IZR. rewrite succ_IZR. lra.
Qed.

(** ** The floor of a tenth *)

(** A mantissa of 54 digits whose last digit is zero is rounded down,
    whatever lies behind it. *)
Lemma binary_round_aux_even sx m e l :
  2 ^ 53 <= m < 2 ^ 54 -> Z.even m = true ->
  -1021 <= 54 + e -> 54 + e <= 1023 ->
  binary_round_aux 53 1024 sx m e l = S754_finite sx (Z.to_pos (m / 2)) (e + 1).
Proof.
  intros Hm Hev Hlo Hhi.
  unfold binary_round_aux, shr_fexp.
  rewrite (Zdigits2_unique m 54), fexp_normal by lia.
  replace (54 + e - 53 - e) with 1 by lia.
  destruct m as [|[p|p|]|p]; try lia; try discriminate Hev.
  replace (Z.pos p~0 / 2) with (Z.pos p) by (rewrite Pos2Z.inj_xO, Z.mul_comm, Z.div_mul; lia).
  assert (Hp : 2 ^ 52 <= Z.pos p < 2 ^ 53) by lia.
  assert (Hround : forall s,
            round_nearest_even (Z.pos p)
              (loc_of_shr_record {| shr_m := Z.pos p; shr_r := false; shr_s := s |})
            = Z.pos p).
  { intros []; reflexivity. }
  assert (Hshr : exists s, shr (shr_record_of_loc (Z.pos p~0) l) e 1
                 = ({| shr_m := Z.pos p; shr_r := false; shr_s := s |}, e + 1)).
  { destruct l as [|[| |]]; eexists; reflexivity. }
  destruct Hshr as (s & ->). cbn [shr_m]. rewrite Hround.
  rewrite (Zdigits2_unique (Z.pos p) 53), fexp_normal by lia.
  replace (53 + (e + 1) - 53 - (e + 1)) with 0 by lia.
  cbn [shr shr_record_of_loc shr_m].
  replace (e + 1 <=? 1024 - 53) with true by (symmetry; apply Z.leb_le; lia).
  reflexivity.
Qed.

(** The tenth of [z], scaled by [K] and cut to an integer, lies in the
    [K] steps of [z / 10]; so does the step above it if [K] is 11 at
    least, or 6 at least where [z] does not end in 9. *)
Lemma tenth_scaled z K :
  0 <= z -> 1 <= K ->
  (z * K / 10) / K = z / 10
  /\ (11 <= K \/ (6 <= K /\ z mod 10 <= 8) -> (z * K / 10 + 1) / K = z / 10).
Proof.
  intros Hz HK.
  pose proof (Z.div_mod z 10 ltac:(lia)) as Hdm.
  pose proof (Z.mod_pos_bound z 10 ltac:(lia)) as Ht.
  set (h := z / 10) in *. set (t := z mod 10) in *.
  pose proof (Z.div_mod (t * K) 10 ltac:(lia)) as Hs.
  pose proof (Z.mod_pos_bound (t * K) 10 ltac:(lia)) as Hs'.
  set (s := t * K / 10) in *.
  assert (Hq : z * K / 10 = h * K + s).
  { symmetry. apply (Z.div_unique _ _ _ ((t * K) mod 10)); [lia|]. rewrite Hdm. lia. }
  rewrite Hq.
  assert (Hsb : 0 <= s < K) by nia.
  split.
  - symmetry. apply (Z.div_unique _ _ _ s); lia.
  - intros Hcase. assert (Hsb' : s + 1 < K) by nia.
    symmetry. apply (Z.div_unique _ _ _ (s + 1)); lia.
Qed.

(** [Math.floor(ms / 10)] of an integer below 2^53 is the integer
    quotient: the binary64 quotient is never rounded up to the next
    integer. *)
Lemma floor_tenth z :
  0 <= z < 2 ^ 53 ->
  F64.Math_floor (F64.div (F64.of_Z z) (F64.of_Z 10)) = Int (z / 10).
Proof.
  intros Hz. destruct z as [|p|p]; [reflexivity| |lia].
  unfold F64.of_Z at 1. unfold F64.prec, F64.emax. cbn [binary_normalize].
  destruct (binary_round_integer false p ltac:(lia)) as (-> & Hq & Hd).
  set (d := Zpos (digits2_pos p)) in *.
  change (F64.of_Z 10) with (S754_finite false 5629499534213120 (-49)).
  unfold F64.div, F64.prec, F64.emax. cbn [SFdiv xorb].
  unfold SFdiv_core_binary.
  rewrite Z2Pos.id by lia.
  rewrite (Zdigits2_unique (Z.pos p * 2 ^ (53 - d)) 53) by lia.
  change (Zdigits2 5629499534213120) with 53.
  replace (53 + (d - 53) - (53 + -49)) with (d - 4) by lia.
  rewrite fexp_normal by lia.
  replace (Z.min (d - 4 - 53) (d - 53 - -49)) with (d - 57) by lia.
  replace (d - 53 - -49 - (d - 57)) with 53 by lia.
  cbv iota. rewrite Z.shiftl_mul_pow2 by lia.
  set (z := Z.pos p) in *.
  set (K := 2 ^ (57 - d)).
  assert (HK : 16 <= K).
  { change 16 with (2 ^ 4). apply Z.pow_le_mono_r; lia. }
  assert (Hscale : z * 2 ^ (53 - d) * 2 ^ 53 = z * K * 2 ^ 49).
  { unfold K. rewrite <- !Z.mul_assoc, <- !Z.pow_add_r by lia. do 2 f_equal. lia. }
  rewrite Hscale.
  pose proof (Z_div_mod (z * K * 2 ^ 49) 5629499534213120 ltac:(lia)) as Hdm.
  destruct (Z.div_eucl (z * K * 2 ^ 49) 5629499534213120) as [q r].
  destruct Hdm as [Hdm Hr].
  assert (Hqv : q = z * K / 10).
  { change 5629499534213120 with (10 * 2 ^ 49) in Hdm, Hr.
    rewrite <- (Z.div_mul_cancel_r (z * K) 10 (2 ^ 49)) by lia.
    apply (Z.div_unique _ _ _ r); lia. }
  assert (HK' : K = 16 * 2 ^ (53 - d)).
  { unfold K. change 16 with (2 ^ 4). rewrite <- Z.pow_add_r by lia. f_equal. lia. }
  assert (HzK : 2 ^ 56 <= z * K < 2 ^ 57).
  { change (2 ^ 56) with (16 * 2 ^ 52). change (2 ^ 57) with (16 * 2 ^ 53). lia. }
  assert (Hqr : 2 ^ 52 <= q < 2 ^ 54).
  { rewrite Hqv. split.
    - apply Z.div_le_lower_bound; lia.
    - apply Z.div_lt_upper_bound; lia. }
  destruct (tenth_scaled z K ltac:(lia) ltac:(lia)) as [Hdown Hup].
  specialize (Hup ltac:(lia)).
  rewrite <- Hqv in Hdown, Hup.
  clear Hdm Hr Hscale.
  destruct (Z.ltb_spec q (2 ^ 53)) as [Hlt|Hge].
  - destruct (binary_round_aux_normal false q (d - 57) (new_location 5629499534213120 r) 53
                ltac:(lia) ltac:(lia) ltac:(lia) ltac:(lia))
      as (_ & m2 & e2 & -> & Hm2 & Halt).
    replace (q / 2 ^ (53 - 53)) with q in Halt by (change (2 ^ (53 - 53)) with 1; rewrite Z.div_1_r; reflexivity).
    cbn [F64.Math_floor cond_Zopp]. f_equal.
    destruct Halt as [[-> ->]|[[-> ->]|(Hc & -> & ->)]].
    + rewrite Z.shiftl_div_pow2 by lia.
      replace (- (d - 57 + (53 - 53))) with (57 - d) by lia. exact Hdown.
    + rewrite Z.shiftl_div_pow2 by lia.
      replace (- (d - 57 + (53 - 53))) with (57 - d) by lia. exact Hup.
    + rewrite Z.shiftl_div_pow2 by lia.
      replace (- (d - 57 + (53 - 53) + 1)) with (56 - d) by lia.
      rewrite <- Hup, Hc.
      assert (HK2 : K = 2 * 2 ^ (56 - d)).
      { unfold K. rewrite <- Z.pow_succ_r by lia. f_equal. lia. }
      rewrite HK2. change (2 ^ 53) with (2 * 2 ^ 52).
      rewrite Z.div_mul_cancel_l by lia. reflexivity.
  - (* the quotient has 54 digits and is shifted once *)
    set (H := 2 ^ (56 - d)).
    assert (HK2 : K = 2 * H).
    { unfold K, H. rewrite <- Z.pow_succ_r by lia. f_equal. lia. }
    assert (HH : 8 <= H) by lia.
    assert (Hhalf : q / 2 = z * H / 10).
    { rewrite Hqv, HK2, Z.div_div by lia.
      replace (z * (2 * H)) with (z * H * 2) by lia.
      rewrite Z.div_mul_cancel_r by lia. reflexivity. }
    destruct (tenth_scaled z H ltac:(lia) ltac:(lia)) as [Hdown' Hup'].
    rewrite <- Hhalf in Hdown', Hup'.
    destruct (Z.even q) eqn:Heven.
    + rewrite (binary_round_aux_even false q (d - 57)) by (assumption || lia).
      cbn [F64.Math_floor cond_Zopp]. f_equal.
      rewrite Z2Pos.id by (apply Z.div_str_pos; lia).
      rewrite Z.shiftl_div_pow2 by lia.
      replace (- (d - 57 + 1)) with (56 - d) by lia. exact Hdown'.
    + assert (Hcase : 11 <= H \/ 6 <= H /\ z mod 10 <= 8).
      { destruct (Z.eq_dec d 53) as [Hd53|Hd53].
        - right. split; [lia|].
          pose proof (Z.mod_pos_bound z 10 ltac:(lia)) as Ht.
          destruct (Z.eq_dec (z mod 10) 9) as [Ht9|]; [|lia].
          exfalso. rewrite <- Bool.not_true_iff_false in Heven. apply Heven.
          apply Z.even_spec. exists (8 * (z / 10) + 7).
          rewrite Hqv. unfold K. rewrite Hd53. change (2 ^ (57 - 53)) with 16.
          pose proof (Z.div_mod z 10 ltac:(lia)) as Hdm.
          symmetry. apply (Z.div_unique _ _ _ 4); lia.
        - left. unfold H. change 11 with (2 ^ 4 - 5).
          assert (2 ^ 4 <= 2 ^ (56 - d)) by (apply Z.pow_le_mono_r; lia). lia. }
      specialize (Hup' Hcase).
      destruct (binary_round_aux_normal false q (d - 57) (new_location 5629499534213120 r) 54
                  ltac:(lia) ltac:(lia) ltac:(lia) ltac:(lia))
        as (_ & m2 & e2 & -> & Hm2 & Halt).
      change (2 ^ (54 - 53)) with 2 in Halt.
      cbn [F64.Math_floor cond_Zopp]. f_equal.
      destruct Halt as [[-> ->]|[[-> ->]|(Hc & -> & ->)]].
      * rewrite Z.shiftl_div_pow2 by lia.
        replace (- (d - 57 + (54 - 53))) with (56 - d) by lia. exact Hdown'.
      * rewrite Z.shiftl_div_pow2 by lia.
        replace (- (d - 57 + (54 - 53))) with (56 - d) by lia. exact Hup'.
      * rewrite Z.shiftl_div_pow2 by lia.
        replace (- (d - 57 + (54 - 53) + 1)) with (55 - d) by lia.
        rewrite <- Hup', Hc.
        assert (HH2 : H = 2 * 2 ^ (55 - d)).
        { unfold H. rewrite <- Z.pow_succ_r by lia. f_equal. lia. }
        rewrite HH2. change (2 ^ 53) with (2 * 2 ^ 52).
        rewrite Z.div_mul_cancel_l by lia. reflexivity.
Qed.

Lemma formatDuration_Int z :
  z < 2 ^ 53 ->
  formatDuration (Int z)
  = if z <? 1000 then pretty z +:+ "ms" else seconds_toString (z `div` 10) +:+ "s".
Proof.
  intros Hz. unfold formatDuration. cbn [Num.ltb Number_toString F64.of_number].
  destruct (Z.ltb_spec z 1000); [reflexivity|].
  rewrite floor_tenth by lia. reflexivity.
Qed.

(** C2, amended.  For a millisecond count below 2^53, the integers that
    binary64 holds exactly: below one second the label is the count
    followed by "ms".  From one second on it is the number of seconds
    floored to hundredths and followed by "s": [Math.floor(ms / 10)],
    computed in binary64, is the integer quotient [q] of [ms] by 10,
    never the integer above it.  The seconds are written the way
    JavaScript writes a number, so a fraction of zero is left out with
    its point and a last decimal of zero is left out: the text is the
    integer part [q / 100], then the tenths digit if the hundredths
    digit is zero and the fraction is not, or both digits if the
    hundredths digit is not zero.  So 1000 gives "1s", 1005 gives "1s",
    1500 gives "1.5s" and 1999 gives "1.99s". *)
Theorem formatDuration_floor_shortest (ms : Z) :
  0 <= ms < 2 ^ 53 ->
  let q := ms `div` 10 in
  F64.Math_floor (F64.div (F64.of_Z ms) (F64.of_Z 10)) = Int q
  /\ (ms < 1000 -> formatDuration (Int ms) = pretty ms +:+ "ms")
  /\ (1000 <= ms -> q `mod` 100 = 0 ->
      formatDuration (Int ms) = pretty (q `div` 100) +:+ "s")
  /\ (1000 <= ms -> q `mod` 100 <> 0 -> q `mod` 10 = 0 ->
      formatDuration (Int ms)
      = pretty (q `div` 100) +:+ "." +:+ pretty ((q `div` 10) `mod` 10) +:+ "s")
  /\ (1000 <= ms -> q `mod` 10 <> 0 ->
      formatDuration (Int ms)
      = pretty (q `div` 100) +:+ "." +:+ pretty ((q `div` 10) `mod` 10)
          +:+ pretty (q `mod` 10) +:+ "s")
  /\ formatDuration (Int 1000) = "1s"
  /\ formatDuration (Int 1005) = "1s"
  /\ formatDuration (Int 1500) = "1.5s"
  /\ formatDuration (Int 1999) = "1.99s".
Proof.
  intros Hms q.
  assert (Hlt : ms < 1000 -> formatDuration (Int ms) = pretty ms +:+ "ms").
  { intros H. rewrite formatDuration_Int by lia.
    destruct (Z.ltb_spec ms 1000); [reflexivity | lia]. }
  assert (Hge : 1000 <= ms -> formatDuration (Int ms) = seconds_toString q +:+ "s").
  { intros H. rewrite formatDuration_Int by lia.
    destruct (Z.ltb_spec ms 1000); [lia | reflexivity]. }
  split; [apply floor_tenth; exact Hms|].
  split; [exact Hlt|].
  split.
  { intros H Hq. rewrite (Hge H), seconds_toString_whole by exact Hq. reflexivity. }
  split.
  { intros H Hq Hq'.
    rewrite (Hge H), seconds_toString_tenths by assumption.
    rewrite !string_app_assoc. reflexivity. }
  split.
  { intros H Hq.
    rewrite (Hge H), seconds_toString_hundredths by assumption.
    rewrite !string_app_assoc. reflexivity. }
  repeat split; vm_compute; reflexivity.
Qed.

Lemma formatDuration_floor_shortest_witness :
  formatDuration (Int 61050) = "61.05s".
Proof.
  pose proof (formatDuration_floor_shortest 61050 ltac:(lia)) as H.
  cbv zeta in H.
  destruct H as (_ & _ & _ & _ & H & _).
  rewrite H; [vm_compute; reflexivity | lia | vm_compute; discriminate].
Defined.

(** ** The scale of a timeline of positive duration *)

Lemma close_mul a b c d : close a b -> close c d -> 
  (0 < a * c /\ 0 < b * d /\ 1000000 * (a * c) <= 1002001 * (b * d)
   /\ 1000000 * (b * d) <= 1002001 * (a * c))%R.
Proof.
  intros (Ha & Hb & H1 & H2) (Hc & Hd & H3 & H4).
  repeat split; try nra.
Qed.

Lemma fraction_values :
  fraction 0 = S754_zero false
  /\ fraction 8 = one
  /\ forall i, 1 <= i <= 8 -> nice (fraction i) 55 /\ (val (fraction i) = IZR i / 8)%R.
Proof.
  split; [reflexivity|]. split; [reflexivity|].
  intros i Hi.
  assert (Hcases : i = 1 \/ i = 2 \/ i = 3 \/ i = 4 \/ i = 5 \/ i = 6 \/ i = 7 \/ i = 8) by lia.
  destruct Hcases as [->|[->|[->|[->|[->|[->|[->| ->]]]]]]];
    (split;
     [eexists _, _; split; [vm_compute; reflexivity|]; split; [split; [vm_compute; discriminate | reflexivity] | lia]
     | vm_compute val; lra]).
Qed.

Lemma scale_close d :
  1 <= d < 2 ^ 53 -> nice (scale d) 160 /\ close (val (scale d)) (100 / IZR d).
Proof.
  intros Hd. unfold scale.
  destruct (of_Z_pos 100 ltac:(unfold CONFIG.TIMELINE_WIDTH; lia)) as [H100 V100].
  destruct (of_Z_pos d ltac:(lia)) as [Hnd Vd].
  destruct (div_close _ _ 53 53 H100 Hnd ltac:(lia)) as [Hn Hc].
  split; [exact Hn|]. change CONFIG.TIMELINE_WIDTH with 100.
  rewrite V100, Vd in Hc. exact Hc.
Qed.

(** The projection of a finite binary64 is an integer. *)
Lemma mul_scale_finite s m e d :
  1 <= d < 2 ^ 53 -> 2 ^ 52 <= Zpos m < 2 ^ 53 -> -60 <= e <= 0 ->
  exists m' e', F64.mul (S754_finite s m e) (scale d) = S754_finite s m' e'.
Proof.
  intros Hd Hm He. destruct (scale_close d Hd) as [(ms & es & -> & Hms & Hes) _].
  unfold F64.mul, F64.prec, F64.emax. cbn [SFmul].
  replace (xorb s false) with s by (destruct s; reflexivity).
  set (M := Zpos (m * ms)).
  assert (HM : 2 ^ 104 <= M < 2 ^ 106).
  { unfold M. rewrite Pos2Z.inj_mul.
    change (2 ^ 104) with (2 ^ 52 * 2 ^ 52). change (2 ^ 106) with (2 ^ 53 * 2 ^ 53). nia. }
  destruct (Z.ltb_spec M (2 ^ 105)) as [Hlt|Hge].
  - destruct (binary_round_aux_normal s M (e + es) loc_Exact 105 ltac:(lia) ltac:(lia)
                ltac:(lia) ltac:(lia)) as (_ & m2 & e2 & -> & _). eauto.
  - destruct (binary_round_aux_normal s M (e + es) loc_Exact 106 ltac:(lia) ltac:(lia)
                ltac:(lia) ltac:(lia)) as (_ & m2 & e2 & -> & _). eauto.
Qed.

(** [timeToChars] of a number of milliseconds, an integer of at most 53
    digits: an integer again, not negative unless the argument is. *)
Lemma project_integer d z :
  1 <= d < 2 ^ 53 -> - 2 ^ 53 < z < 2 ^ 53 ->
  exists c, F64.Math_floor (F64.mul (F64.of_Z z) (scale d)) = Int c
            /\ (0 <= z -> 0 <= c).
Proof.
  intros Hd Hz.
  destruct (of_Z_finite z Hz) as [[-> ->]|(m & e & Hof & Hm & He)].
  - destruct (scale_close d Hd) as [(ms & es & -> & _) _].
    exists 0. split; [reflexivity | lia].
  - rewrite Hof.
    destruct (mul_scale_finite (z <? 0) m e d Hd Hm ltac:(lia)) as (m' & e' & ->).
    destruct (Math_floor_finite (z <? 0) m' e') as (c & -> & Hc).
    exists c. split; [reflexivity|].
    intros Hz0. destruct (Z.ltb_spec z 0) as [|_]; [lia|].
    cbn [val cond_Zopp] in Hc.
    assert (0 < IZR (Zpos m') * pow2 e')%R.
    { apply Rmult_lt_0_compat; [apply IZR_lt; lia | apply pow2_pos]. }
    apply Z.lt_succ_r, lt_IZR. rewrite succ_IZR. lra.
Qed.

(** The width of the timeline in columns: 100, or 99 when the product
    rounds below 100. *)
Lemma project_duration d :
  1 <= d < 2 ^ 53 ->
  exists w, F64.Math_floor (F64.mul (F64.of_Z d) (scale d)) = Int w /\ 99 <= w <= 100.
Proof.
  intros Hd.
  destruct (scale_close d Hd) as [Hns Hcs].
  destruct (of_Z_pos d ltac:(lia)) as [Hnd Vd].
  destruct (mul_close _ _ 53 160 Hnd Hns ltac:(lia)) as [Hn Hc].
  apply (Math_floor_between _ _ 99 100 Hn).
  rewrite Vd in Hc.
  assert (HD : (1 <= IZR d)%R) by (apply IZR_le; lia).
  destruct Hcs as (Hs & _ & Hs1 & Hs2). destruct Hc as (Hp & _ & Hp1 & Hp2).
  set (S := val (scale d)) in *. set (P := val (F64.mul (F64.of_Z d) (scale d))) in *.
  set (D := IZR d) in *.
  assert (HS1 : (1000 * (D * S) <= 1001 * 100)%R).
  { replace (1001 * 100)%R with (D * (1001 * (100 / D)))%R by (field; lra). nra. }
  assert (HS2 : (1000 * 100 <= 1001 * (D * S))%R).
  { replace (1000 * 100)%R with (D * (1000 * (100 / D)))%R by (field; lra). nra. }
  simpl. lra.
Qed.

(** The column of the [i]-th timestamp, for [i] from 1 to 7: the floor
    of [12.5 * i], or one less where [12.5 * i] is an integer. *)
Lemma project_fraction d i :
  1 <= d < 2 ^ 53 -> 1 <= i <= 7 ->
  let elapsed := F64.mul (fraction i) (F64.of_Z d) in
  exists p t,
    F64.Math_floor (F64.mul elapsed (scale d)) = Int p
    /\ (25 * i - 1) / 2 <= p <= 25 * i / 2
    /\ F64.Math_floor elapsed = Int t.
Proof.
  intros Hd Hi elapsed.
  destruct fraction_values as (_ & _ & Hfr).
  destruct (Hfr i ltac:(lia)) as [Hnf Vf].
  destruct (scale_close d Hd) as [Hns Hcs].
  destruct (of_Z_pos d ltac:(lia)) as [Hnd Vd].
  destruct (mul_close _ _ 55 53 Hnf Hnd ltac:(lia)) as [Hnx Hcx].
  fold elapsed in Hnx, Hcx.
  destruct (mul_close _ _ _ 160 Hnx Hns ltac:(lia)) as [Hnp Hcp].
  assert (Ht : exists t, F64.Math_floor elapsed = Int t).
  { destruct Hnx as (m & e & -> & _). eexists. reflexivity. }
  destruct Ht as [t Ht].
  cut (exists p, F64.Math_floor (F64.mul elapsed (scale d)) = Int p
                 /\ (25 * i - 1) / 2 <= p <= 25 * i / 2).
  { intros (p & Hp & Hb). exists p, t. auto. }
  apply (Math_floor_between _ _ _ _ Hnp).
  rewrite Vf, Vd in Hcx.
  assert (HD : (1 <= IZR d)%R) by (apply IZR_le; lia).
  destruct Hcs as (Hs & _ & Hs1 & Hs2).
  destruct Hcx as (Hx & _ & Hx1 & Hx2).
  destruct Hcp as (Hp & _ & Hp1 & Hp2).
  set (S := val (scale d)) in *. set (X := val elapsed) in *.
  set (P := val (F64.mul elapsed (scale d))) in *.
  set (D := IZR d) in *.
  assert (HS1 : (1000 * (D * S) <= 1001 * 100)%R).
  { replace (1001 * 100)%R with (D * (1001 * (100 / D)))%R by (field; lra). nra. }
  assert (HS2 : (1000 * 100 <= 1001 * (D * S))%R).
  { replace (1000 * 100)%R with (D * (1000 * (100 / D)))%R by (field; lra). nra. }
  assert (HI : (1 <= IZR i <= 7)%R) by (split; apply IZR_le; lia).
  assert (HXS1 : (1000 * 1000 * (X * S) <= 1001 * 1001 * (IZR i / 8 * 100))%R).
  { apply Rle_trans with (1000 * (1001 * (IZR i / 8 * D)) * S)%R; [nra|].
    replace (1000 * (1001 * (IZR i / 8 * D)) * S)%R
      with (1001 * (IZR i / 8) * (1000 * (D * S)))%R by ring.
    apply Rle_trans with (1001 * (IZR i / 8) * (1001 * 100))%R; [|lra].
    apply Rmult_le_compat_l; [lra | exact HS1]. }
  assert (HXS2 : (1000 * 1000 * (IZR i / 8 * 100) <= 1001 * 1001 * (X * S))%R).
  { apply Rle_trans with (1000 * (IZR i / 8) * (1001 * (D * S)))%R.
    - replace (1000 * 1000 * (IZR i / 8 * 100))%R
        with (1000 * (IZR i / 8) * (1000 * 100))%R by ring.
      apply Rmult_le_compat_l; [lra | exact HS2].
    - replace (1000 * (IZR i / 8) * (1001 * (D * S)))%R
        with (1001 * (1000 * (IZR i / 8 * D)) * S)%R by ring.
      nra. }
  assert (Hcases : i = 1 \/ i = 2 \/ i = 3 \/ i = 4 \/ i = 5 \/ i = 6 \/ i = 7) by lia.
  destruct Hcases as [->|[->|[->|[->|[->|[->| ->]]]]]];
    vm_compute ((25 * _ - 1) / 2); vm_compute (25 * _ / 2); lra.
Qed.

Lemma project_fraction_0 d :
  1 <= d < 2 ^ 53 ->
  F64.mul (fraction 0) (F64.of_Z d) = S754_zero false
  /\ F64.mul (S754_zero false) (scale d) = S754_zero false.
Proof.
  intros Hd.
  destruct (scale_close d Hd) as [(ms & es & -> & _) _].
  destruct (of_Z_pos d ltac:(lia)) as [(m & e & -> & _) _].
  split; reflexivity.
Qed.

Lemma project_fraction_8 d :
  1 <= d < 2 ^ 53 -> F64.mul (fraction 8) (F64.of_Z d) = F64.of_Z d.
Proof.
  intros Hd. destruct (of_Z_pos d ltac:(lia)) as [Hn _].
  destruct fraction_values as (_ & -> & _).
  apply (mul_one _ 53); [exact Hn | lia].
Qed.

(** ** The renderer of a non-empty list of tasks with positive duration *)

Lemma Math_min_spec {A} (f : A -> Z) (l : list A) :
  l <> [] ->
  exists z, Num.Math_min ((fun t => Int (f t)) <$> l) = Int z
    /\ (exists t, t ∈ l /\ f t = z)
    /\ forall t, t ∈ l -> z <= f t.
Proof.
  induction l as [|t l IH]; [congruence|]. intros _.
  destruct l as [|t' l].
  - exists (f t). split; [reflexivity|]. split.
    + exists t. split; [left | reflexivity].
    + intros u Hu. apply list_elem_of_singleton in Hu as ->. lia.
  - destruct IH as (z & Hz & (u & Hu & Hzu) & Hmin); [congruence|].
    rewrite fmap_cons. cbn [Num.Math_min foldr]. fold (Num.Math_min ((fun t => Int (f t)) <$> t' :: l)).
    rewrite Hz. cbn [Num.min2 Num.ltb].
    destruct (Z.ltb_spec z (f t)) as [Hlt|Hge].
    + exists z. split; [reflexivity|]. split.
      * exists u. split; [right; exact Hu | exact Hzu].
      * intros v Hv. apply elem_of_cons in Hv as [->|Hv]; [lia | auto].
    + exists (f t). split; [reflexivity|]. split.
      * exists t. split; [left | reflexivity].
      * intros v Hv. apply elem_of_cons in Hv as [->|Hv]; [lia|].
        specialize (Hmin v Hv). lia.
Qed.

Lemma Math_max_spec {A} (f : A -> Z) (l : list A) :
  l <> [] ->
  exists z, Num.Math_max ((fun t => Int (f t)) <$> l) = Int z
    /\ (exists t, t ∈ l /\ f t = z)
    /\ forall t, t ∈ l -> f t <= z.
Proof.
  induction l as [|t l IH]; [congruence|]. intros _.
  destruct l as [|t' l].
  - exists (f t). split; [reflexivity|]. split.
    + exists t. split; [left | reflexivity].
    + intros u Hu. apply list_elem_of_singleton in Hu as ->. lia.
  - destruct IH as (z & Hz & (u & Hu & Hzu) & Hmax); [congruence|].
    rewrite fmap_cons. cbn [Num.Math_max foldr]. fold (Num.Math_max ((fun t => Int (f t)) <$> t' :: l)).
    rewrite Hz. cbn [Num.max2 Num.ltb].
    destruct (Z.ltb_spec (f t) z) as [Hlt|Hge].
    + exists z. split; [reflexivity|]. split.
      * exists u. split; [right; exact Hu | exact Hzu].
      * intros v Hv. apply elem_of_cons in Hv as [->|Hv]; [lia | auto].
    + exists (f t). split; [reflexivity|]. split.
      * exists t. split; [left | reflexivity].
      * intros v Hv. apply elem_of_cons in Hv as [->|Hv]; [lia|].
        specialize (Hmax v Hv). lia.
Qed.

Lemma new_TimelineRenderer_scaled tasks :
  tasks <> [] -> Forall epoch tasks ->
  Num.ltb (Int 0) (totalDuration (new_TimelineRenderer tasks CONFIG.TIMELINE_WIDTH)) = true ->
  exists first duration gutter width,
    scaled tasks (new_TimelineRenderer tasks CONFIG.TIMELINE_WIDTH)
           first duration gutter width.
Proof.
  intros Hne Hep Hpos.
  destruct (Math_min_spec startTime tasks Hne) as (s0 & Hs0 & (ts & Hts & Hs0t) & Hmin).
  destruct (Math_max_spec endTime tasks Hne) as (e1 & He1 & (te & Hte & He1t) & Hmax).
  destruct (Math_max_spec (fun t => Z.of_nat (String.length (taskId t))) tasks Hne)
    as (len & Hlen & (tl & Htl & Hlent) & Hlmax).
  rewrite Forall_forall in Hep.
  pose proof (Hep ts Hts) as [Hs _]. pose proof (Hep te Hte) as [_ He].
  assert (Hdur : totalDuration (new_TimelineRenderer tasks CONFIG.TIMELINE_WIDTH) = Int (e1 - s0)).
  { cbn [new_TimelineRenderer totalDuration]. rewrite Hs0, He1. reflexivity. }
  rewrite Hdur in Hpos. cbn [Num.ltb] in Hpos. apply Z.ltb_lt in Hpos.
  assert (Hrange : 1 <= e1 - s0 < 2 ^ 53) by lia.
  destruct (project_duration (e1 - s0) Hrange) as (w & Hw & Hwr).
  exists s0, (e1 - s0), (Z.min (len + 2) CONFIG.MAX_LABEL_WIDTH), w.
  split.
  - exact Hs0.
  - exact Hmin.
  - lia.
  - exact Hdur.
  - exact Hrange.
  - cbn [new_TimelineRenderer msToChars]. rewrite Hs0, He1. reflexivity.
  - cbn [new_TimelineRenderer labelWidth]. rewrite Hlen.
    unfold CONFIG.MAX_LABEL_WIDTH. cbn [Num.add Num.Math_min foldr Num.min2 Num.ltb].
    destruct (Z.ltb_spec 45 (len + 2)); f_equal; lia.
  - assert (0 <= len) by (rewrite <- Hlent; lia).
    unfold CONFIG.MAX_LABEL_WIDTH. lia.
  - intros t Ht Hfit. specialize (Hlmax t Ht). unfold CONFIG.MAX_LABEL_WIDTH in *. lia.
  - unfold timeToChars. rewrite Hdur. cbn [new_TimelineRenderer msToChars F64.of_number].
    rewrite Hs0, He1. exact Hw.
  - exact Hwr.
Qed.

Lemma Math_max_floor c :
  Num.Math_max [Int CONFIG.MIN_BAR_WIDTH; Int c] = Int (Z.max CONFIG.MIN_BAR_WIDTH c).
Proof.
  unfold CONFIG.MIN_BAR_WIDTH. cbn [Num.Math_max foldr Num.max2 Num.ltb negb].
  destruct (Z.ltb_spec 3 c); f_equal; lia.
Qed.

Lemma Num_sub_Int a b : Num.sub (Int a) (Int b) = Int (a - b).
Proof. reflexivity. Qed.

Lemma bar_bounds_scaled tasks this first duration gutter width task :
  scaled tasks this first duration gutter width ->
  task ∈ tasks -> epoch task ->
  exists barStart projected,
    getTaskBarBounds this task
    = {| b_start := Int barStart;
         b_end := Int (barStart + Z.max CONFIG.MIN_BAR_WIDTH projected) |}
    /\ barWidth this task = Int (Z.max CONFIG.MIN_BAR_WIDTH projected)
    /\ 0 <= barStart.
Proof.
  intros Hsc Hin [Hs He].
  pose proof (scaled_first _ _ _ _ _ _ Hsc task Hin) as Hfirst.
  pose proof (scaled_first_range _ _ _ _ _ _ Hsc) as Hfirst0.
  pose proof (scaled_range _ _ _ _ _ _ Hsc) as Hd.
  destruct (project_integer duration (startTime task - first) Hd ltac:(lia))
    as (barStart & HbarStart & Hnonneg).
  destruct (project_integer duration (endTime task - startTime task) Hd ltac:(lia))
    as (projected & Hprojected & _).
  assert (Hwidth : barWidth this task = Int (Z.max CONFIG.MIN_BAR_WIDTH projected)).
  { unfold barWidth, timeToChars.
    rewrite Num_sub_Int, (scaled_scale _ _ _ _ _ _ Hsc). cbn [F64.of_number].
    rewrite Hprojected. apply Math_max_floor. }
  exists barStart, projected. split; [|split; [exact Hwidth | apply Hnonneg; lia]].
  unfold getTaskBarBounds. rewrite Hwidth. unfold timeToChars.
  rewrite (scaled_start _ _ _ _ _ _ Hsc), Num_sub_Int, (scaled_scale _ _ _ _ _ _ Hsc).
  cbn [F64.of_number]. rewrite HbarStart. reflexivity.
Qed.

Lemma getMarkerPositions_scaled tasks this first duration gutter width :
  scaled tasks this first duration gutter width ->
  getMarkerPositions this = (fun i => Int (i * width / 8)) <$> marker_indices.
Proof.
  intros Hsc. unfold getMarkerPositions.
  rewrite (scaled_width _ _ _ _ _ _ Hsc).
  pose proof (scaled_width_range _ _ _ _ _ _ Hsc) as Hw.
  assert (Hcases : width = 99 \/ width = 100) by lia.
  destruct Hcases as [-> | ->]; vm_compute; reflexivity.
Qed.

(** The timestamps of the axis: their columns begin at the gutter, end
    at the width, and lie 12 or 13 columns apart. *)
Lemma getTimestamps_scaled tasks this first duration gutter width :
  scaled tasks this first duration gutter width ->
  exists c2 c4 c6 l0 l1 l2 l3 l4 l5 l6 l7 l8,
    24 <= c2 <= 25 /\ 49 <= c4 <= 50 /\ 74 <= c6 <= 75
    /\ getTimestamps this
       = [ {| pos := Int (gutter + 0); label := l0 |};
           {| pos := Int (gutter + 12); label := l1 |};
           {| pos := Int (gutter + c2); label := l2 |};
           {| pos := Int (gutter + 37); label := l3 |};
           {| pos := Int (gutter + c4); label := l4 |};
           {| pos := Int (gutter + 62); label := l5 |};
           {| pos := Int (gutter + c6); label := l6 |};
           {| pos := Int (gutter + 87); label := l7 |};
           {| pos := Int (gutter + width); label := l8 |} ].
Proof.
  intros Hsc.
  pose proof (scaled_range _ _ _ _ _ _ Hsc) as Hd.
  pose proof (scaled_width _ _ _ _ _ _ Hsc) as Hw.
  unfold timeToChars in Hw.
  rewrite (scaled_duration _ _ _ _ _ _ Hsc), (scaled_scale _ _ _ _ _ _ Hsc) in Hw.
  cbn [F64.of_number] in Hw.
  destruct (project_fraction_0 duration Hd) as [H0 H0'].
  pose proof (project_fraction_8 duration Hd) as H8.
  destruct (project_fraction duration 1 Hd ltac:(lia)) as (p1 & t1 & Hp1 & Hb1 & Ht1).
  destruct (project_fraction duration 2 Hd ltac:(lia)) as (p2 & t2 & Hp2 & Hb2 & Ht2).
  destruct (project_fraction duration 3 Hd ltac:(lia)) as (p3 & t3 & Hp3 & Hb3 & Ht3).
  destruct (project_fraction duration 4 Hd ltac:(lia)) as (p4 & t4 & Hp4 & Hb4 & Ht4).
  destruct (project_fraction duration 5 Hd ltac:(lia)) as (p5 & t5 & Hp5 & Hb5 & Ht5).
  destruct (project_fraction duration 6 Hd ltac:(lia)) as (p6 & t6 & Hp6 & Hb6 & Ht6).
  destruct (project_fraction duration 7 Hd ltac:(lia)) as (p7 & t7 & Hp7 & Hb7 & Ht7).
  change ((25 * 1 - 1) / 2) with 12 in Hb1. change (25 * 1 / 2) with 12 in Hb1.
  change ((25 * 2 - 1) / 2) with 24 in Hb2. change (25 * 2 / 2) with 25 in Hb2.
  change ((25 * 3 - 1) / 2) with 37 in Hb3. change (25 * 3 / 2) with 37 in Hb3.
  change ((25 * 4 - 1) / 2) with 49 in Hb4. change (25 * 4 / 2) with 50 in Hb4.
  change ((25 * 5 - 1) / 2) with 62 in Hb5. change (25 * 5 / 2) with 62 in Hb5.
  change ((25 * 6 - 1) / 2) with 74 in Hb6. change (25 * 6 / 2) with 75 in Hb6.
  change ((25 * 7 - 1) / 2) with 87 in Hb7. change (25 * 7 / 2) with 87 in Hb7.
  assert (p1 = 12) by lia. assert (p3 = 37) by lia.
  assert (p5 = 62) by lia. assert (p7 = 87) by lia. subst p1 p3 p5 p7.
  exists p2, p4, p6.
  unfold getTimestamps, timeToChars.
  rewrite (scaled_duration _ _ _ _ _ _ Hsc), (scaled_scale _ _ _ _ _ _ Hsc),
    (scaled_gutter _ _ _ _ _ _ Hsc).
  cbn [F64.of_number].
  change marker_indices with [0; 1; 2; 3; 4; 5; 6; 7; 8].
  cbn [fmap list_fmap].
  rewrite H0, H0', H8, Hw, Hp1, Hp2, Hp3, Hp4, Hp5, Hp6, Hp7.
  cbn [F64.Math_floor Num.add].
  do 9 eexists. split; [exact Hb2|]. split; [exact Hb4|]. split; [exact Hb6|].
  reflexivity.
Qed.

(** ** Reading separators off a line *)

Lemma lastSep_None t : (forall j, t !! j <> Some Sep) -> lastSep t = None.
Proof.
  induction t as [|c t IH]; intros H; [reflexivity|]. simpl.
  rewrite IH by (intros j; apply (H (S j))).
  rewrite decide_False; [reflexivity|]. intros ->. apply (H O). reflexivity.
Qed.

Lemma lastSep_at t k :
  t !! k = Some Sep -> (forall j, (k < j)%nat -> t !! j <> Some Sep) ->
  lastSep t = Some k.
Proof.
  revert k. induction t as [|c t IH]; intros k Hk Hafter; [discriminate|].
  destruct k as [|k]; simpl in *.
  - injection Hk as ->.
    rewrite lastSep_None by (intros j; apply (Hafter (S j)); lia).
    rewrite decide_True by reflexivity. reflexivity.
  - rewrite (IH k Hk); [reflexivity|].
    intros j Hj. apply (Hafter (S j)). lia.
Qed.

Lemma text_of_string_no_Sep s j : text_of_string s !! j <> Some Sep.
Proof.
  unfold text_of_string. rewrite list_lookup_fmap.
  destruct (list_ascii_of_string s !! j); discriminate.
Qed.

Lemma spaces_no_Sep n j : spaces n !! j <> Some Sep.
Proof.
  unfold spaces. intros H. apply lookup_replicate in H as [H _]. discriminate.
Qed.

Lemma length_text_of_string s : length (text_of_string s) = String.length s.
Proof.
  unfold text_of_string. rewrite length_fmap.
  induction s as [|a s IH]; simpl; congruence.
Qed.

Lemma visible_snoc (l : line) s : visible (l ++ [s]) = visible l ++ span_text s.
Proof. unfold visible. rewrite bind_app. simpl. rewrite app_nil_r. reflexivity. Qed.

(** ** The loop of renderTaskRow *)

Section RowLoop.

Variable dim : style.
Variables (bg : color) (durationLabel : string).
Variables (barStart barEnd : number) (w : Z).
Variable markers : list number.
Variable gutter : text.

Lemma includes_Int c pos :
  Num.sameValueZero (Int c) pos = true -> pos = Int c.
Proof.
  destruct pos as [| |z]; simpl; try discriminate.
  intros H. apply Z.eqb_eq in H. congruence.
Qed.

(** A label is committed only where its span holds no marker. *)
Lemma placement_free i st pending :
  placement markers i st = Some pending ->
  pending <> ""%string
  /\ pendingLabel st = Some pending
  /\ forall c, i <= c < i + Z.of_nat (String.length pending) -> marker_col markers c = false.
Proof.
  unfold placement. destruct (pendingLabel st) as [p|]; [|discriminate].
  destruct (truthy (Some p)) eqn:Htruthy; [|discriminate].
  destruct (Num.includes markers (Int i)) eqn:Hi; [discriminate|].
  cbn [andb negb].
  destruct (existsb _ markers) eqn:Hconflict; [discriminate|]. cbn [negb].
  intros [= <-]. split; [|split; [reflexivity|]].
  - intros ->. discriminate Htruthy.
  - intros c Hc. destruct (Z.eq_dec c i) as [->|Hne]; [exact Hi|].
    unfold marker_col, Num.includes.
    destruct (existsb (Num.sameValueZero (Int c)) markers) eqn:Hc'; [|reflexivity].
    apply existsb_exists in Hc' as (pos & Hpos & Hsame).
    apply includes_Int in Hsame as ->.
    assert (Htrue : existsb (fun pos => Num.ltb (Int i) pos
                                        && Num.ltb pos (Int (i + Z.of_nat (String.length p))))
                            markers = true).
    { apply existsb_exists. exists (Int c). split; [exact Hpos|]. simpl.
      apply andb_true_iff. split; apply Z.ltb_lt; lia. }
    congruence.
Qed.

Lemma rowStep_inv i st :
  row_inv markers gutter i st -> 0 <= i ->
  i <= (rowStep dim bg durationLabel barStart barEnd markers i st).1
  /\ row_inv markers gutter ((rowStep dim bg durationLabel barStart barEnd markers i st).1 + 1)
             (rowStep dim bg durationLabel barStart barEnd markers i st).2.
Proof.
  intros (body & Hvis & Hlen & Hsep) Hi. unfold rowStep.
  destruct (placement markers i st) as [pending|] eqn:Hplace.
  - apply placement_free in Hplace as (Hne & _ & Hfree).
    assert (Hpos : (0 < String.length pending)%nat).
    { destruct pending; [congruence | simpl; lia]. }
    cbn [fst snd row_line]. split; [lia|].
    exists (body ++ text_of_string pending). cbn [row_line].
    rewrite visible_snoc, Hvis, <- app_assoc. cbn [span_text].
    split; [reflexivity|].
    rewrite length_app, length_text_of_string. split; [lia|].
    intros c Hc. destruct (decide (c < length body)%nat) as [Hlt|Hge].
    + rewrite lookup_app_l by exact Hlt. apply Hsep. exact Hlt.
    + rewrite lookup_app_r by lia.
      rewrite (Hfree (Z.of_nat c)) by lia.
      split; [|discriminate]. intros H. exfalso. exact (text_of_string_no_Sep _ _ H).
  - cbn [fst snd row_line]. split; [lia|].
    set (isMarker := Num.includes markers (Int i)).
    set (cell := if Num.leb barStart (Int i) && Num.ltb (Int i) barEnd
                 then Painted bg (if isMarker then Sep else Nbsp)
                 else if isMarker then Styled dim [Sep] else Raw [Nbsp]).
    assert (Hcell : span_text cell = [if isMarker then Sep else Nbsp]).
    { unfold cell. destruct (_ && _), isMarker; reflexivity. }
    exists (body ++ [if isMarker then Sep else Nbsp]). cbn [row_line].
    fold isMarker. fold cell.
    rewrite visible_snoc, Hvis, <- app_assoc, Hcell.
    split; [reflexivity|].
    rewrite length_app. simpl. split; [lia|].
    intros c Hc. destruct (decide (c < length body)%nat) as [Hlt|Hge].
    + rewrite lookup_app_l by exact Hlt. apply Hsep. exact Hlt.
    + rewrite lookup_app_r by lia.
      replace (c - length body)%nat with O by lia. simpl.
      replace (Z.of_nat c) with i by lia. fold isMarker. unfold marker_col.
      fold isMarker. destruct isMarker; split; congruence.
Qed.

Lemma rowLoop_inv fuel i st :
  row_inv markers gutter i st -> 0 <= i -> w + 1 - i <= Z.of_nat fuel ->
  exists i', w < i'
    /\ row_inv markers gutter i' (rowLoop dim bg durationLabel barStart barEnd (Int w) markers fuel i st).
Proof.
  revert i st. induction fuel as [|fuel IH]; intros i st Hinv Hi Hfuel.
  - exists i. split; [lia | exact Hinv].
  - cbn [rowLoop Num.leb]. destruct (Z.leb_spec i w) as [Hle|Hgt].
    + pose proof (rowStep_inv i st Hinv Hi) as [Hstep Hinv'].
      destruct (rowStep dim bg durationLabel barStart barEnd markers i st) as [i' st'].
      cbn [fst snd] in *. apply IH; [exact Hinv' | lia | lia].
    + exists i. split; [lia | exact Hinv].
Qed.

(** After the loop the pending label, if there is one, is appended. *)
Lemma flush_inv i st :
  row_inv markers gutter i st ->
  exists body tail,
    visible (flush dim st) = gutter ++ body ++ tail
    /\ Z.of_nat (length body) = i
    /\ (forall c, (c < length body)%nat ->
          body !! c = Some Sep <-> marker_col markers (Z.of_nat c) = true)
    /\ forall j, tail !! j <> Some Sep.
Proof.
  intros (body & Hvis & Hlen & Hsep). exists body. unfold flush.
  assert (Hnone : exists tail : text,
             visible (row_line st) = gutter ++ body ++ tail
             /\ Z.of_nat (length body) = i
             /\ (forall c, (c < length body)%nat ->
                   body !! c = Some Sep <-> marker_col markers (Z.of_nat c) = true)
             /\ forall j, tail !! j <> Some Sep).
  { exists []. rewrite app_nil_r. split; [exact Hvis|]. split; [exact Hlen|].
    split; [exact Hsep|]. intros j. rewrite lookup_nil. discriminate. }
  destruct (pendingLabel st) as [pending|]; [|exact Hnone].
  destruct (truthy (Some pending)); [|exact Hnone].
  exists (text_of_string pending). rewrite visible_snoc, Hvis, <- app_assoc.
  split; [reflexivity|]. split; [exact Hlen|]. split; [exact Hsep|].
  apply text_of_string_no_Sep.
Qed.

End RowLoop.

(** ** The loops of renderTimeAxis *)

Section AxisLoop.

Variable timestamps : list timestamp.
Variable limit : Z.

Lemma spaces_S n : spaces (S n) = Chr " " :: spaces n.
Proof. reflexivity. Qed.

Lemma spaces_snoc n : spaces n ++ [Chr " "] = spaces (S n).
Proof.
  unfold spaces. induction n as [|n IH]; [reflexivity|].
  simpl. f_equal. exact IH.
Qed.

Lemma axisLoop_blanks n fuel st ts c :
  timestamps !! tsIndex st = Some ts -> pos ts = Int c ->
  currentPos st + Z.of_nat n <= c -> c <= limit ->
  axisLoop timestamps limit (n + fuel) st
  = axisLoop timestamps limit fuel (blank_step n st).
Proof.
  revert st. induction n as [|n IH]; intros st Hts Hpos Hcur Hlim.
  - simpl. f_equal. destruct st. unfold blank_step. simpl.
    rewrite !app_nil_r, Z.add_0_r. reflexivity.
  - cbn [Nat.add axisLoop].
    assert (Hidx : (tsIndex st <? length timestamps)%nat = true).
    { apply Nat.ltb_lt. eapply lookup_lt_Some. exact Hts. }
    replace (currentPos st <=? limit) with true by (symmetry; apply Z.leb_le; lia).
    rewrite Hidx, Hts, Hpos. cbn [andb Num.ltb].
    replace (currentPos st <? c) with true by (symmetry; apply Z.ltb_lt; lia).
    rewrite IH; [|exact Hts | exact Hpos | cbn [currentPos]; lia | exact Hlim].
    f_equal. unfold blank_step. cbn [markerLine labelLine currentPos tsIndex].
    rewrite <- !app_assoc. change ([Chr " "] ++ spaces n) with (spaces (S n)).
    f_equal. lia.
Qed.

Lemma axisLoop_mark fuel st ts c :
  timestamps !! tsIndex st = Some ts -> pos ts = Int c ->
  currentPos st = c -> c <= limit ->
  axisLoop timestamps limit (S fuel) st
  = axisLoop timestamps limit fuel (axisMark timestamps ts st).
Proof.
  intros Hts Hpos Hcur Hlim. cbn [axisLoop].
  assert (Hidx : (tsIndex st <? length timestamps)%nat = true).
  { apply Nat.ltb_lt. eapply lookup_lt_Some. exact Hts. }
  replace (currentPos st <=? limit) with true by (symmetry; apply Z.leb_le; lia).
  rewrite Hidx, Hts, Hpos, Hcur. cbn [andb Num.ltb Num.eqb].
  rewrite Z.ltb_irrefl, Z.eqb_refl. reflexivity.
Qed.

Lemma axisLoop_done fuel st :
  tsIndex st = length timestamps ->
  axisLoop timestamps limit fuel st = Returns st.
Proof.
  intros Hidx. destruct fuel as [|fuel]; [reflexivity|]. cbn [axisLoop].
  rewrite Hidx, Nat.ltb_irrefl, andb_false_r. reflexivity.
Qed.

Variable view : list (Z * string).
Hypothesis timestamps_view : Forall2 viewed timestamps view.

Lemma axis_end_cons cl cl' rest :
  axis_end (cl :: cl' :: rest) = axis_end (cl' :: rest).
Proof. reflexivity. Qed.

Lemma axis_segments_cons c l c' l' rest :
  axis_segments ((c, l) :: (c', l') :: rest)
  = (Sep :: spaces (Z.to_nat (c' - (c + 1))) ++ (axis_segments ((c', l') :: rest)).1,
     Sep :: (if Z.of_nat (String.length l) + 1 <=? c' - (c + 1)
             then text_of_string l
                    ++ spaces (Z.to_nat (c' - (c + 1)) - String.length l)
             else spaces (Z.to_nat (c' - (c + 1))))
         ++ (axis_segments ((c', l') :: rest)).2).
Proof. reflexivity. Qed.

Lemma spaces_add n m : spaces n ++ spaces m = spaces (n + m).
Proof. unfold spaces. symmetry. apply replicate_add. Qed.

Lemma axisLoop_segments rest k st fuel c l rest' :
  drop k view = rest -> rest = (c, l) :: rest' ->
  tsIndex st = k -> currentPos st = c -> ascending limit rest ->
  limit + 1 - c <= Z.of_nat fuel ->
  axisLoop timestamps limit fuel st
  = Returns {| markerLine := markerLine st ++ (axis_segments rest).1;
               labelLine := labelLine st ++ (axis_segments rest).2;
               currentPos := axis_end rest;
               tsIndex := length timestamps |}.
Proof.
  revert k st fuel c l rest'.
  induction rest as [|cl rest IH]; intros k st fuel c l rest' Hdrop Hrest Hidx Hcur Hasc Hfuel;
    [discriminate|].
  injection Hrest as -> ->.
  destruct Hasc as (Hlim & Hnext & Hasc).
  assert (Hvk : view !! k = Some (c, l)).
  { pose proof (lookup_drop view k 0) as H.
    rewrite Hdrop, Nat.add_0_r in H. symmetry. exact H. }
  assert (Hdrop' : drop (S k) view = rest').
  { pose proof (drop_drop view 1 k) as H. rewrite Hdrop in H.
    replace (S k) with (k + 1)%nat by lia. symmetry. exact H. }
  destruct (Forall2_lookup_r _ _ _ _ _ timestamps_view Hvk) as (ts & Hts & Hpos & Hlab).
  cbn [fst snd] in Hpos, Hlab.
  destruct fuel as [|fuel]; [lia|].
  rewrite (axisLoop_mark fuel st ts c) by (rewrite ?Hidx; assumption).
  pose proof (Forall2_length _ _ _ timestamps_view) as Hlen.
  unfold axisMark. rewrite Hidx, Hcur, Hlab.
  destruct rest' as [|[c' l'] rest''].
  - (* the last timestamp *)
    assert (Hk : length view = S k).
    { apply lookup_lt_Some in Hvk.
      assert (length (drop (S k) view) = O) by (rewrite Hdrop'; reflexivity).
      rewrite length_drop in H. lia. }
    rewrite (lookup_ge_None_2 timestamps (k + 1)) by lia.
    replace (k =? length timestamps - 1)%nat with true
      by (symmetry; apply Nat.eqb_eq; lia).
    cbn [orb]. rewrite axisLoop_done by (cbn [tsIndex]; lia).
    f_equal. cbn [axis_segments fst snd axis_end last].
    rewrite <- !app_assoc. f_equal. lia.
  - (* a timestamp with a next one *)
    assert (Hvk' : view !! S k = Some (c', l')).
    { pose proof (lookup_drop view (S k) 0) as H.
      rewrite Hdrop', Nat.add_0_r in H. symmetry. exact H. }
    destruct (Forall2_lookup_r _ _ _ _ _ timestamps_view Hvk') as (ts' & Hts' & Hpos' & Hlab').
    cbn [fst snd] in Hpos', Hlab'.
    replace (k + 1)%nat with (S k) by lia. rewrite Hts', Hpos'.
    replace (k =? length timestamps - 1)%nat with false
      by (symmetry; apply Nat.eqb_neq; apply lookup_lt_Some in Hts'; lia).
    cbn [orb Num.sub Num.add Num.neg Num.leb].
    replace (c' + - (c + 1)) with (c' - (c + 1)) by lia.
    rewrite axis_segments_cons, axis_end_cons.
    set (segments := axis_segments ((c', l') :: rest'')) in *.
    destruct Hasc as (Hlim' & Hnext' & Hasc').
    destruct (Z.leb_spec (Z.of_nat (String.length l) + 1) (c' - (c + 1))) as [Hfits|Hnot].
    + set (st1 := {| markerLine := (markerLine st ++ [Sep]) ++ spaces (String.length l);
                     labelLine := (labelLine st ++ [Sep]) ++ text_of_string l;
                     currentPos := c + 1 + Z.of_nat (String.length l);
                     tsIndex := S k |}).
      set (n := Z.to_nat (c' - (c + 1 + Z.of_nat (String.length l)))).
      replace fuel with (n + (fuel - n))%nat by (unfold n; lia).
      rewrite (axisLoop_blanks n _ st1 ts' c') by (unfold st1, n; cbn [tsIndex currentPos]; (assumption || lia)).
      rewrite (IH (S k) (blank_step n st1) (fuel - n)%nat c' l' rest'');
        try reflexivity; try assumption;
        [|unfold st1, n; cbn [blank_step currentPos]; lia | split; [lia | split; assumption] | unfold n; lia].
      f_equal. cbn [blank_step st1 markerLine labelLine fst snd].
      replace (c' - (c + 1) <? Z.of_nat (String.length l) + 1) with false
        by (symmetry; apply Z.ltb_ge; lia).
      replace (Z.of_nat (String.length l) + 1 <=? c' - (c + 1)) with true
        by (symmetry; apply Z.leb_le; lia).
      rewrite <- !app_assoc. cbn [app].
      f_equal; f_equal; f_equal.
      * rewrite app_assoc, spaces_add. do 2 f_equal. unfold n. lia.
      * do 3 f_equal. unfold n. lia.
    + set (st1 := {| markerLine := markerLine st ++ [Sep];
                     labelLine := labelLine st ++ [Sep];
                     currentPos := c + 1;
                     tsIndex := S k |}).
      set (n := Z.to_nat (c' - (c + 1))).
      replace fuel with (n + (fuel - n))%nat by (unfold n; lia).
      rewrite (axisLoop_blanks n _ st1 ts' c') by (unfold st1, n; cbn [tsIndex currentPos]; (assumption || lia)).
      rewrite (IH (S k) (blank_step n st1) (fuel - n)%nat c' l' rest'');
        try reflexivity; try assumption;
        [|unfold st1, n; cbn [blank_step currentPos]; lia | split; [lia | split; assumption] | unfold n; lia].
      f_equal. cbn [blank_step st1 markerLine labelLine fst snd].
      replace (Z.of_nat (String.length l) + 1 <=? c' - (c + 1)) with false
        by (symmetry; apply Z.leb_gt; lia).
      rewrite <- !app_assoc. reflexivity.
Qed.

Lemma axisTail_done fuel st :
  limit < currentPos st -> axisTail limit fuel st = st.
Proof.
  intros H. destruct fuel as [|fuel]; [reflexivity|]. cbn [axisTail].
  replace (currentPos st <=? limit) with false by (symmetry; apply Z.leb_gt; lia).
  reflexivity.
Qed.

End AxisLoop.

(** ** The two lines of the axis *)

Lemma length_spaces n : length (spaces n) = n.
Proof. apply length_replicate. Qed.

Lemma ascending_head limit c l rest :
  ascending limit ((c, l) :: rest) -> forall k c' l', rest !! k = Some (c', l') -> c < c'.
Proof.
  revert c l. induction rest as [|[c1 l1] rest IH]; intros c l Hasc k c' l' Hk.
  - rewrite lookup_nil in Hk. discriminate.
  - destruct Hasc as (_ & Hlt & Hasc). destruct k as [|k].
    + injection Hk as <- <-. exact Hlt.
    + simpl in Hk. specialize (IH c1 l1 Hasc k c' l' Hk). lia.
Qed.

Lemma drop_behind (pad : text) c (rest : text) :
  0 <= c -> length pad = Z.to_nat c ->
  drop (Z.to_nat (c + 1)) (pad ++ Sep :: rest) = rest.
Proof.
  intros Hc Hpad.
  replace (pad ++ Sep :: rest) with ((pad ++ [Sep]) ++ rest)
    by (rewrite <- app_assoc; reflexivity).
  replace (Z.to_nat (c + 1)) with (length (pad ++ [Sep]))
    by (rewrite length_app; simpl; lia).
  apply drop_app_length.
Qed.

(** The lines built on a padding of [c0] columns, for timestamps that
    begin at column [c0]: separators stand at the columns of the
    timestamps and, outside the padding, nowhere else; a label that is
    written stands behind its separator and ends in front of the next
    one; a label that is not written leaves blanks. *)
Lemma axis_segments_columns limit (pad1 pad2 : text) c0 l0 rest :
  let view := (c0, l0) :: rest in
  ascending limit view ->
  0 <= c0 -> length pad1 = Z.to_nat c0 -> length pad2 = Z.to_nat c0 ->
  let markerLine := pad1 ++ (axis_segments view).1 in
  let labelLine := pad2 ++ (axis_segments view).2 in
  length markerLine = Z.to_nat (axis_end view)
  /\ length labelLine = Z.to_nat (axis_end view)
  /\ (forall k c l, view !! k = Some (c, l) ->
        markerLine !! Z.to_nat c = Some Sep /\ labelLine !! Z.to_nat c = Some Sep
        /\ (label_placed view k -> stands_at labelLine (c + 1) (text_of_string l))
        /\ (forall c' l', view !! S k = Some (c', l') ->
              ~ label_placed view k ->
              stands_at labelLine (c + 1) (spaces (Z.to_nat (c' - (c + 1))))))
  /\ (forall j, (length pad1 <= j)%nat -> markerLine !! j = Some Sep ->
        exists k l, view !! k = Some (Z.of_nat j, l))
  /\ (forall j, (length pad2 <= j)%nat -> labelLine !! j = Some Sep ->
        exists k l, view !! k = Some (Z.of_nat j, l)).
Proof.
  cbv zeta. revert pad1 pad2 c0 l0.
  induction rest as [|[c' l'] rest IH]; intros pad1 pad2 c0 l0 Hasc Hc0 Hp1 Hp2.
  - (* the last timestamp *)
    cbn [axis_segments fst snd]. cbv zeta. unfold axis_end. cbn [last].
    rewrite !length_app. cbn [length]. rewrite length_spaces, length_text_of_string.
    split; [lia|]. split; [lia|]. split; [|split].
    + intros k c l Hk. destruct k as [|k]; [|rewrite lookup_cons, lookup_nil in Hk; discriminate].
      injection Hk as <- <-.
      split; [|split; [|split]].
      * rewrite lookup_app_r by lia. rewrite Hp1, Nat.sub_diag. reflexivity.
      * rewrite lookup_app_r by lia. rewrite Hp2, Nat.sub_diag. reflexivity.
      * intros _. unfold stands_at.
        rewrite drop_behind by assumption. apply firstn_all.
      * intros c' l' Hk. discriminate.
    + intros j Hj Hsep. rewrite lookup_app_r in Hsep by exact Hj.
      destruct (j - length pad1)%nat as [|i] eqn:Hi.
      * exists O, l0. simpl. do 2 f_equal. lia.
      * simpl in Hsep. exfalso. exact (spaces_no_Sep _ _ Hsep).
    + intros j Hj Hsep. rewrite lookup_app_r in Hsep by exact Hj.
      destruct (j - length pad2)%nat as [|i] eqn:Hi.
      * exists O, l0. simpl. do 2 f_equal. lia.
      * simpl in Hsep. exfalso. exact (text_of_string_no_Sep _ _ Hsep).
  - (* a timestamp with a next one *)
    destruct Hasc as (Hlim & Hlt & Hasc).
    rewrite axis_segments_cons, axis_end_cons. cbn [fst snd]. cbv zeta.
    set (gap := Z.to_nat (c' - (c0 + 1))).
    set (seg2 := if Z.of_nat (String.length l0) + 1 <=? c' - (c0 + 1)
                 then text_of_string l0 ++ spaces (gap - String.length l0)
                 else spaces gap).
    assert (Hseg2 : length seg2 = gap).
    { unfold seg2. destruct (Z.leb_spec (Z.of_nat (String.length l0) + 1) (c' - (c0 + 1))).
      - rewrite length_app, length_text_of_string, length_spaces. unfold gap. lia.
      - apply length_spaces. }
    assert (Hnosep2 : forall i, seg2 !! i <> Some Sep).
    { intros i. unfold seg2. destruct (_ <=? _).
      - intros H. apply lookup_app_Some in H as [H|[_ H]].
        + exact (text_of_string_no_Sep _ _ H).
        + exact (spaces_no_Sep _ _ H).
      - apply spaces_no_Sep. }
    set (pad1' := pad1 ++ Sep :: spaces gap).
    set (pad2' := pad2 ++ Sep :: seg2).
    assert (Hp1' : length pad1' = Z.to_nat c').
    { unfold pad1'. rewrite length_app. cbn [length]. rewrite length_spaces. unfold gap. lia. }
    assert (Hp2' : length pad2' = Z.to_nat c').
    { unfold pad2'. rewrite length_app. cbn [length]. rewrite Hseg2. unfold gap. lia. }
    specialize (IH pad1' pad2' c' l' Hasc ltac:(lia) Hp1' Hp2').
    set (segments := axis_segments ((c', l') :: rest)) in *.
    replace (pad1 ++ Sep :: spaces gap ++ segments.1) with (pad1' ++ segments.1)
      by (unfold pad1'; rewrite <- app_assoc; reflexivity).
    replace (pad2 ++ Sep :: seg2 ++ segments.2) with (pad2' ++ segments.2)
      by (unfold pad2'; rewrite <- app_assoc; reflexivity).
    destruct IH as (IHlen1 & IHlen2 & IHcols & IHsep1 & IHsep2).
    split; [exact IHlen1|]. split; [exact IHlen2|]. split; [|split].
    + intros k c l Hk. destruct k as [|k].
      * injection Hk as <- <-.
        split; [|split; [|split]].
        -- rewrite lookup_app_l by lia. unfold pad1'.
           rewrite lookup_app_r by lia. rewrite Hp1, Nat.sub_diag. reflexivity.
        -- rewrite lookup_app_l by lia. unfold pad2'.
           rewrite lookup_app_r by lia. rewrite Hp2, Nat.sub_diag. reflexivity.
        -- unfold label_placed. cbn [lookup list_lookup]. intros Hfits.
           unfold stands_at, pad2', seg2.
           replace (Z.of_nat (String.length l0) + 1 <=? c' - (c0 + 1)) with true
             by (symmetry; apply Z.leb_le; exact Hfits).
           rewrite <- !app_assoc. cbn [app]. rewrite drop_behind by assumption.
           rewrite <- !app_assoc. apply take_app_length.
        -- intros c'' l'' Hnext Hnot. injection Hnext as <- <-.
           unfold label_placed in Hnot. cbn [lookup list_lookup] in Hnot.
           unfold stands_at, pad2', seg2.
           replace (Z.of_nat (String.length l0) + 1 <=? c' - (c0 + 1)) with false
             by (symmetry; apply Z.leb_gt; lia).
           rewrite <- !app_assoc. cbn [app]. rewrite drop_behind by assumption.
           fold gap. apply take_app_length.
      * cbn [lookup list_lookup] in Hk.
        destruct (IHcols k c l Hk) as (H1 & H2 & H3 & H4).
        split; [exact H1|]. split; [exact H2|]. split; [exact H3 | exact H4].
    + intros j Hj Hsep.
      destruct (decide (j < length pad1')%nat) as [Hin|Hout].
      * rewrite lookup_app_l in Hsep by exact Hin. unfold pad1' in Hsep.
        rewrite lookup_app_r in Hsep by exact Hj.
        destruct (j - length pad1)%nat as [|i] eqn:Hi.
        -- exists O, l0. simpl. do 2 f_equal. lia.
        -- simpl in Hsep. exfalso. exact (spaces_no_Sep _ _ Hsep).
      * destruct (IHsep1 j ltac:(lia) Hsep) as (k & l & Hk). exists (S k), l. exact Hk.
    + intros j Hj Hsep.
      destruct (decide (j < length pad2')%nat) as [Hin|Hout].
      * rewrite lookup_app_l in Hsep by exact Hin. unfold pad2' in Hsep.
        rewrite lookup_app_r in Hsep by exact Hj.
        destruct (j - length pad2)%nat as [|i] eqn:Hi.
        -- exists O, l0. simpl. do 2 f_equal. lia.
        -- simpl in Hsep. exfalso. exact (Hnosep2 _ Hsep).
      * destruct (IHsep2 j ltac:(lia) Hsep) as (k & l & Hk). exists (S k), l. exact Hk.
Qed.

(** ** Rows and axis of a scaled renderer *)

(** A row is its gutter, then more than [width] columns in which a
    separator stands exactly at the marker positions, then possibly
    the flushed label. *)
Lemma renderTaskRow_columns dim this task markers width :
  timeToChars this (F64.of_number (totalDuration this)) = Int width ->
  0 <= width ->
  exists row body tail,
    renderTaskRow dim this task markers = Returns row
    /\ visible row = gutterOf this task ++ body ++ tail
    /\ width < Z.of_nat (length body)
    /\ (forall c, (c < length body)%nat ->
          body !! c = Some Sep <-> marker_col markers (Z.of_nat c) = true)
    /\ forall j, tail !! j <> Some Sep.
Proof.
  intros Hwidth Hpos. unfold renderTaskRow. rewrite Hwidth. cbv zeta.
  set (start := {| row_line := [Styled gray (padEnd (text_of_string (taskId task)) (labelWidth this))];
                   pendingLabel := None |}).
  assert (Hstart : row_inv markers (gutterOf this task) 0 start).
  { exists []. split; [|split].
    - unfold start, gutterOf. cbn. rewrite !app_nil_r. reflexivity.
    - reflexivity.
    - intros c Hc. simpl in Hc. lia. }
  destruct (rowLoop_inv dim (getTaskColor this task)
              (formatDuration (Num.sub (Int (endTime task)) (Int (startTime task))))
              (b_start (getTaskBarBounds this task)) (b_end (getTaskBarBounds this task))
              width markers (gutterOf this task) (Z.to_nat (width + 1)) 0 start
              Hstart ltac:(lia) ltac:(lia)) as (i' & Hi' & Hinv).
  destruct (flush_inv dim markers (gutterOf this task) i' _ Hinv)
    as (body & tail & Hvis & Hlen & Hsep & Htail).
  eexists _, body, tail. split; [reflexivity|].
  split; [exact Hvis|]. split; [lia|]. split; [exact Hsep | exact Htail].
Qed.

(** The timestamps of a scaled renderer, by column and label. *)
Lemma getTimestamps_view tasks this first duration gutter width :
  scaled tasks this first duration gutter width ->
  exists view c0 l0 rest,
    Forall2 viewed (getTimestamps this) view
    /\ view = (c0, l0) :: rest
    /\ c0 = gutter
    /\ ascending (gutter + width) view
    /\ (exists l, last view = Some (gutter + width, l))
    /\ length view = 9%nat.
Proof.
  intros Hs.
  destruct (getTimestamps_scaled _ _ _ _ _ _ Hs)
    as (c2 & c4 & c6 & l0 & l1 & l2 & l3 & l4 & l5 & l6 & l7 & l8 & Hc2 & Hc4 & Hc6 & Hts).
  pose proof (scaled_width_range _ _ _ _ _ _ Hs) as Hw.
  eexists [(gutter + 0, l0); (gutter + 12, l1); (gutter + c2, l2); (gutter + 37, l3);
           (gutter + c4, l4); (gutter + 62, l5); (gutter + c6, l6); (gutter + 87, l7);
           (gutter + width, l8)], _, _, _.
  split; [|split; [reflexivity|split; [|split; [|split]]]].
  - rewrite Hts. repeat (constructor; [split; reflexivity|]). constructor.
  - lia.
  - cbn [ascending]. repeat split; lia.
  - exists l8. reflexivity.
  - reflexivity.
Qed.

(** The axis of a scaled renderer is the padding followed by the
    segments of its timestamps. *)
Lemma renderTimeAxis_scaled dim tasks this first duration gutter width view :
  scaled tasks this first duration gutter width ->
  Forall2 viewed (getTimestamps this) view ->
  match view with (c0, _) :: _ => c0 = gutter | [] => False end ->
  ascending (gutter + width) view ->
  (exists l, last view = Some (gutter + width, l)) ->
  renderTimeAxis dim this
  = Returns (axisString dim
               (spaces (Z.to_nat gutter) ++ (axis_segments view).1)
               (spaces (Z.to_nat gutter) ++ (axis_segments view).2)).
Proof.
  intros Hs Hview Hhead Hasc (l8 & Hlast).
  pose proof (scaled_gutter_range _ _ _ _ _ _ Hs) as Hg.
  pose proof (scaled_width_range _ _ _ _ _ _ Hs) as Hw.
  unfold renderTimeAxis. rewrite (scaled_gutter _ _ _ _ _ _ Hs), (scaled_width _ _ _ _ _ _ Hs).
  cbn [repeat_space Num.add].
  replace (gutter <? 0) with false by (symmetry; apply Z.ltb_ge; lia).
  cbv zeta.
  destruct view as [|[c0 l0] rest]; [contradiction|]. subst c0.
  set (start := {| markerLine := spaces (Z.to_nat gutter);
                   labelLine := spaces (Z.to_nat gutter);
                   currentPos := gutter; tsIndex := 0 |}).
  rewrite (axisLoop_segments (getTimestamps this) (gutter + width) ((gutter, l0) :: rest) Hview
             ((gutter, l0) :: rest) O start (Z.to_nat (gutter + width + 1 - gutter))
             gutter l0 rest eq_refl eq_refl eq_refl eq_refl Hasc ltac:(lia)).
  rewrite axisTail_done.
  - reflexivity.
  - cbn [currentPos]. unfold axis_end. rewrite Hlast. lia.
Qed.

(** ** The right edge *)

Lemma marker_col_iff markers c :
  marker_col markers c = true <-> Int c ∈ markers.
Proof.
  unfold marker_col, Num.includes. rewrite existsb_exists. split.
  - intros (pos & Hin & Hsame). apply includes_Int in Hsame as ->.
    apply list_elem_of_In. exact Hin.
  - intros Hin. exists (Int c). split; [apply list_elem_of_In; exact Hin|].
    simpl. apply Z.eqb_refl.
Qed.

(** The marker positions of a scaled renderer lie between 0 and the
    width, which is one of them. *)
Lemma markers_scaled tasks this first duration gutter width :
  scaled tasks this first duration gutter width ->
  marker_col (getMarkerPositions this) width = true
  /\ (forall c, marker_col (getMarkerPositions this) c = true -> 0 <= c <= width)
  /\ last (getMarkerPositions this) = Some (Int width).
Proof.
  intros Hs. pose proof (scaled_width_range _ _ _ _ _ _ Hs) as Hw.
  rewrite (getMarkerPositions_scaled _ _ _ _ _ _ Hs).
  split; [|split].
  - apply marker_col_iff. apply list_elem_of_fmap. exists 8. split.
    + f_equal. rewrite Z.mul_comm, Z.div_mul by lia. reflexivity.
    + unfold marker_indices. vm_compute. repeat constructor.
  - intros c Hc. apply marker_col_iff in Hc. apply list_elem_of_fmap in Hc as (i & Hi & Hin).
    injection Hi as ->.
    assert (Hrange : 0 <= i <= 8).
    { unfold marker_indices in Hin. apply list_elem_of_fmap in Hin as (n & -> & Hn).
      apply elem_of_seq in Hn. change (Z.to_nat CONFIG.NUM_TIME_MARKERS + 1)%nat with 9%nat in Hn.
      lia. }
    split.
    + apply Z.div_pos; nia.
    + apply Z.div_le_upper_bound; nia.
  - rewrite fmap_last. change (last marker_indices) with (Some 8). cbn [fmap option_fmap option_map].
    do 2 f_equal. rewrite Z.mul_comm, Z.div_mul by lia. reflexivity.
Qed.

Lemma padEnd_no_Sep s n j : padEnd (text_of_string s) n !! j <> Some Sep.
Proof.
  unfold padEnd. destruct n as [| |g]; try apply text_of_string_no_Sep.
  intros H. apply lookup_app_Some in H as [H|[_ H]].
  - exact (text_of_string_no_Sep _ _ H).
  - exact (spaces_no_Sep _ _ H).
Qed.

Lemma length_padEnd s g :
  length (padEnd (text_of_string s) (Int g))
  = Nat.max (Z.to_nat g) (String.length s).
Proof.
  unfold padEnd. rewrite length_app, length_spaces, length_text_of_string. lia.
Qed.

(** In a row of a scaled renderer the last separator stands [width]
    columns behind the gutter. *)
Lemma renderTaskRow_lastSep dim tasks this first duration gutter width task :
  scaled tasks this first duration gutter width ->
  exists row,
    renderTaskRow dim this task (getMarkerPositions this) = Returns row
    /\ lastSep (visible row)
       = Some (Nat.max (Z.to_nat gutter) (String.length (taskId task)) + Z.to_nat width)%nat.
Proof.
  intros Hs. pose proof (scaled_width_range _ _ _ _ _ _ Hs) as Hw.
  destruct (markers_scaled _ _ _ _ _ _ Hs) as (Hlast & Hrange & _).
  destruct (renderTaskRow_columns dim this task (getMarkerPositions this) width
              (scaled_width _ _ _ _ _ _ Hs) ltac:(lia))
    as (row & body & tail & Hrow & Hvis & Hlen & Hsep & Htail).
  exists row. split; [exact Hrow|]. rewrite Hvis.
  assert (HG : length (gutterOf this task)
               = Nat.max (Z.to_nat gutter) (String.length (taskId task))).
  { unfold gutterOf. rewrite (scaled_gutter _ _ _ _ _ _ Hs). apply length_padEnd. }
  rewrite <- HG. apply lastSep_at.
  - rewrite lookup_app_r by lia.
    replace (length (gutterOf this task) + Z.to_nat width - length (gutterOf this task))%nat
      with (Z.to_nat width) by lia.
    rewrite lookup_app_l by lia. apply Hsep; [lia|].
    rewrite Z2Nat.id by lia. exact Hlast.
  - intros j Hj Hsepj. rewrite lookup_app_r in Hsepj by lia.
    apply lookup_app_Some in Hsepj as [Hb|[_ Ht]].
    + pose proof (lookup_lt_Some _ _ _ Hb) as Hlt.
      apply Hsep in Hb; [|exact Hlt]. apply Hrange in Hb. lia.
    + exact (Htail _ Ht).
Qed.

Lemma ascending_le limit view k c l :
  ascending limit view -> view !! k = Some (c, l) -> c <= limit.
Proof.
  revert k. induction view as [|[c0 l0] view IH]; intros k Hasc Hk; [discriminate|].
  destruct Hasc as (Hle & _ & Hasc). destruct k as [|k].
  - injection Hk as <- <-. exact Hle.
  - exact (IH k Hasc Hk).
Qed.

Lemma ascending_lt limit view k k' c l c' l' :
  ascending limit view -> (k < k')%nat ->
  view !! k = Some (c, l) -> view !! k' = Some (c', l') -> c < c'.
Proof.
  revert k k'. induction view as [|[c0 l0] view IH]; intros k k' Hasc Hlt Hk Hk'; [discriminate|].
  destruct k' as [|k']; [lia|]. destruct k as [|k].
  - injection Hk as <- <-. exact (ascending_head limit c0 l0 view Hasc k' c' l' Hk').
  - destruct Hasc as (_ & _ & Hasc). apply (IH k k' Hasc); [lia | exact Hk | exact Hk'].
Qed.

(** On both lines of the axis the last separator stands at the column
    of the last timestamp. *)
Lemma axis_lastSep limit g view c0 l0 rest cl ll :
  view = (c0, l0) :: rest -> c0 = Z.of_nat g ->
  ascending limit view -> last view = Some (cl, ll) ->
  lastSep (spaces g ++ (axis_segments view).1) = Some (Z.to_nat cl)
  /\ lastSep (spaces g ++ (axis_segments view).2) = Some (Z.to_nat cl).
Proof.
  intros -> -> Hasc Hlast.
  destruct (axis_segments_columns limit (spaces g) (spaces g) (Z.of_nat g) l0 rest Hasc
              ltac:(lia) ltac:(rewrite length_spaces; lia) ltac:(rewrite length_spaces; lia))
    as (_ & _ & Hcols & Hsep1 & Hsep2).
  cbv zeta in *.
  apply last_Some in Hlast as (front & Hfront).
  assert (Hk : ((Z.of_nat g, l0) :: rest) !! length front = Some (cl, ll)).
  { rewrite Hfront. rewrite lookup_app_r by lia. rewrite Nat.sub_diag. reflexivity. }
  assert (Hall : forall k c l, ((Z.of_nat g, l0) :: rest) !! k = Some (c, l) ->
                   Z.of_nat g <= c <= cl).
  { intros k c l Hkc. split.
    - destruct k as [|k]; [injection Hkc as <- <-; lia|].
      pose proof (ascending_lt limit _ O (S k) _ _ _ _ Hasc ltac:(lia) eq_refl Hkc). lia.
    - destruct (decide (k = length front)) as [->|Hne]; [rewrite Hk in Hkc; injection Hkc as <- <-; lia|].
      pose proof (lookup_lt_Some _ _ _ Hkc) as Hlt. rewrite Hfront, length_app in Hlt.
      simpl in Hlt.
      pose proof (ascending_lt limit _ k (length front) _ _ _ _ Hasc ltac:(lia) Hkc Hk). lia. }
  destruct (Hcols _ _ _ Hk) as (Hm & Hl & _).
  split; apply lastSep_at; try assumption.
  - intros j Hj Hsep.
    destruct (decide (j < g)%nat) as [Hin|Hout].
    + rewrite lookup_app_l in Hsep by (rewrite length_spaces; lia).
      exact (spaces_no_Sep _ _ Hsep).
    + destruct (Hsep1 j ltac:(rewrite length_spaces; lia) Hsep) as (k & l & Hkj).
      apply Hall in Hkj. lia.
  - intros j Hj Hsep.
    destruct (decide (j < g)%nat) as [Hin|Hout].
    + rewrite lookup_app_l in Hsep by (rewrite length_spaces; lia).
      exact (spaces_no_Sep _ _ Hsep).
    + destruct (Hsep2 j ltac:(rewrite length_spaces; lia) Hsep) as (k & l & Hkj).
      apply Hall in Hkj. lia.
Qed.

Lemma late_chart_epoch : Forall epoch [long_task; late_task].
Proof. repeat constructor; simpl; lia. Qed.

(** ** Bar bounds *)

(** C7.  For a task of a list whose times are millisecond counts below
    2^53 and whose total duration is positive, the bar starts at a
    column that is not negative and is at least MIN_BAR_WIDTH = 3
    columns wide, also where the task's own duration projects to
    nothing; the bar ends at start plus width. *)
Theorem bar_starts_in_chart_with_min_width (tasks : list SummaryTask) (task : SummaryTask) :
  Forall epoch tasks -> task ∈ tasks ->
  Num.ltb (Int 0) (totalDuration (new_TimelineRenderer tasks CONFIG.TIMELINE_WIDTH)) = true ->
  exists barStart width,
    getTaskBarBounds (new_TimelineRenderer tasks CONFIG.TIMELINE_WIDTH) task
    = {| b_start := Int barStart; b_end := Int (barStart + width) |}
    /\ barWidth (new_TimelineRenderer tasks CONFIG.TIMELINE_WIDTH) task = Int width
    /\ 0 <= barStart
    /\ CONFIG.MIN_BAR_WIDTH <= width.
Proof.
  intros Hepoch Hin Hpos.
  assert (Hne : tasks <> []) by (intros ->; inversion Hin).
  destruct (new_TimelineRenderer_scaled tasks Hne Hepoch Hpos)
    as (first & duration & gutter & width & Hs).
  assert (Htask : epoch task) by (rewrite List.Forall_forall in Hepoch; apply Hepoch, list_elem_of_In, Hin).
  destruct (bar_bounds_scaled _ _ _ _ _ _ task Hs Hin Htask)
    as (barStart & projected & Hb & Hw & Hstart).
  exists barStart, (Z.max CONFIG.MIN_BAR_WIDTH projected).
  split; [exact Hb|]. split; [exact Hw|]. split; [exact Hstart | lia].
Qed.

Lemma bar_starts_in_chart_with_min_width_witness :
  exists barStart width,
    getTaskBarBounds late_chart late_task
    = {| b_start := Int barStart; b_end := Int (barStart + width) |}
    /\ barWidth late_chart late_task = Int width
    /\ 0 <= barStart
    /\ CONFIG.MIN_BAR_WIDTH <= width.
Proof.
  apply (bar_starts_in_chart_with_min_width [long_task; late_task] late_task).
  - exact late_chart_epoch.
  - apply elem_of_cons. right. apply elem_of_cons. left. reflexivity.
  - vm_compute. reflexivity.
Defined.

(** ** Labels and markers *)

(** A label that is written ends, with one blank to spare, in front of
    every later separator. *)
Lemma label_placed_ends limit view k k' c l c' l' :
  ascending limit view -> (k < k')%nat ->
  view !! k = Some (c, l) -> view !! k' = Some (c', l') ->
  label_placed view k ->
  c + 1 + Z.of_nat (String.length l) < c'.
Proof.
  intros Hasc Hlt Hk Hk' Hplaced. unfold label_placed in Hplaced. rewrite Hk in Hplaced.
  destruct (view !! S k) as [[c1 l1]|] eqn:Hnext.
  - destruct (decide (S k = k')) as [<-|Hne].
    + rewrite Hnext in Hk'. injection Hk' as <- <-. lia.
    + pose proof (ascending_lt limit view (S k) k' _ _ _ _ Hasc ltac:(lia) Hnext Hk'). lia.
  - apply lookup_ge_None in Hnext. apply lookup_lt_Some in Hk'. lia.
Qed.

Lemma rowStep_pending_after dim bg durationLabel barStart barEnd markers i st :
  pending_after barEnd i st ->
  pending_after barEnd
    ((rowStep dim bg durationLabel barStart barEnd markers i st).1 + 1)
    (rowStep dim bg durationLabel barStart barEnd markers i st).2.
Proof.
  intros Hinv pending. unfold rowStep.
  destruct (placement markers i st) as [placed|]; cbn [fst snd pendingLabel]; [discriminate|].
  destruct (pendingLabel st) as [waiting|] eqn:Hst.
  - intros _. specialize (Hinv waiting Hst).
    destruct barEnd as [|[]|e]; cbn [Num.ltb] in *; try congruence.
    apply Z.ltb_lt. apply Z.ltb_lt in Hinv. lia.
  - destruct (Num.eqb (Int i) barEnd) eqn:Heq; [|discriminate].
    intros _. destruct barEnd as [|[]|e]; cbn [Num.eqb] in Heq; try discriminate.
    apply Z.eqb_eq in Heq. subst e. cbn [Num.ltb]. apply Z.ltb_lt. lia.
Qed.

(** C4.  In the chart of a list whose times are millisecond counts
    below 2^53 and whose total duration is positive: the row loop
    commits a pending label at a column only if no marker position
    falls on the columns the label takes, and a label is pending only
    at columns behind the end of the bar; in the row of every task a
    separator stands on every marker column and nowhere else, so that
    no character of a label stands on one (what is flushed behind the
    row has no separator either and lies beyond the last marker); and
    on the label line of the axis every label that is written stands
    behind its own separator and ends in front of the separator of
    every later timestamp, so that no two of them share a column,
    and a label that is not written leaves blanks up to the next
    separator. *)
Theorem labels_avoid_markers_and_each_other (dim : style) (tasks : list SummaryTask) :
  tasks <> [] -> Forall epoch tasks ->
  Num.ltb (Int 0) (totalDuration (new_TimelineRenderer tasks CONFIG.TIMELINE_WIDTH)) = true ->
  let this := new_TimelineRenderer tasks CONFIG.TIMELINE_WIDTH in
  let markers := getMarkerPositions this in
  (forall i st pending,
      placement markers i st = Some pending ->
      forall c, i <= c < i + Z.of_nat (String.length pending) ->
        Num.includes markers (Int c) = false)
  /\ (forall bg durationLabel barStart barEnd i st,
        pending_after barEnd i st ->
        pending_after barEnd
          ((rowStep dim bg durationLabel barStart barEnd markers i st).1 + 1)
          (rowStep dim bg durationLabel barStart barEnd markers i st).2)
  /\ (forall task, task ∈ tasks ->
        exists row body tail,
          renderTaskRow dim this task markers = Returns row
          /\ visible row = gutterOf this task ++ body ++ tail
          /\ (forall c, (c < length body)%nat ->
                body !! c = Some Sep <-> Num.includes markers (Int (Z.of_nat c)) = true)
          /\ (forall c, Num.includes markers (Int c) = true ->
                0 <= c < Z.of_nat (length body))
          /\ forall j, tail !! j <> Some Sep)
  /\ exists view markerLine labelLine,
       Forall2 viewed (getTimestamps this) view
       /\ renderTimeAxis dim this = Returns (axisString dim markerLine labelLine)
       /\ (forall k c l, view !! k = Some (c, l) -> label_placed view k ->
             stands_at labelLine (c + 1) (text_of_string l)
             /\ forall k' c' l', (k < k')%nat -> view !! k' = Some (c', l') ->
                  labelLine !! Z.to_nat c' = Some Sep
                  /\ c + 1 + Z.of_nat (String.length l) < c')
       /\ forall k c l c' l',
            view !! k = Some (c, l) -> view !! S k = Some (c', l') ->
            ~ label_placed view k ->
            stands_at labelLine (c + 1) (spaces (Z.to_nat (c' - (c + 1)))).
Proof.
  intros Hne Hepoch Hpos this markers.
  destruct (new_TimelineRenderer_scaled tasks Hne Hepoch Hpos)
    as (first & duration & gutter & width & Hs). fold this in Hs.
  pose proof (scaled_width_range _ _ _ _ _ _ Hs) as Hw.
  pose proof (scaled_gutter_range _ _ _ _ _ _ Hs) as Hg.
  split; [|split; [|split]].
  - intros i st pending Hplace. exact (proj2 (proj2 (placement_free markers i st pending Hplace))).
  - intros bg durationLabel barStart barEnd i st. apply rowStep_pending_after.
  - intros task _.
    destruct (renderTaskRow_columns dim this task markers width
                (scaled_width _ _ _ _ _ _ Hs) ltac:(lia))
      as (row & body & tail & Hrow & Hvis & Hlen & Hsep & Htail).
    exists row, body, tail. split; [exact Hrow|]. split; [exact Hvis|].
    split; [exact Hsep|]. split; [|exact Htail].
    intros c Hc. destruct (markers_scaled _ _ _ _ _ _ Hs) as (_ & Hrange & _).
    apply Hrange in Hc. lia.
  - destruct (getTimestamps_view _ _ _ _ _ _ Hs)
      as (view & c0 & l0 & rest & Hview & Heq & Hc0 & Hasc & Hlast & _).
    exists view, (spaces (Z.to_nat gutter) ++ (axis_segments view).1),
      (spaces (Z.to_nat gutter) ++ (axis_segments view).2).
    split; [exact Hview|]. split.
    + apply (renderTimeAxis_scaled dim tasks this first duration gutter width view Hs Hview);
        [rewrite Heq; exact Hc0 | exact Hasc | exact Hlast].
    + subst view c0.
      destruct (axis_segments_columns (gutter + width) (spaces (Z.to_nat gutter))
                  (spaces (Z.to_nat gutter)) gutter l0 rest Hasc ltac:(lia)
                  ltac:(apply length_spaces) ltac:(apply length_spaces))
        as (_ & _ & Hcols & _).
      cbv zeta in Hcols.
      split.
      * intros k c l Hk Hplaced. split.
        -- exact (proj1 (proj2 (proj2 (Hcols k c l Hk))) Hplaced).
        -- intros k' c' l' Hlt Hk'. split.
           ++ exact (proj1 (proj2 (Hcols k' c' l' Hk'))).
           ++ exact (label_placed_ends _ _ _ _ _ _ _ _ Hasc Hlt Hk Hk' Hplaced).
      * intros k c l c' l' Hk Hnext Hnot.
        exact (proj2 (proj2 (proj2 (Hcols k c l Hk))) c' l' Hnext Hnot).
Qed.

Lemma labels_avoid_markers_and_each_other_witness :
  exists row body tail,
    renderTaskRow dim_style late_chart late_task (getMarkerPositions late_chart) = Returns row
    /\ visible row = gutterOf late_chart late_task ++ body ++ tail
    /\ (forall c, (c < length body)%nat ->
          body !! c = Some Sep
          <-> Num.includes (getMarkerPositions late_chart) (Int (Z.of_nat c)) = true).
Proof.
  destruct (labels_avoid_markers_and_each_other dim_style [long_task; late_task])
    as (_ & _ & Hrows & _).
  - discriminate.
  - exact late_chart_epoch.
  - vm_compute. reflexivity.
  - destruct (Hrows late_task) as (row & body & tail & Hrow & Hvis & Hsep & _).
    + apply elem_of_cons. right. apply elem_of_cons. left. reflexivity.
    + exists row, body, tail. split; [exact Hrow|]. split; [exact Hvis | exact Hsep].
Defined.

(** ** The right edge of the chart *)

(** C6, as the specification states it, fails: the identifier of
    [wide_task] has 47 characters, the gutter is capped at 45, and
    [padEnd] does not cut the identifier; in the row of that task the
    last separator stands at column 147, on both lines of the axis (and
    in the row of [long_task]) at column 145. *)
Lemma wide_identifier_shifts_right_edge :
  ~ (forall task row markerLine labelLine,
       task ∈ [long_task; wide_task] ->
       renderTaskRow dim_style wide_chart task (getMarkerPositions wide_chart) = Returns row ->
       renderTimeAxis dim_style wide_chart = Returns (axisString dim_style markerLine labelLine) ->
       lastSep (visible row) = lastSep markerLine
       /\ lastSep (visible row) = lastSep labelLine).
Proof.
  intros H.
  assert (Hrow : exists row,
             renderTaskRow dim_style wide_chart wide_task (getMarkerPositions wide_chart)
             = Returns row
             /\ lastSep (visible row) = Some 147%nat).
  { eexists. split; vm_compute; reflexivity. }
  assert (Haxis : exists markerLine labelLine,
             renderTimeAxis dim_style wide_chart
             = Returns (axisString dim_style markerLine labelLine)
             /\ lastSep markerLine = Some 145%nat).
  { eexists _, _. split; vm_compute; reflexivity. }
  destruct Hrow as (row & Hrow & Hedge).
  destruct Haxis as (markerLine & labelLine & Haxis & Hedge').
  destruct (H wide_task row markerLine labelLine) as [Heq _].
  - apply elem_of_cons. right. apply elem_of_cons. left. reflexivity.
  - exact Hrow.
  - exact Haxis.
  - rewrite Hedge, Hedge' in Heq. discriminate Heq.
Qed.

(** C6, amended.  In the chart of a list whose times are millisecond
    counts below 2^53 and whose total duration is positive, the last
    marker position is the width of the timeline and the position of the
    last timestamp is the label width plus that width.  On both lines of
    the axis the last separator stands at that column; in the row of a
    task it stands at the width behind the gutter, which is the same
    column where the identifier of the task has at most
    MAX_LABEL_WIDTH = 45 characters, and further to the right by the
    excess where it has more. *)
Theorem right_edge_aligned (dim : style) (tasks : list SummaryTask) :
  tasks <> [] -> Forall epoch tasks ->
  Num.ltb (Int 0) (totalDuration (new_TimelineRenderer tasks CONFIG.TIMELINE_WIDTH)) = true ->
  let this := new_TimelineRenderer tasks CONFIG.TIMELINE_WIDTH in
  exists gutter width : nat,
    labelWidth this = Int (Z.of_nat gutter)
    /\ timeToChars this (F64.of_number (totalDuration this)) = Int (Z.of_nat width)
    /\ last (getMarkerPositions this) = Some (Int (Z.of_nat width))
    /\ (exists l, last (getTimestamps this)
                  = Some {| pos := Int (Z.of_nat (gutter + width)); label := l |})
    /\ (exists markerLine labelLine,
          renderTimeAxis dim this = Returns (axisString dim markerLine labelLine)
          /\ lastSep markerLine = Some (gutter + width)%nat
          /\ lastSep labelLine = Some (gutter + width)%nat)
    /\ forall task, task ∈ tasks ->
         exists row,
           renderTaskRow dim this task (getMarkerPositions this) = Returns row
           /\ lastSep (visible row)
              = Some (Nat.max gutter (String.length (taskId task)) + width)%nat
           /\ ((String.length (taskId task) <= Z.to_nat CONFIG.MAX_LABEL_WIDTH)%nat ->
               lastSep (visible row) = Some (gutter + width)%nat).
Proof.
  intros Hne Hepoch Hpos this.
  destruct (new_TimelineRenderer_scaled tasks Hne Hepoch Hpos)
    as (first & duration & gutter & width & Hs). fold this in Hs.
  pose proof (scaled_width_range _ _ _ _ _ _ Hs) as Hw.
  pose proof (scaled_gutter_range _ _ _ _ _ _ Hs) as Hg.
  destruct (markers_scaled _ _ _ _ _ _ Hs) as (_ & _ & Hlastm).
  destruct (getTimestamps_view _ _ _ _ _ _ Hs)
    as (view & c0 & l0 & rest & Hview & Heq & Hc0 & Hasc & (l8 & Hlast) & _).
  exists (Z.to_nat gutter), (Z.to_nat width).
  rewrite Nat2Z.inj_add, !Z2Nat.id by lia.
  split; [exact (scaled_gutter _ _ _ _ _ _ Hs)|].
  split; [exact (scaled_width _ _ _ _ _ _ Hs)|].
  split; [exact Hlastm|]. split; [|split].
  - destruct (getTimestamps_scaled _ _ _ _ _ _ Hs)
      as (c2 & c4 & c6 & k0 & k1 & k2 & k3 & k4 & k5 & k6 & k7 & k8 & _ & _ & _ & Hts).
    exists k8. rewrite Hts. reflexivity.
  - exists (spaces (Z.to_nat gutter) ++ (axis_segments view).1),
      (spaces (Z.to_nat gutter) ++ (axis_segments view).2).
    split.
    + apply (renderTimeAxis_scaled dim tasks this first duration gutter width view Hs Hview);
        [rewrite Heq; exact Hc0 | exact Hasc | exists l8; exact Hlast].
    + replace (Z.to_nat gutter + Z.to_nat width)%nat with (Z.to_nat (gutter + width)) by lia.
      apply (axis_lastSep (gutter + width) (Z.to_nat gutter) view c0 l0 rest (gutter + width) l8
               Heq ltac:(lia) Hasc Hlast).
  - intros task Hin.
    destruct (renderTaskRow_lastSep dim tasks this first duration gutter width task Hs)
      as (row & Hrow & Hedge).
    exists row. split; [exact Hrow|]. split; [exact Hedge|].
    intros Hshort. rewrite Hedge. do 2 f_equal.
    pose proof (scaled_gutter_fits _ _ _ _ _ _ Hs task Hin) as Hfits.
    change CONFIG.MAX_LABEL_WIDTH with 45 in *. lia.
Qed.

Lemma right_edge_aligned_witness :
  exists gutter width : nat,
    labelWidth late_chart = Int (Z.of_nat gutter)
    /\ last (getMarkerPositions late_chart) = Some (Int (Z.of_nat width))
    /\ exists row,
         renderTaskRow dim_style late_chart late_task (getMarkerPositions late_chart)
         = Returns row
         /\ lastSep (visible row) = Some (gutter + width)%nat.
Proof.
  destruct (right_edge_aligned dim_style [long_task; late_task])
    as (gutter & width & Hgutter & _ & Hmarkers & _ & _ & Hrows).
  - discriminate.
  - exact late_chart_epoch.
  - vm_compute. reflexivity.
  - exists gutter, width. split; [exact Hgutter|]. split; [exact Hmarkers|].
    destruct (Hrows late_task) as (row & Hrow & _ & Hedge).
    + apply elem_of_cons. right. apply elem_of_cons. left. reflexivity.
    + exists row. split; [exact Hrow|]. apply Hedge. vm_compute. lia.
Defined.

(** ** The whole chart *)

Lemma logRows_total dim this rows markers console :
  (forall task, exists row, renderTaskRow dim this task markers = Returns row) ->
  exists lines,
    logRows dim this rows markers console = (console ++ lines, Returns tt)
    /\ Forall2 (fun task row => renderTaskRow dim this task markers = Returns row)
               rows lines.
Proof.
  intros Hrows. revert console. induction rows as [|task rows IH]; intros console.
  - exists []. rewrite app_nil_r. split; [reflexivity | constructor].
  - destruct (Hrows task) as (row & Hrow).
    destruct (IH (console ++ [row])) as (lines & Hlog & Hall).
    exists (row :: lines). cbn [logRows]. rewrite Hrow, Hlog, <- app_assoc.
    split; [reflexivity|]. constructor; assumption.
Qed.

(** For a list whose times are millisecond counts below 2^53 and whose
    total duration is positive, [render] returns, having logged one row
    for each task, in display order, and the axis after them. *)
Theorem timeline_returns (dim : style) (tasks : list SummaryTask) :
  tasks <> [] -> Forall epoch tasks ->
  Num.ltb (Int 0) (totalDuration (new_TimelineRenderer tasks CONFIG.TIMELINE_WIDTH)) = true ->
  let this := new_TimelineRenderer tasks CONFIG.TIMELINE_WIDTH in
  exists rows axis,
    timeline dim tasks = (rows ++ [axis], Returns tt)
    /\ Forall2 (fun task row =>
                  renderTaskRow dim this task (getMarkerPositions this) = Returns row)
               (groupAndSortTasks tasks) rows
    /\ renderTimeAxis dim this = Returns axis.
Proof.
  intros Hne Hepoch Hpos this.
  destruct (new_TimelineRenderer_scaled tasks Hne Hepoch Hpos)
    as (first & duration & gutter & width & Hs). fold this in Hs.
  pose proof (scaled_width_range _ _ _ _ _ _ Hs) as Hw.
  destruct (logRows_total dim this (groupAndSortTasks tasks) (getMarkerPositions this) [])
    as (rows & Hlog & Hall).
  { intros task.
    destruct (renderTaskRow_columns dim this task (getMarkerPositions this) width
                (scaled_width _ _ _ _ _ _ Hs) ltac:(lia)) as (row & _ & _ & Hrow & _).
    exists row. exact Hrow. }
  destruct (getTimestamps_view _ _ _ _ _ _ Hs)
    as (view & c0 & l0 & rest & Hview & Heq & Hc0 & Hasc & Hlast & _).
  pose proof (renderTimeAxis_scaled dim tasks this first duration gutter width view Hs Hview
                ltac:(rewrite Heq; exact Hc0) Hasc Hlast) as Haxis.
  exists rows, (axisString dim (spaces (Z.to_nat gutter) ++ (axis_segments view).1)
                          (spaces (Z.to_nat gutter) ++ (axis_segments view).2)).
  split; [|split; [exact Hall | exact Haxis]].
  unfold timeline, render. fold this. rewrite Hlog, Haxis. reflexivity.
Qed.

Lemma timeline_returns_witness :
  exists rows axis, timeline dim_style [long_task; late_task] = (rows ++ [axis], Returns tt).
Proof.
  destruct (timeline_returns dim_style [long_task; late_task]) as (rows & axis & H & _).
  - discriminate.
  - exact late_chart_epoch.
  - vm_compute. reflexivity.
  - exists rows, axis. exact H.
Defined.

(** [render] on a list that is not empty, whose times are millisecond
    counts below 2^53 and whose total duration is not negative: every
    row and the axis are built, and they are logged behind what the
    console held. *)
Lemma render_returns dim tasks console :
  tasks <> [] -> Forall epoch tasks ->
  Num.leb (Int 0) (totalDuration (new_TimelineRenderer tasks CONFIG.TIMELINE_WIDTH)) = true ->
  let this := new_TimelineRenderer tasks CONFIG.TIMELINE_WIDTH in
  exists rows axis,
    render dim this tasks console = (console ++ rows ++ [axis], Returns tt)
    /\ Forall2 (fun task row =>
                  renderTaskRow dim this task (getMarkerPositions this) = Returns row)
               (groupAndSortTasks tasks) rows
    /\ renderTimeAxis dim this = Returns axis.
Proof.
  intros Hne Hepoch Hnonneg this.
  assert (Hparts : (forall task, exists row,
                      renderTaskRow dim this task (getMarkerPositions this) = Returns row)
                   /\ exists axis, renderTimeAxis dim this = Returns axis).
  { destruct (Num.ltb (Int 0) (totalDuration this)) eqn:Hpos.
    - destruct (new_TimelineRenderer_scaled tasks Hne Hepoch Hpos)
        as (first & duration & gutter & width & Hs). fold this in Hs.
      pose proof (scaled_width_range _ _ _ _ _ _ Hs) as Hw.
      split.
      + intros task.
        destruct (renderTaskRow_columns dim this task (getMarkerPositions this) width
                    (scaled_width _ _ _ _ _ _ Hs) ltac:(lia)) as (row & _ & _ & Hrow & _).
        exists row. exact Hrow.
      + destruct (getTimestamps_view _ _ _ _ _ _ Hs)
          as (view & c0 & l0 & rest & Hview & Heq & Hc0 & Hasc & Hlast & _).
        eexists.
        exact (renderTimeAxis_scaled dim tasks this first duration gutter width view Hs Hview
                 ltac:(rewrite Heq; exact Hc0) Hasc Hlast).
    - assert (Hzero : totalDuration this = Int 0).
      { fold this in Hnonneg. destruct (totalDuration this) as [|[]|z]; try discriminate.
        cbn [Num.leb Num.ltb] in Hnonneg, Hpos. f_equal. lia. }
      destruct (Math_max_spec (fun t => Z.of_nat (String.length (taskId t))) tasks Hne)
        as (longest & Hmax & (t & _ & Hlongest) & _).
      assert (Hlabel : labelWidth this = Int (Z.min (longest + 2) CONFIG.MAX_LABEL_WIDTH)).
      { unfold this. cbn [labelWidth new_TimelineRenderer]. rewrite Hmax.
        cbn [Num.add Num.Math_min foldr Num.min2 Num.ltb].
        change CONFIG.MAX_LABEL_WIDTH with 45.
        destruct (Z.ltb_spec 45 (longest + 2)); f_equal; lia. }
      assert (Hscale : msToChars this = S754_infinity false).
      { change (msToChars this)
          with (F64.div (F64.of_Z CONFIG.TIMELINE_WIDTH) (F64.of_number (totalDuration this))).
        rewrite Hzero. reflexivity. }
      assert (Hwidth : timeToChars this (F64.of_number (totalDuration this)) = NaN).
      { unfold timeToChars. rewrite Hzero, Hscale. reflexivity. }
      split.
      + intros task. eexists. unfold renderTaskRow. rewrite Hwidth. reflexivity.
      + eexists. unfold renderTimeAxis. rewrite Hwidth, Hlabel. cbn [repeat_space Num.add].
        change CONFIG.MAX_LABEL_WIDTH with 45.
        replace (Z.min (longest + 2) 45 <? 0) with false by (symmetry; apply Z.ltb_ge; lia).
        reflexivity. }
  destruct Hparts as [Hrows (axis & Haxis)].
  destruct (logRows_total dim this (groupAndSortTasks tasks) (getMarkerPositions this) console
              Hrows) as (rows & Hlog & Hall).
  exists rows, axis. split; [|split; assumption].
  unfold render. rewrite Hlog, Haxis, <- app_assoc. reflexivity.
Qed.

(** C10.  The display sequence is a permutation of the task list: no
    task is dropped and none is duplicated.  So [render], called on a
    list that is not empty, whose times are millisecond counts below
    2^53 and whose total duration is not negative, returns and has
    logged, behind what the console held, one row for each task of the
    list, in display order, and the axis after them.  Whatever the
    renderer and the list, a call that returns has logged just that. *)
Theorem groupAndSortTasks_permutation (tasks : list SummaryTask) :
  groupAndSortTasks tasks ≡ₚ tasks
  /\ length (groupAndSortTasks tasks) = length tasks
  /\ (forall dim console,
        tasks <> [] -> Forall epoch tasks ->
        Num.leb (Int 0) (totalDuration (new_TimelineRenderer tasks CONFIG.TIMELINE_WIDTH))
        = true ->
        let this := new_TimelineRenderer tasks CONFIG.TIMELINE_WIDTH in
        exists rows axis,
          render dim this tasks console = (console ++ rows ++ [axis], Returns tt)
          /\ length rows = length tasks
          /\ Forall2 (fun task l =>
                        renderTaskRow dim this task (getMarkerPositions this) = Returns l)
                     (groupAndSortTasks tasks) rows
          /\ renderTimeAxis dim this = Returns axis)
  /\ (forall dim this console console',
        render dim this tasks console = (console', Returns tt) ->
        exists rows axis,
          console' = console ++ rows ++ [axis]
          /\ length rows = length tasks
          /\ Forall2 (fun task l =>
                        renderTaskRow dim this task (getMarkerPositions this) = Returns l)
                     (groupAndSortTasks tasks) rows
          /\ renderTimeAxis dim this = Returns axis).
Proof.
  split; [apply groupAndSortTasks_perm|].
  split; [apply Permutation_length, groupAndSortTasks_perm|].
  split.
  - intros dim console Hne Hepoch Hnonneg this.
    destruct (render_returns dim tasks console Hne Hepoch Hnonneg)
      as (rows & axis & Hrender & Hall & Haxis).
    exists rows, axis. repeat split; try assumption.
    rewrite <- (Forall2_length _ _ _ Hall).
    apply Permutation_length, groupAndSortTasks_perm.
  - intros dim this console console'. unfold render.
    destruct (logRows _ _ _ _ _) as [c [[]| |]] eqn:Hrows; [|discriminate..].
    destruct (renderTimeAxis dim this) as [axis| |] eqn:Haxis; [|discriminate..].
    intros [= <-].
    apply logRows_returns in Hrows as (rows & -> & Hall).
    exists rows, axis. rewrite <- app_assoc. repeat split; try assumption.
    rewrite <- (Forall2_length _ _ _ Hall).
    apply Permutation_length, groupAndSortTasks_perm.
Qed.

Lemma groupAndSortTasks_permutation_witness :
  exists rows axis,
    render dim_style late_chart [long_task; late_task] [] = (rows ++ [axis], Returns tt)
    /\ length rows = 2%nat.
Proof.
  destruct (groupAndSortTasks_permutation [long_task; late_task]) as (_ & _ & Hrender & _).
  destruct (Hrender dim_style []) as (rows & axis & Heq & Hlen & _).
  - discriminate.
  - exact late_chart_epoch.
  - vm_compute. reflexivity.
  - exists rows, axis. split; [exact Heq | exact Hlen].
Defined.

(** ** The width of the timeline *)

(** The timeline of a list whose times are millisecond counts below
    2^53 and whose total duration is positive is 100 columns wide, or
    99 where the product of the duration and [msToChars] rounds below
    100; the marker positions of the rows are the eighths of that
    width, rounded down. *)
Theorem timeline_width_99_or_100 (tasks : list SummaryTask) :
  tasks <> [] -> Forall epoch tasks ->
  Num.ltb (Int 0) (totalDuration (new_TimelineRenderer tasks CONFIG.TIMELINE_WIDTH)) = true ->
  let this := new_TimelineRenderer tasks CONFIG.TIMELINE_WIDTH in
  exists width,
    timeToChars this (F64.of_number (totalDuration this)) = Int width
    /\ (width = 99 \/ width = 100)
    /\ getMarkerPositions this = (fun i => Int (i * width / 8)) <$> marker_indices.
Proof.
  intros Hne Hepoch Hpos this.
  destruct (new_TimelineRenderer_scaled tasks Hne Hepoch Hpos)
    as (first & duration & gutter & width & Hs). fold this in Hs.
  pose proof (scaled_width_range _ _ _ _ _ _ Hs) as Hw.
  exists width. split; [exact (scaled_width _ _ _ _ _ _ Hs)|]. split; [lia|].
  exact (getMarkerPositions_scaled _ _ _ _ _ _ Hs).
Qed.

Lemma timeline_width_99_or_100_witness :
  exists width,
    timeToChars brief_chart (F64.of_number (totalDuration brief_chart)) = Int width
    /\ (width = 99 \/ width = 100).
Proof.
  destruct (timeline_width_99_or_100 [brief_task]) as (width & Hwidth & Hrange & _).
  - discriminate.
  - repeat constructor; simpl; lia.
  - vm_compute. reflexivity.
  - exists width. split; [exact Hwidth | exact Hrange].
Defined.

(** A timeline of 97 ms is 99 columns wide.  The rows draw their
    separators at the eighths of 99 and the axis draws them at the
    projections of the eighths of 97 ms: the sixth and the eighth
    separator of the axis stand one column to the right of those of
    the rows. *)
Theorem inner_separators_differ :
  timeToChars brief_chart (F64.of_number (totalDuration brief_chart)) = Int 99
  /\ labelWidth brief_chart = Int 8
  /\ getMarkerPositions brief_chart
     = [Int 0; Int 12; Int 24; Int 37; Int 49; Int 61; Int 74; Int 86; Int 99]
  /\ pos <$> getTimestamps brief_chart
     = [Int (8 + 0); Int (8 + 12); Int (8 + 24); Int (8 + 37); Int (8 + 49);
        Int (8 + 62); Int (8 + 74); Int (8 + 87); Int (8 + 99)].
Proof.
  repeat split; vm_compute; reflexivity.
Qed.

(** ** Sorting what is sorted *)

Lemma Array_sort_sorted_id {A} (compare : A -> A -> number) (key : A -> Z)
    (keyed : A -> Prop) (l : list A) :
  (forall x y, keyed x -> keyed y -> compare x y = Int (key x - key y)) ->
  Forall keyed l ->
  StronglySorted (fun a b => key a <= key b) l ->
  Array_sort compare l = l.
Proof.
  intros Hcompare Hl Hs. induction Hs as [|x l Hs IH Hx]; [reflexivity|].
  apply Forall_cons in Hl as [Hkx Hl].
  cbn [Array_sort foldr]. fold (Array_sort compare l). rewrite (IH Hl).
  destruct l as [|y l']; [reflexivity|]. cbn [sort_insert].
  apply Forall_cons in Hl as [Hky _]. apply Forall_cons in Hx as [Hxy _].
  rewrite (Hcompare x y Hkx Hky). cbn [Num.ltb].
  replace (0 <? key x - key y) with false by (symmetry; apply Z.ltb_ge; lia).
  reflexivity.
Qed.

Lemma filter_all {A} (P : A -> Prop) `{!forall x, Decision (P x)} (l : list A) :
  (forall x, x ∈ l -> P x) -> filter P l = l.
Proof.
  induction l as [|x l IH]; intros Hall; [reflexivity|].
  rewrite filter_cons_True by (apply Hall; left). f_equal.
  apply IH. intros y Hy. apply Hall. right. exact Hy.
Qed.

Lemma tasksOf_groupAndSortTasks tasks p :
  tasksOf p (groupAndSortTasks tasks) = sortedGroup tasks p.
Proof.
  rewrite groupAndSortTasks_blocks. fold (sortedGroups tasks).
  unfold tasksOf at 1. rewrite filter_bind_blocks.
  rewrite (bind_ext_elem _ (fun a => if decide (a.1 = p) then sortedGroup tasks p else [])).
  - rewrite bind_select by apply sortedGroups_NoDup.
    case_decide as Hp; [reflexivity|].
    symmetry. unfold sortedGroup. rewrite tasksOf_absent; [reflexivity|].
    intros t Ht Hpk. apply Hp. rewrite sortedGroups_keys.
    apply elem_of_uniquePackages. eauto.
  - intros a Ha. pose proof Ha as (_ & Hsg & _)%sortedGroups_elem.
    case_decide as Hp.
    + subst p. rewrite <- Hsg. apply filter_all.
      intros t Ht. rewrite Hsg in Ht. apply elem_of_sortedGroup in Ht. tauto.
    + apply filter_none. intros t Ht Hpk. apply Hp. rewrite <- Hpk.
      rewrite Hsg in Ht. apply elem_of_sortedGroup in Ht. symmetry. tauto.
Qed.

(** Grouping and sorting a display sequence again changes nothing. *)
Theorem groupAndSortTasks_idempotent (tasks : list SummaryTask) :
  groupAndSortTasks (groupAndSortTasks tasks) = groupAndSortTasks tasks.
Proof.
  rewrite (groupAndSortTasks_blocks (groupAndSortTasks tasks)).
  rewrite uniquePackages_groupAndSortTasks.
  assert (Hgroups : (fun p => (p, sortedGroup (groupAndSortTasks tasks) p))
                      <$> (sortedGroups tasks).*1
                    = sortedGroups tasks).
  { rewrite <- list_fmap_compose.
    rewrite <- (list_fmap_id (sortedGroups tasks)) at 2.
    apply Forall_fmap_ext_1, Forall_forall. intros a Ha. cbn.
    pose proof Ha as (_ & Hsg & _)%sortedGroups_elem.
    unfold sortedGroup at 1. rewrite tasksOf_groupAndSortTasks.
    rewrite (Array_sort_sorted_id byStartTime startTime (fun _ => True));
      [ rewrite <- Hsg; destruct a; reflexivity
      | intros x y _ _; reflexivity
      | apply Forall_forall; trivial
      | apply sortedGroup_sorted ]. }
  rewrite Hgroups.
  rewrite (Array_sort_sorted_id byMinStart minStartZ (fun a => a.2 <> [])).
  - symmetry. apply groupAndSortTasks_blocks.
  - exact byMinStart_keyed.
  - apply Forall_forall. intros a Ha. apply sortedGroups_elem in Ha. tauto.
  - apply sortedGroups_sorted.
Qed.

(** ** The colours of the packages *)

Lemma assign_lookup_None (f : nat -> color) (l : list string) (m : gmap string color) n p :
  p ∉ l -> m !! p = None ->
  foldl (fun acc '(index, pkg) => <[pkg := f index]> acc) m
        (imap (fun k => pair (n + k)%nat) l) !! p = None.
Proof.
  revert m. induction l as [|q l IH] using rev_ind; intros m Hp Hm; [exact Hm|].
  apply not_elem_of_app in Hp as [Hp Hpq].
  rewrite imap_app, foldl_app. simpl.
  rewrite lookup_insert_ne by (intros ->; apply Hpq; left).
  apply IH; assumption.
Qed.

Lemma assignPackageColors_None tasks p :
  p ∉ uniquePackages tasks -> assignPackageColors tasks !! p = None.
Proof.
  intros Hp. unfold assignPackageColors.
  apply (assign_lookup_None (fun k => Bg256 (colorCodes !!! (k mod length colorCodes)%nat))
           _ _ 0%nat p Hp). apply lookup_empty.
Qed.

Lemma colorCodes_inj a b :
  (a < 7)%nat -> (b < 7)%nat -> colorCodes !!! a = colorCodes !!! b -> a = b.
Proof.
  intros Ha Hb.
  do 7 (destruct a as [|a]; [do 7 (destruct b as [|b]; [vm_compute; congruence|]); lia|]).
  lia.
Qed.

(** The colour of a task.  A task whose package occurs in the list
    that the renderer was made for has the palette colour at the rank
    of its package among the distinct packages, in the order of their
    first task, modulo seven: a colour of the palette, never the
    fallback 51.  A task whose package does not occur has the
    fallback. *)
Theorem getTaskColor_palette (tasks : list SummaryTask) (timelineWidth : Z)
    (task : SummaryTask) :
  let this := new_TimelineRenderer tasks timelineWidth in
  ((exists t, t ∈ tasks /\ package t = package task) ->
     exists i code,
       uniquePackages tasks !! i = Some (package task)
       /\ colorCodes !! (i mod 7)%nat = Some code
       /\ getTaskColor this task = Bg256 code
       /\ code <> 51)
  /\ ((forall t, t ∈ tasks -> package t <> package task) ->
        getTaskColor this task = Bg256 51).
Proof.
  intros this. split.
  - intros Hin. apply elem_of_uniquePackages in Hin.
    apply list_elem_of_lookup in Hin as [i Hi].
    assert (Hlt : (i mod 7 < 7)%nat) by (apply Nat.mod_upper_bound; lia).
    destruct (colorCodes !! (i mod 7)%nat) as [code|] eqn:Hcode; cycle 1.
    { apply lookup_ge_None in Hcode. simpl in Hcode. lia. }
    exists i, code. split; [exact Hi|]. split; [exact Hcode|]. split.
    + unfold getTaskColor, this. cbn [packageColors new_TimelineRenderer].
      rewrite (assignPackageColors_lookup tasks i _ Hi).
      change (length colorCodes) with 7%nat.
      rewrite (list_lookup_total_correct _ _ _ Hcode). reflexivity.
    + apply list_elem_of_lookup_2 in Hcode. intros ->.
      unfold colorCodes in Hcode.
      repeat (apply elem_of_cons in Hcode as [Hcode|Hcode]; [discriminate|]).
      inversion Hcode.
  - intros Hout. unfold getTaskColor, this. cbn [packageColors new_TimelineRenderer].
    rewrite assignPackageColors_None; [reflexivity|].
    intros Hin. apply elem_of_uniquePackages in Hin as (t & Ht & Hp). exact (Hout t Ht Hp).
Qed.

(** Two packages of the list have the same colour exactly if their
    ranks differ by a multiple of seven; so the packages of a list with
    at most seven of them have colours of their own. *)
Theorem package_colours_repeat_modulo_7 (tasks : list SummaryTask) (timelineWidth : Z)
    (i j : nat) (p q : string) :
  uniquePackages tasks !! i = Some p ->
  uniquePackages tasks !! j = Some q ->
  let colours := packageColors (new_TimelineRenderer tasks timelineWidth) in
  (colours !! p = colours !! q <-> (i mod 7 = j mod 7)%nat)
  /\ ((length (uniquePackages tasks) <= 7)%nat ->
        colours !! p = colours !! q -> p = q).
Proof.
  intros Hi Hj colours.
  assert (Hiff : colours !! p = colours !! q <-> (i mod 7 = j mod 7)%nat).
  { unfold colours. cbn [packageColors new_TimelineRenderer].
    rewrite (assignPackageColors_lookup tasks i p Hi),
            (assignPackageColors_lookup tasks j q Hj).
    change (length colorCodes) with 7%nat. split.
    - intros [= Heq]. apply colorCodes_inj; [apply Nat.mod_upper_bound; lia..|exact Heq].
    - intros ->. reflexivity. }
  split; [exact Hiff|].
  intros Hlen Heq. apply Hiff in Heq.
  apply lookup_lt_Some in Hi as Hi'. apply lookup_lt_Some in Hj as Hj'.
  rewrite !Nat.mod_small in Heq by lia. subst j. congruence.
Qed.

(** ** The spans of a row *)

Section RowSpans.

Variable dim : style.
Variables (bg : color) (durationLabel : string).
Variables (barStart : number) (e w : Z).
Variable markers : list number.
Variable head : line.

Hypothesis label_truthy : truthy (Some durationLabel) = true.

Local Abbreviation cells_ := (cells dim bg barStart (Int e) markers).
Local Abbreviation len := (Z.of_nat (String.length durationLabel)).
Local Abbreviation labelSpan := (Styled dim (text_of_string durationLabel)).
Local Abbreviation spans_inv_ := (spans_inv dim bg durationLabel barStart e w markers head).
Local Abbreviation spans_final_ := (spans_final dim bg durationLabel barStart e w markers head).

Lemma placement_pending i st :
  pendingLabel st = Some durationLabel ->
  placement markers i st
  = if labelFits markers durationLabel i then Some durationLabel else None.
Proof.
  intros Hst. unfold placement, labelFits. rewrite Hst, label_truthy.
  cbn [andb]. destruct (Num.includes markers (Int i)); cbn [negb andb]; [reflexivity|].
  destruct (existsb _ markers); reflexivity.
Qed.

Lemma placement_none i st : pendingLabel st = None -> placement markers i st = None.
Proof. intros Hst. unfold placement. rewrite Hst. reflexivity. Qed.

Lemma cells_snoc from n :
  0 <= n ->
  cells_ from n ++ [cellAt dim bg barStart (Int e) markers (from + n)] = cells_ from (n + 1).
Proof.
  intros Hn. unfold cells. rewrite (seqZ_app from n 1) by lia.
  rewrite fmap_app. reflexivity.
Qed.

Lemma rowStep_spans i st :
  0 <= i <= w -> spans_inv_ i st ->
  spans_inv_ ((rowStep dim bg durationLabel barStart (Int e) markers i st).1 + 1)
            (rowStep dim bg durationLabel barStart (Int e) markers i st).2.
Proof.
  intros Hi [(Hie & Hiw & Hst & Hrow)|[(Hei & Hiw & Hst & Hrow & Hfree)
                                |(Hst & k & Hk & Hki & Hend & Hfit & Hfree & Hrow)]];
    unfold rowStep.
  - rewrite (placement_none i st Hst). cbn [fst snd]. rewrite Hst.
    fold (cellAt dim bg barStart (Int e) markers i).
    cbn [Num.eqb]. destruct (Z.eqb_spec i e) as [->|Hne].
    + right. left. cbn [pendingLabel row_line]. split; [lia|]. split; [lia|].
      split; [reflexivity|]. split.
      * rewrite Hrow, <- app_assoc. f_equal. rewrite <- cells_snoc by lia. reflexivity.
      * intros c Hc. lia.
    + left. cbn [pendingLabel row_line]. split; [lia|]. split; [lia|].
      split; [reflexivity|].
      rewrite Hrow, <- app_assoc. f_equal. rewrite <- cells_snoc by lia. reflexivity.
  - rewrite (placement_pending i st Hst).
    destruct (labelFits markers durationLabel i) eqn:Hfit; cbn [fst snd].
    + right. right. cbn [pendingLabel row_line]. split; [reflexivity|].
      exists i. split; [lia|]. split; [lia|]. split; [right; lia|].
      split; [exact Hfit|]. split; [exact Hfree|].
      rewrite Hrow, <- app_assoc. do 2 f_equal.
      replace (i + (len - 1) + 1 - (i + len)) with 0 by lia. reflexivity.
    + fold (cellAt dim bg barStart (Int e) markers i).
      right. left. cbn [pendingLabel row_line]. rewrite Hst.
      split; [lia|]. split; [lia|]. split; [reflexivity|]. split.
      * rewrite Hrow, <- app_assoc. f_equal. rewrite <- cells_snoc by lia. reflexivity.
      * intros c Hc. destruct (Z.eq_dec c i) as [->|Hne]; [exact Hfit | apply Hfree; lia].
  - rewrite (placement_none i st Hst). cbn [fst snd]. rewrite Hst.
    fold (cellAt dim bg barStart (Int e) markers i).
    cbn [Num.eqb]. replace (i =? e) with false by (symmetry; apply Z.eqb_neq; lia).
    right. right. cbn [pendingLabel row_line]. split; [reflexivity|].
    exists k. split; [lia|]. split; [lia|]. split; [left; lia|].
    split; [exact Hfit|]. split; [exact Hfree|].
    rewrite Hrow, <- !app_assoc. do 2 f_equal. cbn [app]. f_equal.
    replace (i + 1 - (k + len)) with (i - (k + len) + 1) by lia.
    rewrite <- cells_snoc by lia. do 3 f_equal. lia.
Qed.

Lemma label_length : 1 <= len.
Proof.
  destruct durationLabel; [discriminate label_truthy|]. cbn [String.length]. lia.
Qed.

Lemma cells_nil from n : n <= 0 -> cells_ from n = [].
Proof. intros Hn. unfold cells. rewrite seqZ_nil by exact Hn. reflexivity. Qed.

Lemma spans_inv_final i st :
  w < i -> spans_inv_ i st -> spans_final_ (flush dim st).
Proof.
  intros Hi [(Hie & Hiw & Hst & Hrow)|[(Hei & Hiw & Hst & Hrow & Hfree)
                                |(Hst & k & Hk & Hki & Hend & Hfit & Hfree & Hrow)]];
    unfold flush; rewrite Hst; rewrite ?label_truthy.
  - left. split; [lia|]. rewrite Hrow. do 2 f_equal. lia.
  - right. split; [lia|]. exists (w + 1). split; [lia|].
    split; [intros c Hc; apply Hfree; lia|]. split; [lia|].
    rewrite Hrow, <- !app_assoc. replace i with (w + 1) by lia.
    do 2 f_equal. rewrite cells_nil by (pose proof label_length; lia).
    reflexivity.
  - right. split; [lia|]. exists k. split; [lia|]. split; [exact Hfree|].
    split; [intros _; exact Hfit|]. rewrite Hrow. do 3 f_equal.
    destruct Hend as [Hend|Hend].
    + do 2 f_equal. lia.
    + rewrite !cells_nil by lia. reflexivity.
Qed.

Lemma rowLoop_spans fuel i st :
  0 <= i -> spans_inv_ i st -> w + 1 - i <= Z.of_nat fuel ->
  spans_final_ (flush dim (rowLoop dim bg durationLabel barStart (Int e) (Int w) markers
                            fuel i st)).
Proof.
  revert i st. induction fuel as [|fuel IH]; intros i st Hi Hinv Hfuel.
  - apply (spans_inv_final i); [lia | exact Hinv].
  - cbn [rowLoop Num.leb]. destruct (Z.leb_spec i w) as [Hle|Hgt].
    + pose proof (rowStep_spans i st ltac:(lia) Hinv) as Hstep.
      assert (Hmove : i <= (rowStep dim bg durationLabel barStart (Int e) markers i st).1).
      { unfold rowStep. destruct (placement markers i st) as [pending|] eqn:Hplace;
          cbn [fst]; [|lia].
        apply placement_free in Hplace as [Hne _].
        destruct pending; [congruence|]. cbn [String.length]. lia. }
      destruct (rowStep dim bg durationLabel barStart (Int e) markers i st) as [i' st'].
      cbn [fst snd] in *. apply IH; [lia | exact Hstep | lia].
    + apply (spans_inv_final i); [lia | exact Hinv].
Qed.

End RowSpans.

(** ** The row of a task, span by span *)

Lemma append_nonempty (a b : string) : b <> ""%string -> a +:+ b <> ""%string.
Proof.
  intros Hb. destruct a as [|c a]; [exact Hb|].
  change (String c a +:+ b) with (String c (a +:+ b)). discriminate.
Qed.

Lemma formatDuration_truthy d : truthy (Some (formatDuration d)) = true.
Proof.
  cbn [truthy]. apply negb_true_iff, String.eqb_neq.
  unfold formatDuration. destruct (Num.ltb d (Int 1000)); [apply append_nonempty; discriminate|].
  destruct (F64.Math_floor _); apply append_nonempty; discriminate.
Qed.

Lemma renderTaskRow_spans dim this task markers barStart e w :
  timeToChars this (F64.of_number (totalDuration this)) = Int w -> 0 <= w ->
  getTaskBarBounds this task = {| b_start := barStart; b_end := Int e |} -> 0 <= e ->
  exists row,
    renderTaskRow dim this task markers = Returns row
    /\ spans_final dim (getTaskColor this task)
         (formatDuration (Num.sub (Int (endTime task)) (Int (startTime task))))
         barStart e w markers [Styled gray (gutterOf this task)] row.
Proof.
  intros Hw Hwpos Hb He. unfold renderTaskRow. rewrite Hw, Hb. cbv zeta.
  cbn [b_start b_end]. eexists. split; [reflexivity|].
  apply rowLoop_spans.
  - apply formatDuration_truthy.
  - lia.
  - left. cbn [pendingLabel row_line]. split; [lia|]. split; [lia|].
    split; [reflexivity|]. unfold cells, gutterOf. rewrite app_nil_r. reflexivity.
  - lia.
Qed.

(** The row of a task of a valid list, with the bounds of its bar. *)
Lemma renderTaskRow_valid dim tasks task :
  Forall epoch tasks -> task ∈ tasks ->
  Num.ltb (Int 0) (totalDuration (new_TimelineRenderer tasks CONFIG.TIMELINE_WIDTH)) = true ->
  let this := new_TimelineRenderer tasks CONFIG.TIMELINE_WIDTH in
  exists barStart barEnd width row,
    getTaskBarBounds this task = {| b_start := Int barStart; b_end := Int barEnd |}
    /\ timeToChars this (F64.of_number (totalDuration this)) = Int width
    /\ 0 <= barStart /\ barStart + CONFIG.MIN_BAR_WIDTH <= barEnd /\ 99 <= width <= 100
    /\ renderTaskRow dim this task (getMarkerPositions this) = Returns row
    /\ spans_final dim (getTaskColor this task)
         (formatDuration (Int (endTime task - startTime task)))
         (Int barStart) barEnd width (getMarkerPositions this)
         [Styled gray (gutterOf this task)] row.
Proof.
  intros Hepoch Hin Hpos this.
  assert (Hne : tasks <> []) by (intros ->; inversion Hin).
  destruct (new_TimelineRenderer_scaled tasks Hne Hepoch Hpos)
    as (first & duration & gutter & width & Hs). fold this in Hs.
  assert (Htask : epoch task)
    by (rewrite List.Forall_forall in Hepoch; apply Hepoch, list_elem_of_In, Hin).
  destruct (bar_bounds_scaled _ _ _ _ _ _ task Hs Hin Htask)
    as (barStart & projected & Hb & _ & Hstart).
  pose proof (scaled_width_range _ _ _ _ _ _ Hs) as Hw.
  destruct (renderTaskRow_spans dim this task (getMarkerPositions this) (Int barStart)
              (barStart + Z.max CONFIG.MIN_BAR_WIDTH projected) width
              (scaled_width _ _ _ _ _ _ Hs) ltac:(lia) Hb
              ltac:(change CONFIG.MIN_BAR_WIDTH with 3; lia))
    as (row & Hrow & Hfinal).
  exists barStart, (barStart + Z.max CONFIG.MIN_BAR_WIDTH projected), width, row.
  split; [exact Hb|]. split; [exact (scaled_width _ _ _ _ _ _ Hs)|].
  split; [exact Hstart|]. split; [lia|]. split; [exact Hw|].
  split; [exact Hrow | exact Hfinal].
Qed.

(** ** The row of a task, in closed form *)

(** The row of a task of a list whose times are millisecond counts
    below 2^53 and whose total duration is positive.  If the bar ends
    behind the last column, the row is the gutter and one cell for each
    column from 0 to the width.  Otherwise it is the gutter, the cells of
    the columns before [k], the duration label, and the cells of the
    columns behind the label up to the width, where [k] is the first
    column behind the end of the bar at which the label meets no marker,
    or the column behind the row if there is none. *)
Theorem renderTaskRow_closed_form (dim : style) (tasks : list SummaryTask)
    (task : SummaryTask) :
  Forall epoch tasks -> task ∈ tasks ->
  Num.ltb (Int 0) (totalDuration (new_TimelineRenderer tasks CONFIG.TIMELINE_WIDTH)) = true ->
  let this := new_TimelineRenderer tasks CONFIG.TIMELINE_WIDTH in
  let markers := getMarkerPositions this in
  let label := formatDuration (Int (endTime task - startTime task)) in
  let len := Z.of_nat (String.length label) in
  exists barStart barEnd width row,
    getTaskBarBounds this task = {| b_start := Int barStart; b_end := Int barEnd |}
    /\ timeToChars this (F64.of_number (totalDuration this)) = Int width
    /\ renderTaskRow dim this task markers = Returns row
    /\ let cell := cellAt dim (getTaskColor this task) (Int barStart) (Int barEnd) markers in
       (width < barEnd ->
          row = Styled gray (gutterOf this task) :: (cell <$> seqZ 0 (width + 1)))
       /\ (barEnd <= width ->
             exists k, barEnd < k <= width + 1
               /\ (forall c, barEnd < c < k -> labelFits markers label c = false)
               /\ (k <= width -> labelFits markers label k = true)
               /\ row = Styled gray (gutterOf this task)
                        :: (cell <$> seqZ 0 k)
                        ++ [Styled dim (text_of_string label)]
                        ++ (cell <$> seqZ (k + len) (width + 1 - (k + len)))).
Proof.
  intros Hepoch Hin Hpos this markers label len.
  destruct (renderTaskRow_valid dim tasks task Hepoch Hin Hpos)
    as (barStart & barEnd & width & row & Hb & Hw & _ & _ & _ & Hrow & Hfinal).
  exists barStart, barEnd, width, row.
  split; [exact Hb|]. split; [exact Hw|]. split; [exact Hrow|]. cbv zeta.
  destruct Hfinal as [[Hlt ->]|(Hle & k & Hk & Hfree & Hfit & ->)].
  - split; [reflexivity | lia].
  - split; [lia|]. intros _. exists k. repeat split; try assumption; lia.
Qed.

(** ** Where the duration label appears *)

Ltac lookup_behind_head :=
  cbn [app];
  match goal with
  | |- context [(?a :: ?l) !! S ?n] => change ((a :: l) !! S n) with (l !! n)
  end.

Lemma cellAt_not_label dim bg barStart barEnd markers c (label : string) :
  cellAt dim bg barStart barEnd markers c <> Styled dim (text_of_string label).
Proof.
  unfold cellAt.
  destruct (Num.leb barStart (Int c) && Num.ltb (Int c) barEnd); [discriminate|].
  destruct (Num.includes markers (Int c)); [|discriminate].
  intros [= H]. destruct label; discriminate H.
Qed.

Lemma lookup_cells dim bg barStart barEnd markers from len (n : nat) s :
  cells dim bg barStart barEnd markers from len !! n = Some s ->
  s = cellAt dim bg barStart barEnd markers (from + Z.of_nat n) /\ Z.of_nat n < len.
Proof.
  unfold cells. rewrite list_lookup_fmap. intros H.
  destruct (seqZ from len !! n) as [c|] eqn:Hc; [|discriminate].
  apply lookup_seqZ in Hc as [-> Hlt]. injection H as <-. split; [reflexivity | exact Hlt].
Qed.

(** The duration label of a task is a span of its row exactly if the
    bar of the task ends within the row, that is at a column up to the
    width; a bar that the minimum width carries beyond the last column
    leaves the row without its label. *)
Theorem duration_label_shown_iff (dim : style) (tasks : list SummaryTask)
    (task : SummaryTask) :
  Forall epoch tasks -> task ∈ tasks ->
  Num.ltb (Int 0) (totalDuration (new_TimelineRenderer tasks CONFIG.TIMELINE_WIDTH)) = true ->
  let this := new_TimelineRenderer tasks CONFIG.TIMELINE_WIDTH in
  let label := formatDuration (Int (endTime task - startTime task)) in
  exists row,
    renderTaskRow dim this task (getMarkerPositions this) = Returns row
    /\ ((exists n, row !! S n = Some (Styled dim (text_of_string label)))
        <-> Num.leb (b_end (getTaskBarBounds this task))
                    (timeToChars this (F64.of_number (totalDuration this))) = true).
Proof.
  intros Hepoch Hin Hpos this label.
  destruct (renderTaskRow_valid dim tasks task Hepoch Hin Hpos)
    as (barStart & barEnd & width & row & Hb & Hw & Hstart & Hend & Hwidth & Hrow & Hfinal).
  fold this in Hb, Hw, Hrow, Hfinal. fold label in Hfinal.
  exists row. split; [exact Hrow|]. rewrite Hb, Hw. cbn [b_end Num.leb].
  rewrite Z.leb_le.
  destruct Hfinal as [[Hlt ->]|(Hle & k & Hk & Hfree & Hfit & ->)].
  - split; [|lia]. intros [n Hn]. exfalso.
    change (cells dim (getTaskColor this task) (Int barStart) (Int barEnd)
              (getMarkerPositions this) 0 (width + 1) !! n
            = Some (Styled dim (text_of_string label))) in Hn.
    apply lookup_cells in Hn as [Hn _]. symmetry in Hn.
    exact (cellAt_not_label _ _ _ _ _ _ _ Hn).
  - split; [intros _; exact Hle|]. intros _. exists (Z.to_nat k). lookup_behind_head.
    rewrite lookup_app_r by (unfold cells; rewrite length_fmap, length_seqZ; lia).
    unfold cells at 1. rewrite length_fmap, length_seqZ, Nat.sub_diag. reflexivity.
Qed.

(** ** Where the bar is painted *)

(** In the row of a task, the span behind the gutter at a column up to
    the end of the bar and up to the width is the cell of that column:
    on the columns of the bar it is painted in the colour of the
    package, before the bar it is not; in both cases it shows the
    separator on a marker position and a no-break space elsewhere. *)
Theorem bar_painted_on_its_columns (dim : style) (tasks : list SummaryTask)
    (task : SummaryTask) :
  Forall epoch tasks -> task ∈ tasks ->
  Num.ltb (Int 0) (totalDuration (new_TimelineRenderer tasks CONFIG.TIMELINE_WIDTH)) = true ->
  let this := new_TimelineRenderer tasks CONFIG.TIMELINE_WIDTH in
  let markers := getMarkerPositions this in
  exists barStart barEnd width row,
    getTaskBarBounds this task = {| b_start := Int barStart; b_end := Int barEnd |}
    /\ timeToChars this (F64.of_number (totalDuration this)) = Int width
    /\ renderTaskRow dim this task markers = Returns row
    /\ row !! O = Some (Styled gray (gutterOf this task))
    /\ forall c, 0 <= c <= width ->
         let mark := if Num.includes markers (Int c) then Sep else Nbsp in
         (barStart <= c < barEnd ->
            row !! S (Z.to_nat c) = Some (Painted (getTaskColor this task) mark))
         /\ (c < barStart ->
               row !! S (Z.to_nat c)
               = Some (if Num.includes markers (Int c) then Styled dim [Sep] else Raw [Nbsp])).
Proof.
  intros Hepoch Hin Hpos this markers.
  destruct (renderTaskRow_valid dim tasks task Hepoch Hin Hpos)
    as (barStart & barEnd & width & row & Hb & Hw & Hstart & Hend & Hwidth & Hrow & Hfinal).
  fold this in Hb, Hw, Hrow, Hfinal. fold markers in Hrow, Hfinal.
  exists barStart, barEnd, width, row.
  split; [exact Hb|]. split; [exact Hw|]. split; [exact Hrow|].
  assert (Hcell : forall c, 0 <= c <= width -> c < barEnd ->
            row !! S (Z.to_nat c)
            = Some (cellAt dim (getTaskColor this task) (Int barStart) (Int barEnd) markers c)).
  { intros c Hc Hlt.
    destruct Hfinal as [[Hgt ->]|(Hle & k & Hk & Hfree & Hfit & ->)];
      lookup_behind_head.
    - unfold cells. rewrite list_lookup_fmap, lookup_seqZ_lt by lia.
      cbn. do 2 f_equal. lia.
    - rewrite lookup_app_l by (unfold cells; rewrite length_fmap, length_seqZ; lia).
      unfold cells. rewrite list_lookup_fmap, lookup_seqZ_lt by lia.
      cbn. do 2 f_equal. lia. }
  split.
  { destruct Hfinal as [[_ ->]|(_ & k & _ & _ & _ & ->)]; reflexivity. }
  intros c Hc mark. split.
  - intros Hbar. rewrite (Hcell c Hc) by lia. unfold cellAt. cbn [Num.leb Num.ltb].
    replace (barStart <=? c) with true by (symmetry; apply Z.leb_le; lia).
    replace (c <? barEnd) with true by (symmetry; apply Z.ltb_lt; lia).
    reflexivity.
  - intros Hbefore. rewrite (Hcell c Hc) by (change CONFIG.MIN_BAR_WIDTH with 3 in Hend; lia).
    unfold cellAt. cbn [Num.leb Num.ltb].
    replace (barStart <=? c) with false by (symmetry; apply Z.leb_gt; lia).
    reflexivity.
Qed.

(** ** The two lines of the axis, side by side *)

Lemma Forall_spaces (P : jschar -> Prop) n : P (Chr " ") -> Forall P (spaces n).
Proof. intros H. apply Forall_replicate. exact H. Qed.

(** The marker line holds separators and blanks, nothing else. *)
Lemma axis_segments_marks view :
  Forall (fun c => c = Sep \/ c = Chr " ") (axis_segments view).1.
Proof.
  induction view as [|[c l] view IH]; [constructor|].
  destruct view as [|[c' l'] view].
  - cbn [axis_segments fst]. constructor; [left; reflexivity|].
    apply Forall_spaces. right. reflexivity.
  - rewrite axis_segments_cons. cbn [fst]. constructor; [left; reflexivity|].
    apply Forall_app. split; [apply Forall_spaces; right; reflexivity | exact IH].
Qed.

Lemma viewed_lookup timestamps view k c l :
  Forall2 viewed timestamps view -> view !! k = Some (c, l) ->
  exists ts, timestamps !! k = Some ts /\ pos ts = Int c /\ label ts = l.
Proof.
  intros Hview Hk.
  destruct (Forall2_lookup_r _ _ _ _ _ Hview Hk) as (ts & Hts & Hpos & Hlabel).
  exists ts. split; [exact Hts|]. split; [exact Hpos | exact Hlabel].
Qed.

Lemma viewed_lookup_l timestamps view k ts :
  Forall2 viewed timestamps view -> timestamps !! k = Some ts ->
  exists c, view !! k = Some (c, label ts) /\ pos ts = Int c.
Proof.
  intros Hview Hk.
  destruct (Forall2_lookup_l _ _ _ _ _ Hview Hk) as ([c l] & Hcl & Hpos & Hlabel).
  cbn in Hpos, Hlabel. subst l. exists c. split; [exact Hcl | exact Hpos].
Qed.

(** The axis of a list whose times are millisecond counts below 2^53
    and whose total duration is positive.  The marker line and the
    label line have the same length: they end with the last label,
    which is always written, behind the last separator.  Both begin
    with the padding of the label width, and both have their
    separators at the positions of the timestamps and nowhere else.
    The marker line has nothing but separators and blanks. *)
Theorem axis_lines_aligned (dim : style) (tasks : list SummaryTask) :
  tasks <> [] -> Forall epoch tasks ->
  Num.ltb (Int 0) (totalDuration (new_TimelineRenderer tasks CONFIG.TIMELINE_WIDTH)) = true ->
  let this := new_TimelineRenderer tasks CONFIG.TIMELINE_WIDTH in
  exists gutter width lastLabel markerLine labelLine,
    labelWidth this = Int gutter
    /\ timeToChars this (F64.of_number (totalDuration this)) = Int width
    /\ last (getTimestamps this) = Some {| pos := Int (gutter + width); label := lastLabel |}
    /\ renderTimeAxis dim this = Returns (axisString dim markerLine labelLine)
    /\ length markerLine = length labelLine
    /\ Z.of_nat (length labelLine)
       = gutter + width + 1 + Z.of_nat (String.length lastLabel)
    /\ stands_at labelLine (gutter + width + 1) (text_of_string lastLabel)
    /\ take (Z.to_nat gutter) markerLine = spaces (Z.to_nat gutter)
    /\ take (Z.to_nat gutter) labelLine = spaces (Z.to_nat gutter)
    /\ (forall j, markerLine !! j = Some Sep
                  <-> exists ts, ts ∈ getTimestamps this /\ pos ts = Int (Z.of_nat j))
    /\ (forall j, labelLine !! j = Some Sep <-> markerLine !! j = Some Sep)
    /\ Forall (fun c => c = Sep \/ c = Chr " ") markerLine.
Proof.
  intros Hne Hepoch Hpos this.
  destruct (new_TimelineRenderer_scaled tasks Hne Hepoch Hpos)
    as (first & duration & gutter & width & Hs). fold this in Hs.
  pose proof (scaled_width_range _ _ _ _ _ _ Hs) as Hw.
  pose proof (scaled_gutter_range _ _ _ _ _ _ Hs) as Hg.
  destruct (getTimestamps_view _ _ _ _ _ _ Hs)
    as (view & c0 & l0 & rest & Hview & Heq & Hc0 & Hasc & (l8 & Hlast) & _).
  pose proof (renderTimeAxis_scaled dim tasks this first duration gutter width view Hs Hview
                ltac:(rewrite Heq; exact Hc0) Hasc (ex_intro _ l8 Hlast)) as Haxis.
  subst view c0.
  destruct (axis_segments_columns (gutter + width) (spaces (Z.to_nat gutter))
              (spaces (Z.to_nat gutter)) gutter l0 rest Hasc ltac:(lia)
              ltac:(apply length_spaces) ltac:(apply length_spaces))
    as (Hlen1 & Hlen2 & Hcols & Hsep1 & Hsep2).
  cbv zeta in Hlen1, Hlen2, Hcols, Hsep1, Hsep2.
  set (view := (gutter, l0) :: rest) in *.
  set (markerLine := spaces (Z.to_nat gutter) ++ (axis_segments view).1) in *.
  set (labelLine := spaces (Z.to_nat gutter) ++ (axis_segments view).2) in *.
  assert (Hend : axis_end view = gutter + width + 1 + Z.of_nat (String.length l8)).
  { unfold axis_end. rewrite Hlast. reflexivity. }
  assert (Hk8 : exists k, view !! k = Some (gutter + width, l8)).
  { apply last_Some in Hlast as (front & ->). exists (length front).
    rewrite lookup_app_r by lia. rewrite Nat.sub_diag. reflexivity. }
  destruct Hk8 as (k8 & Hk8).
  assert (Hnext : view !! S k8 = None).
  { apply last_Some in Hlast as (front & Hfront). apply lookup_ge_None.
    pose proof (lookup_lt_Some _ _ _ Hk8) as Hlt.
    destruct (decide (k8 = length front)) as [->|Hne8];
      [rewrite Hfront, length_app; simpl; lia|].
    exfalso. rewrite Hfront in Hk8, Hasc.
    assert (Hk8' : (front ++ [(gutter + width, l8)]) !! length front
                   = Some (gutter + width, l8))
      by (rewrite lookup_app_r by lia; rewrite Nat.sub_diag; reflexivity).
    rewrite Hfront, length_app in Hlt. simpl in Hlt.
    pose proof (ascending_lt _ _ k8 (length front) _ _ _ _ Hasc ltac:(lia) Hk8 Hk8'). lia. }
  assert (Hseps : forall j line,
            (line = markerLine \/ line = labelLine) ->
            line !! j = Some Sep
            <-> exists ts, ts ∈ getTimestamps this /\ pos ts = Int (Z.of_nat j)).
  { intros j line Hline. split.
    - intros Hsep.
      assert (Hj : (Z.to_nat gutter <= j)%nat).
      { destruct (decide (Z.to_nat gutter <= j)%nat) as [Hle|Hgt]; [exact Hle|].
        exfalso. destruct Hline as [-> | ->]; unfold markerLine, labelLine in Hsep;
          rewrite lookup_app_l in Hsep by (rewrite length_spaces; lia);
          exact (spaces_no_Sep _ _ Hsep). }
      assert (Hcol : exists k l, view !! k = Some (Z.of_nat j, l)).
      { destruct Hline as [-> | ->];
          [apply Hsep1 | apply Hsep2]; rewrite ?length_spaces; assumption. }
      destruct Hcol as (k & l & Hk).
      destruct (viewed_lookup _ _ _ _ _ Hview Hk) as (ts & Hts & Hpos' & _).
      exists ts. split; [eapply list_elem_of_lookup_2; exact Hts | exact Hpos'].
    - intros (ts & Hts & Hpos'). apply list_elem_of_lookup in Hts as [k Hk].
      destruct (viewed_lookup_l _ _ _ _ Hview Hk) as (c & Hc & Hposc).
      rewrite Hpos' in Hposc. injection Hposc as <-.
      destruct (Hcols _ _ _ Hc) as (Hm & Hl & _). rewrite Nat2Z.id in Hm, Hl.
      destruct Hline as [-> | ->]; assumption. }
  exists gutter, width, l8, markerLine, labelLine.
  split; [exact (scaled_gutter _ _ _ _ _ _ Hs)|].
  split; [exact (scaled_width _ _ _ _ _ _ Hs)|].
  split.
  { destruct (viewed_lookup _ _ _ _ _ Hview Hk8) as (ts & Hts & Hpos8 & Hlabel8).
    rewrite last_lookup.
    replace (Nat.pred (length (getTimestamps this))) with k8.
    - rewrite Hts. destruct ts as [p l]. cbn in Hpos8, Hlabel8. subst p l. reflexivity.
    - rewrite (Forall2_length _ _ _ Hview).
      apply lookup_ge_None in Hnext. apply lookup_lt_Some in Hk8. lia. }
  split; [exact Haxis|].
  split; [congruence|].
  split; [rewrite Hlen2, Hend; lia|].
  split.
  { destruct (Hcols _ _ _ Hk8) as (_ & _ & Hplaced & _). apply Hplaced.
    unfold label_placed. rewrite Hk8, Hnext. exact I. }
  split; [unfold markerLine; rewrite take_app_length'; [reflexivity | symmetry; apply length_spaces]|].
  split; [unfold labelLine; rewrite take_app_length'; [reflexivity | symmetry; apply length_spaces]|].
  split; [intros j; apply Hseps; left; reflexivity|].
  split.
  { intros j. rewrite (Hseps j labelLine) by (right; reflexivity).
    rewrite (Hseps j markerLine) by (left; reflexivity). reflexivity. }
  apply Forall_app. split; [apply Forall_spaces; right; reflexivity|].
  apply axis_segments_marks.
Qed.

(** ** The times of the timestamps *)

(** The eighths as binary64: the numerator, shifted to 53 digits. *)
Lemma fraction_mantissa i :
  1 <= i <= 8 ->
  exists a, 0 <= a <= 52 /\ 2 ^ 52 <= i * 2 ^ a < 2 ^ 53
            /\ fraction i = S754_finite false (Z.to_pos (i * 2 ^ a)) (-3 - a).
Proof.
  intros Hi.
  assert (Hcases : i = 1 \/ i = 2 \/ i = 3 \/ i = 4 \/ i = 5 \/ i = 6 \/ i = 7 \/ i = 8) by lia.
  destruct Hcases as [->|[->|[->|[->|[->|[->|[->| ->]]]]]]];
    [exists 52 | exists 51 | exists 51 | exists 50 | exists 50 | exists 50 | exists 50
    | exists 49];
    (split; [lia|]; split; [split; [vm_compute; discriminate | reflexivity]
                           | vm_compute; reflexivity]).
Qed.

Lemma of_Z_mantissa z :
  0 < z < 2 ^ 53 ->
  exists d, 1 <= d <= 53 /\ 2 ^ (d - 1) <= z < 2 ^ d
            /\ F64.of_Z z = S754_finite false (Z.to_pos (z * 2 ^ (53 - d))) (d - 53).
Proof.
  intros Hz. destruct z as [|p|p]; try lia.
  unfold F64.of_Z, F64.prec, F64.emax. cbn [binary_normalize].
  destruct (binary_round_integer false p ltac:(lia)) as (Heq & Hq & Hd).
  exists (Zpos (digits2_pos p)). split; [exact Hd|].
  split; [apply digits2_pos_bounds | exact Heq].
Qed.

(** A product whose digits fit the mantissa is not rounded. *)
Lemma mul_exact mx ex my ey q n :
  Zpos mx * Zpos my = q * 2 ^ n ->
  2 ^ 52 <= q < 2 ^ 53 -> 0 <= n ->
  -1021 <= 53 + n + (ex + ey) -> 53 + n + (ex + ey) <= 1023 ->
  F64.mul (S754_finite false mx ex) (S754_finite false my ey)
  = S754_finite false (Z.to_pos q) (ex + ey + n).
Proof.
  intros Hprod Hq Hn Hlo Hhi. unfold F64.mul, SFmul, F64.prec, F64.emax. cbn [xorb].
  change (Z.pos (mx * my)) with (Z.pos mx * Z.pos my). rewrite Hprod.
  apply binary_round_aux_exact; assumption.
Qed.

Lemma digits_exist z : 0 < z -> exists d, 1 <= d /\ 2 ^ (d - 1) <= z < 2 ^ d.
Proof.
  intros Hz. destruct z as [|p|p]; try lia.
  exists (Zpos (digits2_pos p)). split; [lia | apply digits2_pos_bounds].
Qed.

(** The time of the [i]-th timestamp of a timeline of [D] milliseconds:
    the eighths of [D], rounded down. *)
Lemma elapsed_floor D i :
  1 <= D < 2 ^ 53 -> 0 <= i <= 8 -> i * D < 2 ^ 53 ->
  F64.Math_floor (F64.mul (fraction i) (F64.of_Z D)) = Int (i * D / 8).
Proof.
  intros HD Hi Hprod.
  destruct (Z.eq_dec i 0) as [->|Hi0].
  { rewrite (proj1 (project_fraction_0 D HD)). reflexivity. }
  assert (Hi1 : 1 <= i) by lia.
  assert (HiD : D <= i * D) by nia.
  assert (HD53 : 0 < D < 2 ^ 53) by lia.
  destruct (fraction_mantissa i ltac:(lia)) as (a & Ha & Hia & ->).
  destruct (of_Z_mantissa D HD53) as (d & Hd & HDd & ->).
  destruct (digits_exist (i * D) ltac:(nia)) as (dd & Hdd1 & Hdd).
  assert (Hdd53 : dd <= 53).
  { destruct (Z.leb_spec dd 53); [assumption|].
    assert (2 ^ 53 <= 2 ^ (dd - 1)) by (apply Z.pow_le_mono_r; lia). lia. }
  assert (Hddd : d <= dd).
  { destruct (Z.leb_spec d dd); [assumption|].
    assert (2 ^ dd <= 2 ^ (d - 1)) by (apply Z.pow_le_mono_r; lia). nia. }
  assert (Hp1 : 0 < 2 ^ a) by (apply Z.pow_pos_nonneg; lia).
  assert (Hp2 : 0 < 2 ^ (53 - d)) by (apply Z.pow_pos_nonneg; lia).
  assert (Hp3 : 0 < 2 ^ (53 - dd)) by (apply Z.pow_pos_nonneg; lia).
  assert (Hq : 2 ^ 52 <= i * D * 2 ^ (53 - dd) < 2 ^ 53).
  { replace (2 ^ 52) with (2 ^ (dd - 1) * 2 ^ (53 - dd))
      by (rewrite <- Z.pow_add_r by lia; f_equal; lia).
    replace (2 ^ 53) with (2 ^ dd * 2 ^ (53 - dd))
      by (rewrite <- Z.pow_add_r by lia; f_equal; lia).
    nia. }
  rewrite (mul_exact _ _ _ _ (i * D * 2 ^ (53 - dd)) (a - d + dd)).
  - cbn [F64.Math_floor cond_Zopp]. f_equal.
    rewrite Z2Pos.id by lia.
    replace (-3 - a + (d - 53) + (a - d + dd)) with (- (56 - dd)) by lia.
    rewrite Z.shiftl_div_pow2 by lia. rewrite Z.opp_involutive.
    replace (2 ^ (56 - dd)) with (8 * 2 ^ (53 - dd))
      by (change 8 with (2 ^ 3); rewrite <- Z.pow_add_r by lia; f_equal; lia).
    apply Z.div_mul_cancel_r; lia.
  - rewrite !Z2Pos.id by nia.
    assert (Hpow : 2 ^ a * 2 ^ (53 - d) = 2 ^ (53 - dd) * 2 ^ (a - d + dd))
      by (rewrite <- !Z.pow_add_r by lia; f_equal; lia).
    transitivity (i * D * (2 ^ a * 2 ^ (53 - d))); [ring|]. rewrite Hpow. ring.
  - exact Hq.
  - lia.
  - lia.
  - lia.
Qed.

Lemma Math_floor_of_Z z : - 2 ^ 53 < z < 2 ^ 53 -> F64.Math_floor (F64.of_Z z) = Int z.
Proof.
  intros Hz. destruct (Z.eq_dec z 0) as [->|Hne]; [reflexivity|].
  destruct z as [|p|p]; [congruence| |].
  - destruct (of_Z_mantissa (Zpos p) ltac:(lia)) as (d & Hd & Hpd & ->).
    cbn [F64.Math_floor cond_Zopp]. f_equal.
    assert (Hp : 0 < 2 ^ (53 - d)) by (apply Z.pow_pos_nonneg; lia).
    rewrite Z2Pos.id by nia.
    replace (d - 53) with (- (53 - d)) by lia.
    rewrite Z.shiftl_div_pow2, Z.opp_involutive by lia.
    apply Z.div_mul; lia.
  - unfold F64.of_Z, F64.prec, F64.emax. cbn [binary_normalize].
    destruct (binary_round_integer true p ltac:(lia)) as (-> & Hq & Hd).
    set (d := Zpos (digits2_pos p)) in *.
    cbn [F64.Math_floor cond_Zopp]. f_equal.
    assert (Hp : 0 < 2 ^ (53 - d)) by (apply Z.pow_pos_nonneg; lia).
    rewrite Z2Pos.id by nia.
    replace (d - 53) with (- (53 - d)) by lia.
    rewrite Z.shiftl_div_pow2, Z.opp_involutive by lia.
    rewrite <- Z.mul_opp_l. rewrite Z.div_mul by lia. reflexivity.
Qed.

(** The labels of the timestamps of a scaled renderer. *)
Lemma getTimestamps_labels tasks this first duration gutter width :
  scaled tasks this first duration gutter width ->
  (label <$> getTimestamps this) !! 0%nat = Some "0ms"%string
  /\ (label <$> getTimestamps this) !! 8%nat = Some (formatDuration (Int duration))
  /\ (duration < 2 ^ 50 ->
      label <$> getTimestamps this
      = (fun i => formatDuration (Int (i * duration / 8))) <$> marker_indices).
Proof.
  intros Hs. pose proof (scaled_range _ _ _ _ _ _ Hs) as HD.
  unfold getTimestamps. rewrite <- list_fmap_compose.
  rewrite (scaled_duration _ _ _ _ _ _ Hs). cbn [F64.of_number].
  rewrite !list_lookup_fmap.
  split; [|split].
  - change (marker_indices !! 0%nat) with (Some 0). cbn [fmap option_fmap option_map compose label].
    rewrite (proj1 (project_fraction_0 duration HD)). reflexivity.
  - change (marker_indices !! 8%nat) with (Some 8). cbn [fmap option_fmap option_map compose label].
    rewrite (project_fraction_8 duration HD), Math_floor_of_Z by lia. reflexivity.
  - intros Hsmall. apply Forall_fmap_ext_1, Forall_forall. intros i Hin.
    cbn [compose label]. f_equal.
    assert (Hi : 0 <= i <= 8).
    { unfold marker_indices in Hin. apply list_elem_of_fmap in Hin as (n & -> & Hn).
      apply elem_of_seq in Hn.
      change (Z.to_nat CONFIG.NUM_TIME_MARKERS + 1)%nat with 9%nat in Hn. lia. }
    apply elapsed_floor; [exact HD | exact Hi|].
    change (2 ^ 53) with (8 * 2 ^ 50). nia.
Qed.

(** ** The labels of the axis *)

(** On the axis of a list whose times are millisecond counts below
    2^53 and whose total duration [D] is positive, the first label is
    "0ms" and the last is the formatted total duration; where [D] is
    below 2^50, the label of the [i]-th timestamp is the formatted
    [i]-th eighth of [D], rounded down to a millisecond. *)
Theorem axis_labels_are_eighths (tasks : list SummaryTask) :
  tasks <> [] -> Forall epoch tasks ->
  Num.ltb (Int 0) (totalDuration (new_TimelineRenderer tasks CONFIG.TIMELINE_WIDTH)) = true ->
  let this := new_TimelineRenderer tasks CONFIG.TIMELINE_WIDTH in
  exists D,
    totalDuration this = Int D /\ 1 <= D
    /\ (label <$> getTimestamps this) !! 0%nat = Some "0ms"%string
    /\ (label <$> getTimestamps this) !! 8%nat = Some (formatDuration (Int D))
    /\ length (getTimestamps this) = 9%nat
    /\ (D < 2 ^ 50 ->
        label <$> getTimestamps this
        = (fun i => formatDuration (Int (i * D / 8))) <$> [0; 1; 2; 3; 4; 5; 6; 7; 8]).
Proof.
  intros Hne Hepoch Hpos this.
  destruct (new_TimelineRenderer_scaled tasks Hne Hepoch Hpos)
    as (first & duration & gutter & width & Hs). fold this in Hs.
  destruct (getTimestamps_labels _ _ _ _ _ _ Hs) as (H0 & H8 & Hall).
  exists duration. split; [exact (scaled_duration _ _ _ _ _ _ Hs)|].
  split; [pose proof (scaled_range _ _ _ _ _ _ Hs); lia|].
  split; [exact H0|]. split; [exact H8|]. split; [|exact Hall].
  unfold getTimestamps. rewrite length_fmap. reflexivity.
Qed.

(** ** The length of a label *)

Lemma String_length_app (a b : string) :
  String.length (a +:+ b) = (String.length a + String.length b)%nat.
Proof.
  induction a as [|c a IH]; [reflexivity|].
  change (String c a +:+ b) with (String c (a +:+ b)). cbn [String.length].
  rewrite IH. reflexivity.
Qed.

Lemma pretty_N_go_length (k : nat) (x : N) (s : string) :
  (x < 10 ^ N.of_nat k)%N ->
  (String.length (pretty_N_go x s) <= String.length s + k)%nat.
Proof.
  revert x s. induction k as [|k IH]; intros x s Hx.
  - assert (x = 0%N) as -> by (change (10 ^ N.of_nat 0)%N with 1%N in Hx; lia).
    rewrite pretty_N_go_0. lia.
  - destruct (N.eq_dec x 0%N) as [->|Hne]; [rewrite pretty_N_go_0; lia|].
    rewrite pretty_N_go_step by lia.
    etransitivity; [apply IH|cbn [String.length]; lia].
    rewrite Nat2N.inj_succ, N.pow_succ_r' in Hx.
    apply N.Div0.div_lt_upper_bound. exact Hx.
Qed.

Lemma pretty_Z_length (k : nat) (z : Z) :
  0 <= z < 10 ^ Z.of_nat k -> (1 <= k)%nat ->
  (String.length (pretty z) <= k)%nat.
Proof.
  intros Hz Hk. destruct z as [|p|p]; [cbn; lia| |lia].
  change (pretty (Zpos p)) with (pretty_N_go (Npos p) "").
  apply (pretty_N_go_length k (Npos p) "").
  apply N2Z.inj_lt. rewrite N2Z.inj_pow, nat_N_Z. exact (proj2 Hz).
Qed.

Lemma seconds_toString_length (k : nat) h :
  0 <= h < 100 * 10 ^ Z.of_nat k -> (1 <= k)%nat ->
  (String.length (seconds_toString h) <= k + 3)%nat.
Proof.
  intros Hh Hk. unfold seconds_toString.
  assert (Hwhole : (String.length (pretty (h `div` 100)%Z) <= k)%nat).
  { apply pretty_Z_length; [|exact Hk]. split; [apply Z.div_pos; lia|].
    apply Z.div_lt_upper_bound; lia. }
  assert (Hdigit : forall d, 0 <= d < 10 -> (String.length (pretty d) <= 1)%nat).
  { intros d Hd. apply (pretty_Z_length 1); [exact Hd | lia]. }
  pose proof (Z.mod_pos_bound h 100 ltac:(lia)) as Hfrac.
  destruct (h `mod` 100 =? 0); [lia|].
  destruct ((h `mod` 100) `mod` 10 =? 0); rewrite !String_length_app; cbn [String.length].
  - pose proof (Hdigit ((h `mod` 100) `div` 10)
                  ltac:(split; [apply Z.div_pos; lia | apply Z.div_lt_upper_bound; lia])).
    lia.
  - pose proof (Hdigit ((h `mod` 100) `div` 10)
                  ltac:(split; [apply Z.div_pos; lia | apply Z.div_lt_upper_bound; lia])).
    pose proof (Hdigit ((h `mod` 100) `mod` 10) ltac:(apply Z.mod_pos_bound; lia)).
    lia.
Qed.

(** A duration below [10^k] seconds has a label of at most [k + 4]
    characters, at least five: the seconds, the point, two decimals
    and the unit. *)
Lemma formatDuration_length (k : nat) t :
  0 <= t < 1000 * 10 ^ Z.of_nat k -> t < 2 ^ 53 -> (1 <= k)%nat ->
  (String.length (formatDuration (Int t)) <= k + 4)%nat.
Proof.
  intros Ht Hrep Hk. rewrite formatDuration_Int by exact Hrep.
  destruct (Z.ltb_spec t 1000) as [Hlt|Hge]; rewrite String_length_app; cbn [String.length].
  - pose proof (pretty_Z_length 3 t ltac:(change (10 ^ Z.of_nat 3) with 1000; lia) ltac:(lia)).
    lia.
  - pose proof (seconds_toString_length k (t `div` 10)
                  ltac:(split; [apply Z.div_pos; lia | apply Z.div_lt_upper_bound; lia]) Hk).
    lia.
Qed.

(** ** Timelines whose labels all fit *)

(** On the axis of a list whose times are millisecond counts and whose
    total duration is positive and below 10^9 ms (eleven days and a
    half), every timestamp has its label written behind its separator:
    a label has at most ten characters, and the separators are twelve
    or thirteen columns apart. *)
Theorem all_axis_labels_written (dim : style) (tasks : list SummaryTask) :
  tasks <> [] -> Forall epoch tasks ->
  Num.ltb (Int 0) (totalDuration (new_TimelineRenderer tasks CONFIG.TIMELINE_WIDTH)) = true ->
  Num.ltb (totalDuration (new_TimelineRenderer tasks CONFIG.TIMELINE_WIDTH))
          (Int 1000000000) = true ->
  let this := new_TimelineRenderer tasks CONFIG.TIMELINE_WIDTH in
  exists markerLine labelLine,
    renderTimeAxis dim this = Returns (axisString dim markerLine labelLine)
    /\ forall ts, ts ∈ getTimestamps this ->
         (String.length (label ts) <= 10)%nat
         /\ exists c, pos ts = Int c
              /\ labelLine !! Z.to_nat c = Some Sep
              /\ stands_at labelLine (c + 1) (text_of_string (label ts)).
Proof.
  intros Hne Hepoch Hpos Hshort this.
  destruct (new_TimelineRenderer_scaled tasks Hne Hepoch Hpos)
    as (first & duration & gutter & width & Hs). fold this in Hs, Hshort.
  pose proof (scaled_width_range _ _ _ _ _ _ Hs) as Hw.
  pose proof (scaled_gutter_range _ _ _ _ _ _ Hs) as Hg.
  pose proof (scaled_range _ _ _ _ _ _ Hs) as HD.
  rewrite (scaled_duration _ _ _ _ _ _ Hs) in Hshort. cbn [Num.ltb] in Hshort.
  apply Z.ltb_lt in Hshort.
  destruct (getTimestamps_labels _ _ _ _ _ _ Hs) as (_ & _ & Hlabels).
  specialize (Hlabels ltac:(change (2 ^ 50) with 1125899906842624; lia)).
  destruct (getTimestamps_scaled _ _ _ _ _ _ Hs)
    as (c2 & c4 & c6 & l0 & l1 & l2 & l3 & l4 & l5 & l6 & l7 & l8 & Hc2 & Hc4 & Hc6 & Hts).
  rewrite Hts in Hlabels. change marker_indices with [0; 1; 2; 3; 4; 5; 6; 7; 8] in Hlabels.
  cbn [fmap list_fmap label] in Hlabels.
  assert (Hlen : forall i, 0 <= i <= 8 ->
            (String.length (formatDuration (Int (i * duration / 8))) <= 10)%nat).
  { intros i Hi.
    assert (Hq : 0 <= i * duration / 8 < 1000000000).
    { split; [apply Z.div_pos; nia | apply Z.div_lt_upper_bound; nia]. }
    apply (formatDuration_length 6); [exact Hq | lia | lia]. }
  injection Hlabels as E0 E1 E2 E3 E4 E5 E6 E7 E8.
  pose proof (Hlen 0 ltac:(lia)) as L0. pose proof (Hlen 1 ltac:(lia)) as L1.
  pose proof (Hlen 2 ltac:(lia)) as L2. pose proof (Hlen 3 ltac:(lia)) as L3.
  pose proof (Hlen 4 ltac:(lia)) as L4. pose proof (Hlen 5 ltac:(lia)) as L5.
  pose proof (Hlen 6 ltac:(lia)) as L6. pose proof (Hlen 7 ltac:(lia)) as L7.
  pose proof (Hlen 8 ltac:(lia)) as L8.
  rewrite <- E0 in L0. rewrite <- E1 in L1. rewrite <- E2 in L2. rewrite <- E3 in L3.
  rewrite <- E4 in L4. rewrite <- E5 in L5. rewrite <- E6 in L6. rewrite <- E7 in L7.
  rewrite <- E8 in L8. clear E0 E1 E2 E3 E4 E5 E6 E7 E8 Hlen.
  set (view := [(gutter + 0, l0); (gutter + 12, l1); (gutter + c2, l2); (gutter + 37, l3);
                (gutter + c4, l4); (gutter + 62, l5); (gutter + c6, l6); (gutter + 87, l7);
                (gutter + width, l8)]).
  assert (Hview : Forall2 viewed (getTimestamps this) view).
  { rewrite Hts. unfold view. repeat (constructor; [split; reflexivity|]). constructor. }
  assert (Hasc : ascending (gutter + width) view).
  { unfold view. cbn [ascending]. repeat split; lia. }
  pose proof (renderTimeAxis_scaled dim tasks this first duration gutter width view Hs Hview
                ltac:(unfold view; lia) Hasc (ex_intro _ l8 eq_refl)) as Haxis.
  destruct (axis_segments_columns (gutter + width) (spaces (Z.to_nat gutter))
              (spaces (Z.to_nat gutter)) (gutter + 0) l0 (tail view) Hasc ltac:(lia)
              ltac:(rewrite length_spaces; lia) ltac:(rewrite length_spaces; lia))
    as (_ & _ & Hcols & _).
  cbv zeta in Hcols. change ((gutter + 0, l0) :: tail view) with view in Hcols.
  exists (spaces (Z.to_nat gutter) ++ (axis_segments view).1),
    (spaces (Z.to_nat gutter) ++ (axis_segments view).2).
  split; [exact Haxis|].
  assert (Hplaced : forall k c l, view !! k = Some (c, l) ->
            (String.length l <= 10)%nat /\ label_placed view k).
  { intros k c l Hk. unfold label_placed.
    do 9 (destruct k as [|k];
          [injection Hk as <- <-; split; [assumption | cbn; lia]|]).
    discriminate Hk. }
  intros ts Hin. apply list_elem_of_lookup in Hin as [k Hk].
  destruct (viewed_lookup_l _ _ _ _ Hview Hk) as (c & Hc & Hposc).
  destruct (Hplaced _ _ _ Hc) as [Hl Hp].
  split; [exact Hl|]. exists c. split; [exact Hposc|].
  destruct (Hcols _ _ _ Hc) as (_ & Hsep & Hstands & _).
  split; [exact Hsep | exact (Hstands Hp)].
Qed.

(** ** The latest run file *)

Lemma filter_fmap_key {A B} (f : A -> B) (P : B -> Prop) `{!forall y, Decision (P y)}
    (l : list A) :
  filter P (f <$> l) = f <$> filter (fun x => P (f x)) l.
Proof.
  induction l as [|x l IH]; [reflexivity|].
  rewrite fmap_cons, !filter_cons, IH. destruct (decide (P (f x))); reflexivity.
Qed.

Lemma byNewest_keyed (a b : runFile) :
  True -> True -> byNewest a b = Int (- mtime a - - mtime b).
Proof. intros _ _. unfold byNewest. cbn. f_equal. lia. Qed.

Section LatestRunFile.

Variable turboDir : string.
Variable path_join : string -> string -> string.
Variable existsSync : string -> bool.
Variable readdirSync : string -> option (list string).
Variable statSync_mtime : string -> option Z.

Local Abbreviation stat_entry_ := (stat_entry turboDir path_join statSync_mtime).
Local Abbreviation json := (fun f : string => endsWith f ".json" = true).

(** The entries, once every [statSync] has answered. *)
Lemma mapM_stat_entry (m : string -> Z) (l : list string) :
  (forall f, f ∈ l -> statSync_mtime (path_join turboDir f) = Some (m f)) ->
  mapM stat_entry_ l
  = Some ((fun f => {| name := f; path := path_join turboDir f; mtime := m f |}) <$> l).
Proof.
  intros Hstat. apply mapM_Some_2. induction l as [|f l IH]; [constructor|].
  rewrite fmap_cons. constructor.
  - unfold stat_entry. rewrite (Hstat f) by left. reflexivity.
  - apply IH. intros g Hg. apply Hstat. right. exact Hg.
Qed.

(** The head of a sorted list of run files: none is newer, and of
    those as new it is the first of the unsorted list. *)
Lemma Array_sort_byNewest_head (files : list runFile) latest rest :
  Array_sort byNewest files = latest :: rest ->
  latest ∈ files
  /\ (forall x, x ∈ files -> mtime x <= mtime latest)
  /\ head (filter (fun x => mtime x = mtime latest) files) = Some latest.
Proof.
  intros Hsort.
  pose proof (Array_sort_perm byNewest files) as Hperm. rewrite Hsort in Hperm.
  pose proof (Array_sort_sorted byNewest (fun x => - mtime x) (fun _ => True)
                byNewest_keyed files ltac:(apply Forall_forall; trivial)) as Hsorted.
  rewrite Hsort in Hsorted. apply StronglySorted_inv in Hsorted as [_ Hhead].
  split; [rewrite <- Hperm; left|]. split.
  - intros x Hx. rewrite <- Hperm in Hx. apply elem_of_cons in Hx as [->|Hx]; [lia|].
    rewrite Forall_forall in Hhead. specialize (Hhead x Hx). cbn in Hhead. lia.
  - pose proof (Array_sort_stable byNewest (fun x => - mtime x) (fun _ => True)
                  byNewest_keyed (- mtime latest) files
                  ltac:(apply Forall_forall; trivial)) as Hstable.
    rewrite Hsort, filter_cons_True in Hstable by reflexivity.
    rewrite (filter_ext_elem (fun x => mtime x = mtime latest)
                             (fun x => - mtime x = - mtime latest))
      by (intros; lia).
    rewrite <- Hstable. reflexivity.
Qed.

(** When the directory exists, can be read, and every [.json] entry
    can be examined: without such an entry the call throws "No run
    files found"; with one it returns the path of a [.json] entry than
    which none was modified later, the first in the order of the
    directory among those modified at that time.  Entries with another
    ending are not looked at. *)
Theorem getLatestRunFile_newest (entries : list string) (m : string -> Z) :
  existsSync turboDir = true ->
  readdirSync turboDir = Some entries ->
  (forall f, f ∈ entries -> endsWith f ".json" = true ->
     statSync_mtime (path_join turboDir f) = Some (m f)) ->
  (filter (fun f => endsWith f ".json" = true) entries = []
   /\ getLatestRunFile turboDir path_join existsSync readdirSync statSync_mtime
      = Raise (Error "No run files found in .turbo/runs"))
  \/ exists f,
       getLatestRunFile turboDir path_join existsSync readdirSync statSync_mtime
       = Done (path_join turboDir f)
       /\ f ∈ entries /\ endsWith f ".json" = true
       /\ (forall g, g ∈ entries -> endsWith g ".json" = true -> m g <= m f)
       /\ head (filter (fun g => m g = m f /\ endsWith g ".json" = true) entries) = Some f.
Proof.
  intros Hexists Hdir Hstat. unfold getLatestRunFile.
  rewrite Hexists, Hdir. cbn [negb].
  rewrite (mapM_stat_entry m) by (intros f [Hjson Hf]%list_elem_of_filter; auto).
  set (mk := fun f => {| name := f; path := path_join turboDir f; mtime := m f |}).
  destruct (Array_sort byNewest (mk <$> filter json entries)) as [|latest rest] eqn:Hsort.
  - left. split; [|reflexivity].
    pose proof (Array_sort_perm byNewest (mk <$> filter json entries)) as Hperm.
    rewrite Hsort in Hperm. apply Permutation_nil_l in Hperm. symmetry in Hperm.
    apply fmap_nil_inv in Hperm. exact Hperm.
  - right. destruct (Array_sort_byNewest_head _ _ _ Hsort) as (Hin & Hmax & Hfirst).
    apply list_elem_of_fmap in Hin as (f & -> & Hf).
    apply list_elem_of_filter in Hf as [Hjson Hf].
    exists f. split; [reflexivity|]. split; [exact Hf|]. split; [exact Hjson|]. split.
    + intros g Hg Hgjson.
      apply (Hmax (mk g)). apply list_elem_of_fmap. exists g. split; [reflexivity|].
      apply list_elem_of_filter. split; assumption.
    + rewrite filter_fmap_key in Hfirst. cbn [mtime mk] in Hfirst.
      rewrite list_filter_filter in Hfirst.
      destruct (filter (fun g => m g = m f /\ endsWith g ".json" = true) entries)
        as [|g gs]; [discriminate|].
      cbn in Hfirst |- *. injection Hfirst as Hg _ _. rewrite Hg. reflexivity.
Qed.

(** The two errors of [getLatestRunFile]: the first is thrown exactly
    if the directory does not exist; the second exactly if the
    directory exists and is read, and none of its entries ends in
    [.json]. *)
Theorem getLatestRunFile_errors :
  (getLatestRunFile turboDir path_join existsSync readdirSync statSync_mtime
   = Raise (Error ".turbo/runs directory not found")
   <-> existsSync turboDir = false)
  /\ (getLatestRunFile turboDir path_join existsSync readdirSync statSync_mtime
      = Raise (Error "No run files found in .turbo/runs")
      <-> existsSync turboDir = true
          /\ exists entries,
               readdirSync turboDir = Some entries
               /\ filter (fun f => endsWith f ".json" = true) entries = []).
Proof.
  unfold getLatestRunFile.
  destruct (existsSync turboDir) eqn:Hexists; cbn [negb].
  - destruct (readdirSync turboDir) as [entries|] eqn:Hdir.
    + destruct (mapM stat_entry_ (filter json entries)) as [files|] eqn:Hfiles.
      * destruct (Array_sort byNewest files) as [|latest rest] eqn:Hsort.
        -- split; [split; discriminate|]. split; [|reflexivity].
           intros _. split; [reflexivity|]. exists entries. split; [reflexivity|].
           pose proof (Array_sort_perm byNewest files) as Hperm.
           rewrite Hsort in Hperm. apply Permutation_nil_l in Hperm. subst files.
           apply mapM_Some_1, Forall2_length in Hfiles.
           destruct (filter json entries); [reflexivity | discriminate Hfiles].
        -- split; [split; discriminate|]. split; [discriminate|].
           intros (_ & entries' & [= <-] & Hnone). rewrite Hnone in Hfiles.
           injection Hfiles as <-. discriminate Hsort.
      * split; [split; discriminate|]. split; [discriminate|].
        intros (_ & entries' & [= <-] & Hnone). rewrite Hnone in Hfiles. discriminate Hfiles.
    + split; [split; discriminate|]. split; [discriminate|].
      intros (_ & entries' & Hsome & _). discriminate Hsome.
  - split; [split; reflexivity|]. split; [discriminate|]. intros [Hfalse _]. discriminate Hfalse.
Qed.

End LatestRunFile.

Lemma getLatestRunFile_newest_witness :
  exists f,
    getLatestRunFile "runs" (fun d f => d +:+ "/" +:+ f) (fun _ => true)
      (fun _ => Some ["a.json"; "b.txt"; "c.json"; "d.json"]%string)
      (fun p => Some (if String.eqb p "runs/a.json" then 10 else 20))
    = Done ("runs" +:+ "/" +:+ f)
    /\ f ∈ ["a.json"; "b.txt"; "c.json"; "d.json"]%string
    /\ endsWith f ".json" = true.
Proof.
  destruct (getLatestRunFile_newest "runs" (fun d f => d +:+ "/" +:+ f) (fun _ => true)
              (fun _ => Some ["a.json"; "b.txt"; "c.json"; "d.json"]%string)
              (fun p => Some (if String.eqb p "runs/a.json" then 10 else 20))
              ["a.json"; "b.txt"; "c.json"; "d.json"]%string
              (fun f => if String.eqb f "a.json" then 10 else 20)
              eq_refl eq_refl)
    as [[Hnone _]|(f & Hf & Hin & Hjson & _)].
  - intros f Hf Hjson.
    repeat (apply elem_of_cons in Hf as [->|Hf]; [vm_compute; reflexivity || discriminate Hjson|]).
    inversion Hf.
  - vm_compute in Hnone. discriminate Hnone.
  - exists f. split; [exact Hf|]. split; [exact Hin | exact Hjson].
Defined.

(** ** What [main] prints *)

Lemma render_valid dim tasks :
  tasks <> [] -> Forall epoch tasks ->
  Num.ltb (Int 0) (totalDuration (new_TimelineRenderer tasks CONFIG.TIMELINE_WIDTH)) = true ->
  exists rows axis,
    render dim (new_TimelineRenderer tasks CONFIG.TIMELINE_WIDTH) tasks []
    = (rows ++ [axis], Returns tt)
    /\ length rows = length tasks.
Proof.
  intros Hne Hepoch Hpos.
  set (this := new_TimelineRenderer tasks CONFIG.TIMELINE_WIDTH) in *.
  destruct (new_TimelineRenderer_scaled tasks Hne Hepoch Hpos)
    as (first & duration & gutter & width & Hs). fold this in Hs.
  pose proof (scaled_width_range _ _ _ _ _ _ Hs) as Hw.
  destruct (logRows_total dim this (groupAndSortTasks tasks) (getMarkerPositions this) [])
    as (rows & Hlog & Hall).
  { intros task.
    destruct (renderTaskRow_columns dim this task (getMarkerPositions this) width
                (scaled_width _ _ _ _ _ _ Hs) ltac:(lia)) as (row & _ & _ & Hrow & _).
    exists row. exact Hrow. }
  destruct (getTimestamps_view _ _ _ _ _ _ Hs)
    as (view & c0 & l0 & rest & Hview & Heq & Hc0 & Hasc & Hlast & _).
  pose proof (renderTimeAxis_scaled dim tasks this first duration gutter width view Hs Hview
                ltac:(rewrite Heq; exact Hc0) Hasc Hlast) as Haxis.
  eexists rows, _. split.
  - unfold render. rewrite Hlog, Haxis. reflexivity.
  - rewrite <- (Forall2_length _ _ _ Hall). apply Permutation_length, groupAndSortTasks_perm.
Qed.

Section MainFacts.

Variable dim : style.
Variable turboDir : string.
Variable path_join : string -> string -> string.
Variable existsSync : string -> bool.
Variable readdirSync : string -> option (list string).
Variable statSync_mtime : string -> option Z.
Variable readFileSync : string -> option string.
Variable JSON_parse : string -> option SummaryFile.


(** A run whose tasks have a positive total duration: [main] prints a
    blank line, the header with the command and the duration of the
    execution, a blank line, one row for each task and the axis, and
    returns; nothing goes to the standard error. *)
Theorem main_prints_header_and_chart (filePath contents : string) (data : SummaryFile) :
  getLatestRunFile turboDir path_join existsSync readdirSync statSync_mtime
  = Done filePath ->
  readFileSync filePath = Some contents ->
  JSON_parse contents = Some data ->
  run_tasks data <> [] -> Forall epoch (run_tasks data) ->
  Num.ltb (Int 0) (totalDuration (new_TimelineRenderer (run_tasks data) CONFIG.TIMELINE_WIDTH))
  = true ->
  exists rows axis,
    main dim turboDir path_join existsSync readdirSync statSync_mtime readFileSync JSON_parse
    = {| stdout := [Blank;
                    Header (command data)
                      (formatDuration (Int (run_endTime data - run_startTime data)));
                    Blank] ++ (Chart <$> rows) ++ [Chart axis];
         stderr := [];
         ended := Completed |}
    /\ length rows = length (run_tasks data)
    /\ timeline dim (run_tasks data) = (rows ++ [axis], Returns tt).
Proof.
  intros Hfile Hread Hparse Hne Hepoch Hpos.
  destruct (render_valid dim (run_tasks data) Hne Hepoch Hpos) as (rows & axis & Hrender & Hlen).
  exists rows, axis. split; [|split; [exact Hlen | exact Hrender]].
  unfold main. rewrite Hfile, Hread, Hparse. cbv zeta. rewrite Hrender.
  rewrite fmap_app. reflexivity.
Qed.

(** The failures of [main].  Without the directory nothing is printed
    but the error, and the process exits with status 1; likewise when
    the latest file cannot be read or parsed.  A run without tasks has
    its header printed, and then the RangeError of the axis is reported
    and the process exits with status 1. *)
Theorem main_failures :
  (existsSync turboDir = false ->
     main dim turboDir path_join existsSync readdirSync statSync_mtime readFileSync JSON_parse
     = {| stdout := [];
          stderr := [Error ".turbo/runs directory not found"];
          ended := Exited 1 |})
  /\ (forall filePath,
        getLatestRunFile turboDir path_join existsSync readdirSync statSync_mtime
        = Done filePath ->
        (readFileSync filePath = None
         \/ exists contents, readFileSync filePath = Some contents
                             /\ JSON_parse contents = None) ->
        main dim turboDir path_join existsSync readdirSync statSync_mtime
          readFileSync JSON_parse
        = {| stdout := []; stderr := [SystemError]; ended := Exited 1 |})
  /\ (forall filePath contents data,
        getLatestRunFile turboDir path_join existsSync readdirSync statSync_mtime
        = Done filePath ->
        readFileSync filePath = Some contents ->
        JSON_parse contents = Some data ->
        run_tasks data = [] ->
        main dim turboDir path_join existsSync readdirSync statSync_mtime
          readFileSync JSON_parse
        = {| stdout := [Blank;
                        Header (command data)
                          (formatDuration (Int (run_endTime data - run_startTime data)));
                        Blank];
             stderr := [EngineError RangeError];
             ended := Exited 1 |}).
Proof.
  split; [|split].
  - intros Hexists. unfold main, getLatestRunFile. rewrite Hexists. reflexivity.
  - intros filePath Hfile [Hread|(contents & Hread & Hparse)]; unfold main;
      rewrite Hfile, Hread, ?Hparse; reflexivity.
  - intros filePath contents data Hfile Hread Hparse Hempty. unfold main.
    rewrite Hfile, Hread, Hparse, Hempty. reflexivity.
Qed.

End MainFacts.

(** ** Separators of the rows and of the axis *)

(** Where the timeline of a list is 99 columns wide, the sixth and the
    eighth separator of the rows stand at the columns 61 and 86 behind
    the gutter, and those of the axis at the columns 62 and 87: the axis
    projects the eighths of the duration, the rows take the eighths of
    the width. *)
Theorem axis_separators_shifted_at_width_99 (tasks : list SummaryTask) :
  tasks <> [] -> Forall epoch tasks ->
  Num.ltb (Int 0) (totalDuration (new_TimelineRenderer tasks CONFIG.TIMELINE_WIDTH)) = true ->
  let this := new_TimelineRenderer tasks CONFIG.TIMELINE_WIDTH in
  timeToChars this (F64.of_number (totalDuration this)) = Int 99 ->
  exists gutter,
    labelWidth this = Int gutter
    /\ getMarkerPositions this
       = [Int 0; Int 12; Int 24; Int 37; Int 49; Int 61; Int 74; Int 86; Int 99]
    /\ (pos <$> getTimestamps this) !! 5%nat = Some (Int (gutter + 62))
    /\ (pos <$> getTimestamps this) !! 7%nat = Some (Int (gutter + 87)).
Proof.
  intros Hne Hepoch Hpos this Hwidth.
  destruct (new_TimelineRenderer_scaled tasks Hne Hepoch Hpos)
    as (first & duration & gutter & width & Hs). fold this in Hs.
  assert (Hw : width = 99).
  { pose proof (scaled_width _ _ _ _ _ _ Hs) as Hw. rewrite Hwidth in Hw. congruence. }
  subst width.
  exists gutter. split; [exact (scaled_gutter _ _ _ _ _ _ Hs)|]. split.
  - rewrite (getMarkerPositions_scaled _ _ _ _ _ _ Hs). reflexivity.
  - destruct (getTimestamps_scaled _ _ _ _ _ _ Hs)
      as (c2 & c4 & c6 & l0 & l1 & l2 & l3 & l4 & l5 & l6 & l7 & l8 & _ & _ & _ & ->).
    split; reflexivity.
Qed.

(** ** The gutter *)

(** The label width is the length of the longest identifier plus two,
    capped at 45.  Where no identifier of the list has more than 43
    characters, the gutter of every row is its identifier and at least
    two blanks, and all gutters have the same length. *)
Theorem gutter_pads_identifiers (tasks : list SummaryTask) (timelineWidth : Z) :
  tasks <> [] ->
  let this := new_TimelineRenderer tasks timelineWidth in
  exists longest,
    (exists t, t ∈ tasks /\ Z.of_nat (String.length (taskId t)) = longest)
    /\ (forall t, t ∈ tasks -> Z.of_nat (String.length (taskId t)) <= longest)
    /\ labelWidth this = Int (Z.min (longest + 2) CONFIG.MAX_LABEL_WIDTH)
    /\ (longest <= 43 ->
        forall t, t ∈ tasks ->
          exists blanks,
            gutterOf this t = text_of_string (taskId t) ++ spaces blanks
            /\ (2 <= blanks)%nat
            /\ Z.of_nat (length (gutterOf this t)) = longest + 2).
Proof.
  intros Hne this.
  destruct (Math_max_spec (fun t => Z.of_nat (String.length (taskId t))) tasks Hne)
    as (longest & Hmax & Hattained & Hbound).
  exists longest. split; [exact Hattained|]. split; [exact Hbound|].
  assert (Hlabel : labelWidth this = Int (Z.min (longest + 2) CONFIG.MAX_LABEL_WIDTH)).
  { unfold this. cbn [labelWidth new_TimelineRenderer]. rewrite Hmax.
    cbn [Num.add Num.Math_min foldr Num.min2 Num.ltb].
    change CONFIG.MAX_LABEL_WIDTH with 45.
    destruct (Z.ltb_spec 45 (longest + 2)); f_equal; lia. }
  split; [exact Hlabel|].
  intros Hshort t Ht. specialize (Hbound t Ht).
  unfold gutterOf. rewrite Hlabel. change CONFIG.MAX_LABEL_WIDTH with 45.
  rewrite Z.min_l by lia. unfold padEnd.
  eexists. split; [reflexivity|]. rewrite length_app, length_spaces, length_text_of_string.
  split; lia.
Qed.

(** ** Timelines of duration zero *)

Lemma logRows_fmap dim this rows markers (f : SummaryTask -> line) console :
  (forall task, renderTaskRow dim this task markers = Returns (f task)) ->
  logRows dim this rows markers console = (console ++ (f <$> rows), Returns tt).
Proof.
  intros Hrow. revert console. induction rows as [|task rows IH]; intros console.
  - rewrite app_nil_r. reflexivity.
  - cbn [logRows]. rewrite Hrow, IH, fmap_cons, <- app_assoc. reflexivity.
Qed.

(** A list whose tasks all begin and end at one and the same
    millisecond has a total duration of zero; [msToChars] is then
    [Infinity] and the width of the timeline NaN.  [render] returns:
    every row is the gutter of its task and nothing else, neither cell
    nor bar nor label, and both lines of the axis are the blank
    padding. *)
Theorem zero_duration_chart (dim : style) (tasks : list SummaryTask) :
  tasks <> [] ->
  totalDuration (new_TimelineRenderer tasks CONFIG.TIMELINE_WIDTH) = Int 0 ->
  let this := new_TimelineRenderer tasks CONFIG.TIMELINE_WIDTH in
  exists gutter,
    labelWidth this = Int (Z.of_nat gutter)
    /\ msToChars this = S754_infinity false
    /\ timeToChars this (F64.of_number (totalDuration this)) = NaN
    /\ timeline dim tasks
       = (((fun task => [Styled gray (gutterOf this task)]) <$> groupAndSortTasks tasks)
          ++ [axisString dim (spaces gutter) (spaces gutter)],
          Returns tt).
Proof.
  intros Hne Hzero this.
  destruct (Math_max_spec (fun t => Z.of_nat (String.length (taskId t))) tasks Hne)
    as (longest & Hmax & (t & _ & Hlongest) & _).
  assert (Hlabel : labelWidth this = Int (Z.min (longest + 2) CONFIG.MAX_LABEL_WIDTH)).
  { unfold this. cbn [labelWidth new_TimelineRenderer]. rewrite Hmax.
    cbn [Num.add Num.Math_min foldr Num.min2 Num.ltb].
    change CONFIG.MAX_LABEL_WIDTH with 45.
    destruct (Z.ltb_spec 45 (longest + 2)); f_equal; lia. }
  assert (Hscale : msToChars this = S754_infinity false).
  { change (msToChars this)
      with (F64.div (F64.of_Z CONFIG.TIMELINE_WIDTH) (F64.of_number (totalDuration this))).
    unfold this. rewrite Hzero. reflexivity. }
  assert (Hwidth : timeToChars this (F64.of_number (totalDuration this)) = NaN).
  { unfold timeToChars. fold this in Hzero. rewrite Hzero, Hscale. reflexivity. }
  exists (Z.to_nat (Z.min (longest + 2) CONFIG.MAX_LABEL_WIDTH)).
  change CONFIG.MAX_LABEL_WIDTH with 45 in *.
  rewrite Z2Nat.id by lia.
  split; [exact Hlabel|]. split; [exact Hscale|]. split; [exact Hwidth|].
  unfold timeline, render. fold this.
  rewrite (logRows_fmap dim this _ _ (fun task => [Styled gray (gutterOf this task)])).
  - unfold renderTimeAxis. rewrite Hwidth, Hlabel. cbn [repeat_space Num.add].
    replace (Z.min (longest + 2) 45 <? 0) with false by (symmetry; apply Z.ltb_ge; lia).
    reflexivity.
  - intros task. unfold renderTaskRow. rewrite Hwidth. reflexivity.
Qed.

Lemma late_task_listed : late_task ∈ [long_task; late_task].
Proof. apply elem_of_cons. right. apply elem_of_cons. left. reflexivity. Qed.

Lemma package_colours_repeat_modulo_7_witness :
  packageColors late_chart !! "a"%string = packageColors late_chart !! "b"%string
  <-> (0 mod 7 = 1 mod 7)%nat.
Proof.
  apply (package_colours_repeat_modulo_7 [long_task; late_task] CONFIG.TIMELINE_WIDTH
           0 1 "a" "b"); reflexivity.
Defined.

Lemma renderTaskRow_closed_form_witness :
  exists row, renderTaskRow dim_style late_chart late_task (getMarkerPositions late_chart)
              = Returns row.
Proof.
  destruct (renderTaskRow_closed_form dim_style [long_task; late_task] late_task)
    as (barStart & barEnd & width & row & _ & _ & Hrow & _).
  - exact late_chart_epoch.
  - exact late_task_listed.
  - vm_compute. reflexivity.
  - exists row. exact Hrow.
Defined.

Lemma duration_label_shown_iff_witness :
  exists row,
    renderTaskRow dim_style late_chart long_task (getMarkerPositions late_chart) = Returns row
    /\ ((exists n, row !! S n = Some (Styled dim_style (text_of_string "1s")))
        <-> Num.leb (b_end (getTaskBarBounds late_chart long_task))
                    (timeToChars late_chart (F64.of_number (totalDuration late_chart)))
            = true).
Proof.
  apply (duration_label_shown_iff dim_style [long_task; late_task] long_task).
  - exact late_chart_epoch.
  - apply elem_of_cons. left. reflexivity.
  - vm_compute. reflexivity.
Defined.

Lemma bar_painted_on_its_columns_witness :
  exists row,
    renderTaskRow dim_style late_chart late_task (getMarkerPositions late_chart) = Returns row
    /\ row !! O = Some (Styled gray (gutterOf late_chart late_task)).
Proof.
  destruct (bar_painted_on_its_columns dim_style [long_task; late_task] late_task)
    as (barStart & barEnd & width & row & _ & _ & Hrow & Hhead & _).
  - exact late_chart_epoch.
  - exact late_task_listed.
  - vm_compute. reflexivity.
  - exists row. split; [exact Hrow | exact Hhead].
Defined.

Lemma axis_lines_aligned_witness :
  exists markerLine labelLine,
    renderTimeAxis dim_style late_chart = Returns (axisString dim_style markerLine labelLine)
    /\ length markerLine = length labelLine.
Proof.
  destruct (axis_lines_aligned dim_style [long_task; late_task])
    as (gutter & width & lastLabel & markerLine & labelLine & _ & _ & _ & Haxis & Hlen & _).
  - discriminate.
  - exact late_chart_epoch.
  - vm_compute. reflexivity.
  - exists markerLine, labelLine. split; [exact Haxis | exact Hlen].
Defined.

Lemma axis_labels_are_eighths_witness :
  exists D,
    totalDuration late_chart = Int D
    /\ (label <$> getTimestamps late_chart) !! 8%nat = Some (formatDuration (Int D)).
Proof.
  destruct (axis_labels_are_eighths [long_task; late_task])
    as (D & HD & _ & _ & Hlast & _).
  - discriminate.
  - exact late_chart_epoch.
  - vm_compute. reflexivity.
  - exists D. split; [exact HD | exact Hlast].
Defined.

Lemma all_axis_labels_written_witness :
  exists markerLine labelLine,
    renderTimeAxis dim_style late_chart = Returns (axisString dim_style markerLine labelLine)
    /\ forall ts, ts ∈ getTimestamps late_chart ->
         exists c, pos ts = Int c
           /\ stands_at labelLine (c + 1) (text_of_string (label ts)).
Proof.
  destruct (all_axis_labels_written dim_style [long_task; late_task])
    as (markerLine & labelLine & Haxis & Hall).
  - discriminate.
  - exact late_chart_epoch.
  - vm_compute. reflexivity.
  - vm_compute. reflexivity.
  - exists markerLine, labelLine. split; [exact Haxis|].
    intros ts Hts. destruct (Hall ts Hts) as (_ & c & Hc & _ & Hstands).
    exists c. split; [exact Hc | exact Hstands].
Defined.

Lemma main_prints_header_and_chart_witness :
  exists rows axis,
    timeline dim_style [long_task; late_task] = (rows ++ [axis], Returns tt)
    /\ length rows = 2%nat.
Proof.
  destruct (main_prints_header_and_chart dim_style "runs" (fun d f => d +:+ "/" +:+ f)
              (fun _ => true) (fun _ => Some ["a.json"%string]) (fun _ => Some 10)
              (fun _ => Some "{}"%string)
              (fun _ => Some {| command := "turbo run build"; run_startTime := 0;
                                run_endTime := 1000;
                                run_tasks := [long_task; late_task] |})
              "runs/a.json" "{}"
              {| command := "turbo run build"; run_startTime := 0; run_endTime := 1000;
                 run_tasks := [long_task; late_task] |})
    as (rows & axis & _ & Hlen & Hchart).
  - vm_compute. reflexivity.
  - reflexivity.
  - reflexivity.
  - discriminate.
  - exact late_chart_epoch.
  - vm_compute. reflexivity.
  - exists rows, axis. split; [exact Hchart | exact Hlen].
Defined.

Lemma axis_separators_shifted_at_width_99_witness :
  exists gutter,
    labelWidth brief_chart = Int gutter
    /\ (pos <$> getTimestamps brief_chart) !! 5%nat = Some (Int (gutter + 62)).
Proof.
  destruct (axis_separators_shifted_at_width_99 [brief_task])
    as (gutter & Hgutter & _ & Hsix & _).
  - discriminate.
  - repeat constructor; simpl; lia.
  - vm_compute. reflexivity.
  - vm_compute. reflexivity.
  - exists gutter. split; [exact Hgutter | exact Hsix].
Defined.

Lemma gutter_pads_identifiers_witness :
  exists longest, labelWidth late_chart = Int (Z.min (longest + 2) CONFIG.MAX_LABEL_WIDTH).
Proof.
  destruct (gutter_pads_identifiers [long_task; late_task] CONFIG.TIMELINE_WIDTH)
    as (longest & _ & _ & Hlabel & _).
  - discriminate.
  - exists longest. exact Hlabel.
Defined.

Lemma zero_duration_chart_witness :
  exists gutter,
    timeline dim_style [instant]
    = ([[Styled gray (gutterOf (new_TimelineRenderer [instant] CONFIG.TIMELINE_WIDTH) instant)];
        axisString dim_style (spaces gutter) (spaces gutter)],
       Returns tt).
Proof.
  destruct (zero_duration_chart dim_style [instant]) as (gutter & _ & _ & _ & Hchart).
  - discriminate.
  - reflexivity.
  - exists gutter. exact Hchart.
Defined.

(** ** Reading a label back *)

Lemma list_ascii_app (a b : string) :
  list_ascii_of_string (a +:+ b) = list_ascii_of_string a ++ list_ascii_of_string b.
Proof.
  induction a as [|c a IH]; [reflexivity|].
  change (String c a +:+ b) with (String c (a +:+ b)). cbn [list_ascii_of_string].
  rewrite IH. reflexivity.
Qed.

Lemma list_ascii_inj (a b : string) :
  list_ascii_of_string a = list_ascii_of_string b -> a = b.
Proof.
  intros H. rewrite <- (string_of_list_ascii_of_string a), <- (string_of_list_ascii_of_string b).
  rewrite H. reflexivity.
Qed.

Lemma pretty_N_go_no_char (c : ascii) x s :
  (forall d, pretty_N_char d <> c) ->
  c ∉ list_ascii_of_string s -> c ∉ list_ascii_of_string (pretty_N_go x s).
Proof.
  intros Hdigit. revert s. induction (N.lt_wf_0 x) as [x _ IH]. intros s Hs.
  destruct (N.eq_dec x 0%N) as [->|Hne]; [rewrite pretty_N_go_0; exact Hs|].
  rewrite pretty_N_go_step by lia. apply IH.
  - apply N.div_lt; lia.
  - cbn [list_ascii_of_string]. apply not_elem_of_cons. split; [|exact Hs].
    intros Heq. exact (Hdigit _ (eq_sym Heq)).
Qed.

(** The digits of a number that is not negative hold neither the
    point nor a letter. *)
Lemma pretty_no_char (c : ascii) z :
  0 <= z -> (forall d, pretty_N_char d <> c) -> c ∉ list_ascii_of_string (pretty z).
Proof.
  intros Hz Hdigit. destruct z as [|p|p]; [|  |lia].
  - change (pretty 0) with "0"%string. cbn [list_ascii_of_string].
    apply not_elem_of_cons. split; [|apply not_elem_of_nil].
    intros Heq. exact (Hdigit 0%N (eq_sym Heq)).
  - change (pretty (Zpos p)) with (pretty_N_go (Npos p) "").
    apply pretty_N_go_no_char; [exact Hdigit | apply not_elem_of_nil].
Qed.

Lemma digit_not_point d : pretty_N_char d <> "."%char.
Proof. unfold pretty_N_char. repeat case_match; discriminate. Qed.

Lemma digit_not_m d : pretty_N_char d <> "m"%char.
Proof. unfold pretty_N_char. repeat case_match; discriminate. Qed.

Lemma seconds_toString_decimals h :
  seconds_toString h = pretty (h `div` 100) +:+ decimals (h `mod` 100).
Proof.
  unfold seconds_toString, decimals.
  destruct (h `mod` 100 =? 0).
  - induction (pretty (h `div` 100)) as [|c w IH]; [reflexivity|].
    change (String c w +:+ "") with (String c (w +:+ "")). rewrite <- IH. reflexivity.
  - destruct ((h `mod` 100) `mod` 10 =? 0); rewrite ?string_app_assoc; reflexivity.
Qed.

Lemma decimals_spec f g :
  0 <= f < 100 -> 0 <= g < 100 ->
  (decimals f = ""%string
   \/ exists rest, list_ascii_of_string (decimals f) = "."%char :: rest
                   /\ "m"%char ∉ rest)
  /\ (decimals f = decimals g -> f = g).
Proof.
  intros Hf Hg.
  assert (Hchecked : decimals_checked = true) by (vm_compute; reflexivity).
  unfold decimals_checked in Hchecked. rewrite forallb_forall in Hchecked.
  specialize (Hchecked f ltac:(apply list_elem_of_In, elem_of_seqZ; lia)).
  apply andb_true_iff in Hchecked as [Hshape Hinj]. split.
  - destruct (list_ascii_of_string (decimals f)) as [|c rest] eqn:Hlist.
    + left. apply list_ascii_inj. exact Hlist.
    + right. apply andb_true_iff in Hshape as [Hc Hrest].
      apply bool_decide_eq_true in Hc. apply bool_decide_eq_true in Hrest.
      subst c. exists rest. split; [reflexivity | exact Hrest].
  - intros Heq. rewrite forallb_forall in Hinj.
    specialize (Hinj g ltac:(apply list_elem_of_In, elem_of_seqZ; lia)).
    rewrite Heq, String.eqb_refl in Hinj. cbn [implb] in Hinj. apply Z.eqb_eq. exact Hinj.
Qed.

(** Two texts without a point, each followed by nothing or by a point
    and more: equal as wholes, they are equal part by part. *)
Lemma split_at_point (w1 w2 t1 t2 : list ascii) :
  "."%char ∉ w1 -> "."%char ∉ w2 ->
  (t1 = [] \/ exists r, t1 = "."%char :: r) ->
  (t2 = [] \/ exists r, t2 = "."%char :: r) ->
  w1 ++ t1 = w2 ++ t2 -> w1 = w2 /\ t1 = t2.
Proof.
  revert w2. induction w1 as [|c w1 IH]; intros w2 H1 H2 Ht1 Ht2 Heq.
  - destruct w2 as [|c w2]; [split; [reflexivity | exact Heq]|].
    exfalso. cbn in Heq. destruct Ht1 as [->|[r ->]]; [discriminate|].
    injection Heq as <- _. apply H2. left.
  - destruct w2 as [|c' w2].
    + exfalso. cbn in Heq. destruct Ht2 as [->|[r ->]]; [discriminate|].
      injection Heq as -> _. apply H1. left.
    + cbn in Heq. injection Heq as <- Heq.
      apply not_elem_of_cons in H1 as [_ H1]. apply not_elem_of_cons in H2 as [_ H2].
      destruct (IH w2 H1 H2 Ht1 Ht2 Heq) as [-> ->]. split; reflexivity.
Qed.

Lemma seconds_toString_inj x y :
  0 <= x -> 0 <= y -> seconds_toString x = seconds_toString y -> x = y.
Proof.
  intros Hx Hy Heq. rewrite !seconds_toString_decimals in Heq.
  apply (f_equal list_ascii_of_string) in Heq. rewrite !list_ascii_app in Heq.
  pose proof (Z.mod_pos_bound x 100 ltac:(lia)) as Hfx.
  pose proof (Z.mod_pos_bound y 100 ltac:(lia)) as Hfy.
  destruct (decimals_spec (x `mod` 100) (y `mod` 100) Hfx Hfy) as [Hsx Hinj].
  destruct (decimals_spec (y `mod` 100) (x `mod` 100) Hfy Hfx) as [Hsy _].
  apply split_at_point in Heq as [Hw Ht].
  - apply list_ascii_inj, (inj pretty) in Hw. apply list_ascii_inj, Hinj in Ht.
    rewrite (Z.div_mod x 100), (Z.div_mod y 100) by lia. congruence.
  - apply pretty_no_char; [apply Z.div_pos; lia | apply digit_not_point].
  - apply pretty_no_char; [apply Z.div_pos; lia | apply digit_not_point].
  - destruct Hsx as [->|(r & -> & _)]; [left; reflexivity | right; eauto].
  - destruct Hsy as [->|(r & -> & _)]; [left; reflexivity | right; eauto].
Qed.

Lemma seconds_toString_no_m h :
  0 <= h -> "m"%char ∉ list_ascii_of_string (seconds_toString h).
Proof.
  intros Hh. rewrite seconds_toString_decimals, list_ascii_app.
  apply not_elem_of_app. split.
  - apply pretty_no_char; [apply Z.div_pos; lia | apply digit_not_m].
  - pose proof (Z.mod_pos_bound h 100 ltac:(lia)) as Hf.
    destruct (decimals_spec (h `mod` 100) 0 Hf ltac:(lia)) as [[->|(r & -> & Hr)] _].
    + apply not_elem_of_nil.
    + apply not_elem_of_cons. split; [discriminate | exact Hr].
Qed.

(** The label of a duration tells the duration: below one second to
    the millisecond, from one second on to the hundredth of a second.
    Two millisecond counts below 2^53 have the same label exactly if
    they are equal below one second, or are both of one second at least
    and have the same hundredths. *)
Theorem formatDuration_reads_back (a b : Z) :
  0 <= a < 2 ^ 53 -> 0 <= b < 2 ^ 53 ->
  formatDuration (Int a) = formatDuration (Int b)
  <-> (a < 1000 /\ a = b) \/ (1000 <= a /\ 1000 <= b /\ a `div` 10 = b `div` 10).
Proof.
  intros Ha Hb. rewrite !formatDuration_Int by lia. split.
  - intros Heq. apply (f_equal list_ascii_of_string) in Heq.
    destruct (Z.ltb_spec a 1000) as [Ha1|Ha1], (Z.ltb_spec b 1000) as [Hb1|Hb1];
      rewrite !list_ascii_app in Heq.
    + left. split; [exact Ha1|]. apply app_inv_tail in Heq.
      apply list_ascii_inj, (inj pretty) in Heq. exact Heq.
    + exfalso. change (list_ascii_of_string "ms") with (["m"] ++ ["s"])%char in Heq.
      change (list_ascii_of_string "s") with ["s"%char] in Heq.
      rewrite app_assoc in Heq. apply app_inv_tail in Heq.
      apply (seconds_toString_no_m (b `div` 10)); [apply Z.div_pos; lia|].
      rewrite <- Heq. apply elem_of_app. right. left.
    + exfalso. change (list_ascii_of_string "ms") with (["m"] ++ ["s"])%char in Heq.
      change (list_ascii_of_string "s") with ["s"%char] in Heq.
      rewrite app_assoc in Heq. apply app_inv_tail in Heq.
      apply (seconds_toString_no_m (a `div` 10)); [apply Z.div_pos; lia|].
      rewrite Heq. apply elem_of_app. right. left.
    + right. split; [exact Ha1|]. split; [exact Hb1|]. apply app_inv_tail in Heq.
      apply list_ascii_inj, seconds_toString_inj in Heq;
        [exact Heq | apply Z.div_pos; lia | apply Z.div_pos; lia].
  - intros [[Ha1 <-]|(Ha1 & Hb1 & Heq)]; [reflexivity|].
    replace (a <? 1000) with false by (symmetry; apply Z.ltb_ge; lia).
    replace (b <? 1000) with false by (symmetry; apply Z.ltb_ge; lia).
    rewrite Heq. reflexivity.
Qed.

Lemma formatDuration_reads_back_witness :
  formatDuration (Int 1234) = formatDuration (Int 1239)
  <-> (1234 < 1000 /\ 1234 = 1239)
      \/ (1000 <= 1234 /\ 1000 <= 1239 /\ 1234 `div` 10 = 1239 `div` 10).
Proof. apply (formatDuration_reads_back 1234 1239); lia. Defined.

(** ** Bars in proportion *)

Lemma project_proportional d z :
  1 <= d < 2 ^ 53 -> 0 <= z < 2 ^ 53 ->
  exists c, F64.Math_floor (F64.mul (F64.of_Z z) (scale d)) = Int c
            /\ 0 <= c /\ proportional d z c.
Proof.
  intros Hd Hz. destruct (Z.eq_dec z 0) as [->|Hz0].
  - destruct (scale_close d Hd) as [(ms & es & -> & _) _].
    exists 0. split; [reflexivity|]. split; [lia|]. unfold proportional. lia.
  - destruct (scale_close d Hd) as [Hns Hcs].
    destruct (of_Z_pos z ltac:(lia)) as [Hnz Vz].
    destruct (mul_close _ _ 53 160 Hnz Hns ltac:(lia)) as [Hn Hc].
    destruct Hn as (m & e & Hmul & Hm & He). rewrite Hmul in Hc |- *.
    destruct (Math_floor_finite false m e) as (c & -> & Hfloor).
    rewrite Vz in Hc.
    assert (HD : (1 <= IZR d)%R) by (apply IZR_le; lia).
    assert (HZ : (1 <= IZR z)%R) by (apply IZR_le; lia).
    destruct Hcs as (Hs & _ & Hs1 & Hs2). destruct Hc as (Hp & _ & Hp1 & Hp2).
    set (S := val (scale d)) in *. set (P := val (S754_finite false m e)) in *.
    set (D := IZR d) in *. set (Z := IZR z) in *. set (C := IZR c) in *.
    assert (HS1 : (1000 * (D * S) <= 1001 * 100)%R).
    { replace (1001 * 100)%R with (D * (1001 * (100 / D)))%R by (field; lra). nra. }
    assert (HS2 : (1000 * 100 <= 1001 * (D * S))%R).
    { replace (1000 * 100)%R with (D * (1000 * (100 / D)))%R by (field; lra). nra. }
    assert (HDS : (0 < D * S)%R) by nra.
    assert (H1 : (1000 * (D * P) <= 1001 * (Z * (D * S)))%R) by nra.
    assert (H2 : (1000 * (Z * (D * S)) <= 1001 * (D * P))%R) by nra.
    assert (H3 : (1000 * (Z * (D * S)) <= 100100 * Z)%R) by nra.
    assert (H4 : (100000 * Z <= 1001 * (Z * (D * S)))%R) by nra.
    assert (H5 : (D * C <= D * P)%R) by nra.
    assert (H6 : (D * P < D * (C + 1))%R) by nra.
    assert (Hupper : (1000000 * (D * C) <= 100200100 * Z)%R) by lra.
    assert (Hlower : (100000000 * Z < 1002001 * (D * (C + 1)))%R) by lra.
    assert (Hc0 : 0 <= c).
    { apply Z.lt_succ_r, lt_IZR. rewrite succ_IZR. fold C. nra. }
    exists c. split; [reflexivity|]. split; [exact Hc0|]. unfold proportional. split.
    + apply le_IZR. rewrite !mult_IZR. exact Hupper.
    + apply lt_IZR. rewrite !mult_IZR, plus_IZR. exact Hlower.
Qed.

(** The bar of a task that does not end before it begins, in a list
    whose times are millisecond counts below 2^53 and whose total
    duration [D] is positive.  The bar starts at the column that is
    the hundredfold of the share of [D] that lies before the task, and
    its width before the minimum is applied is the hundredfold of the
    share of [D] that the task takes, both rounded down and exact up
    to two thousandths; neither exceeds 100. *)
Theorem bars_are_proportional (tasks : list SummaryTask) (task : SummaryTask) :
  Forall epoch tasks -> task ∈ tasks ->
  Num.ltb (Int 0) (totalDuration (new_TimelineRenderer tasks CONFIG.TIMELINE_WIDTH)) = true ->
  startTime task <= endTime task ->
  let this := new_TimelineRenderer tasks CONFIG.TIMELINE_WIDTH in
  exists first D barStart projected,
    r_startTime this = Int first /\ totalDuration this = Int D
    /\ getTaskBarBounds this task
       = {| b_start := Int barStart;
            b_end := Int (barStart + Z.max CONFIG.MIN_BAR_WIDTH projected) |}
    /\ proportional D (startTime task - first) barStart
    /\ proportional D (endTime task - startTime task) projected
    /\ 0 <= barStart <= 100 /\ 0 <= projected <= 100.
Proof.
  intros Hepoch Hin Hpos Horder this.
  assert (Hne : tasks <> []) by (intros ->; inversion Hin).
  destruct (new_TimelineRenderer_scaled tasks Hne Hepoch Hpos)
    as (first & duration & gutter & width & Hs). fold this in Hs.
  assert (Htask : epoch task)
    by (rewrite List.Forall_forall in Hepoch; apply Hepoch, list_elem_of_In, Hin).
  destruct Htask as [Hstart Hend].
  pose proof (scaled_first _ _ _ _ _ _ Hs task Hin) as Hfirst.
  pose proof (scaled_first_range _ _ _ _ _ _ Hs) as Hfirst0.
  pose proof (scaled_range _ _ _ _ _ _ Hs) as Hd.
  assert (Hlast : endTime task - first <= duration).
  { destruct (Math_max_spec endTime tasks Hne) as (last & Hmax & _ & Hbound).
    pose proof (scaled_duration _ _ _ _ _ _ Hs) as HD.
    pose proof (scaled_start _ _ _ _ _ _ Hs) as HF.
    unfold this in HD, HF. cbn [totalDuration r_startTime new_TimelineRenderer] in HD, HF.
    rewrite Hmax, HF in HD. cbn in HD. injection HD as HD.
    specialize (Hbound task Hin). lia. }
  destruct (project_proportional duration (startTime task - first) Hd ltac:(lia))
    as (barStart & HbarStart & Hnonneg & Hprop).
  destruct (project_proportional duration (endTime task - startTime task) Hd ltac:(lia))
    as (projected & Hprojected & Hnonneg' & Hprop').
  assert (Hwidth : barWidth this task = Int (Z.max CONFIG.MIN_BAR_WIDTH projected)).
  { unfold barWidth, timeToChars.
    rewrite Num_sub_Int, (scaled_scale _ _ _ _ _ _ Hs). cbn [F64.of_number].
    rewrite Hprojected. apply Math_max_floor. }
  exists first, duration, barStart, projected.
  split; [exact (scaled_start _ _ _ _ _ _ Hs)|].
  split; [exact (scaled_duration _ _ _ _ _ _ Hs)|].
  split.
  { unfold getTaskBarBounds. rewrite Hwidth. unfold timeToChars.
    rewrite (scaled_start _ _ _ _ _ _ Hs), Num_sub_Int, (scaled_scale _ _ _ _ _ _ Hs).
    cbn [F64.of_number]. rewrite HbarStart. reflexivity. }
  split; [exact Hprop|]. split; [exact Hprop'|].
  unfold proportional in Hprop, Hprop'. split; split; try assumption; nia.
Qed.

Lemma bars_are_proportional_witness :
  exists first D barStart projected,
    r_startTime late_chart = Int first /\ totalDuration late_chart = Int D
    /\ proportional D (startTime late_task - first) barStart
    /\ proportional D (endTime late_task - startTime late_task) projected.
Proof.
  destruct (bars_are_proportional [long_task; late_task] late_task)
    as (first & D & barStart & projected & Hfirst & HD & _ & Hstart & Hwidth & _).
  - exact late_chart_epoch.
  - apply elem_of_cons. right. apply elem_of_cons. left. reflexivity.
  - vm_compute. reflexivity.
  - vm_compute. discriminate.
  - exists first, D, barStart, projected.
    split; [exact Hfirst|]. split; [exact HD|]. split; [exact Hstart | exact Hwidth].
Defined.
